(** * finch-buck2: the CMake to Buck2 pipeline, embedded and verified

    The development follows the sources of the repository:
    - [src/generator/target_mapper.cpp], [src/generator/rule_templates.cpp]
    - [src/parser/cpm_parser.cpp], [src/parser/parser_*.cpp], [src/parser/parser.cpp]
    - [src/analyzer/evaluation_context.cpp], [src/analyzer/cmake_evaluator.cpp]

    Strings are [string] (sequences of 8-bit characters, as [std::string]);
    [std::unordered_map<std::string, T>] is [gmap string T]; vectors are lists.
    Source locations are carried by every token and AST node in the C++ code
    but never influence parsing decisions or evaluation; they are left out. *)

From Stdlib Require Import ZArith Lia Ascii String List Bool.
From stdpp Require Import base option list strings gmap pretty.

Local Open Scope string_scope.
Local Open Scope list_scope.

Arguments String.append : simpl nomatch.

(** ** Characters and strings: the parts of <cctype> and std::string in use *)

Module CType.

(** Classification in the "C" locale; bytes above 127 belong to no class. *)
Definition isdigit (c : ascii) : bool :=
  let n := nat_of_ascii c in (48 <=? n)%nat && (n <=? 57)%nat.

Definition isupper (c : ascii) : bool :=
  let n := nat_of_ascii c in (65 <=? n)%nat && (n <=? 90)%nat.

Definition islower (c : ascii) : bool :=
  let n := nat_of_ascii c in (97 <=? n)%nat && (n <=? 122)%nat.

Definition isalpha (c : ascii) : bool := isupper c || islower c.

Definition isalnum (c : ascii) : bool := isalpha c || isdigit c.

(** space, \t, \n, \v, \f, \r *)
Definition isspace (c : ascii) : bool :=
  let n := nat_of_ascii c in (n =? 32)%nat || ((9 <=? n)%nat && (n <=? 13)%nat).

End CType.

Module Str.

Fixpoint map (f : ascii -> ascii) (s : string) : string :=
  match s with
  | EmptyString => EmptyString
  | String c rest => String (f c) (map f rest)
  end.

Fixpoint to_list (s : string) : list ascii :=
  match s with
  | EmptyString => []
  | String c rest => c :: to_list rest
  end.

(** [s.starts_with(p)] *)
Fixpoint starts_with (p s : string) : bool :=
  match p, s with
  | EmptyString, _ => true
  | String a p', String b s' => Ascii.eqb a b && starts_with p' s'
  | String _ _, EmptyString => false
  end.

(** [s.find(needle) != npos] *)
Fixpoint contains (needle s : string) : bool :=
  starts_with needle s ||
  match s with
  | EmptyString => false
  | String _ rest => contains needle rest
  end.

(** [s.find(c) != npos] for a character *)
Fixpoint contains_char (c : ascii) (s : string) : bool :=
  match s with
  | EmptyString => false
  | String a rest => Ascii.eqb a c || contains_char c rest
  end.

(** [s.find(c)], [None] for [npos] *)
Fixpoint find_char (c : ascii) (s : string) : option nat :=
  match s with
  | EmptyString => None
  | String a rest => if Ascii.eqb a c then Some 0%nat else S <$> find_char c rest
  end.

Fixpoint take (n : nat) (s : string) : string :=
  match n, s with
  | S n', String c rest => String c (take n' rest)
  | _, _ => EmptyString
  end.

Fixpoint drop (n : nat) (s : string) : string :=
  match n, s with
  | S n', String _ rest => drop n' rest
  | _, _ => s
  end.

(** [s.ends_with(p)] *)
Definition ends_with (p s : string) : bool :=
  (String.length p <=? String.length s)%nat &&
  String.eqb (drop (String.length s - String.length p) s) p.

(** [s.replace(pos, len, by)] for [pos <= s.size()]: the characters
    [pos .. min(pos+len, size)) give way to [by]. *)
Definition replace (pos len : nat) (by_ : string) (s : string) : string :=
  take pos s +:+ by_ +:+ drop (pos + len) s.

(** [hay] has [needle] as a contiguous part *)
Definition has_part (needle hay : string) : Prop :=
  exists before after, hay = before +:+ needle +:+ after.

End Str.

(** ** Target mapper ([src/generator/target_mapper.cpp]) *)

Module TargetMapper.

Inductive Buck2RuleType :=
| CxxLibrary | CxxBinary | CxxTest | FileGroup | PrebuiltCxxLibrary | HttpArchive | Unknown.

(** [std::map<std::string, std::string> properties] is kept as the sequence of
    entries in which the map is traversed. [platform_config] is never read by
    the code modelled here. *)
Record MappedTarget := {
  name : string;
  rule_type : Buck2RuleType;
  srcs : list string;
  headers : list string;
  deps : list string;
  properties : list (string * string)
}.

(** The loop body of [normalize_target_name]:
    [if (!std::isalnum(c) && c != '_' && c != '-') c = '_';] *)
Definition normalize_char (c : ascii) : ascii :=
  if negb (CType.isalnum c) && negb (Ascii.eqb c "_") && negb (Ascii.eqb c "-")
  then "_"%char else c.

Definition normalize_target_name (cmake_name : string) : string :=
  let normalized := Str.map normalize_char cmake_name in
  match normalized with
  | String c0 _ => if CType.isdigit c0 then "lib_" +:+ normalized else normalized
  | EmptyString => normalized
  end.

(** A character of the class [A-Za-z0-9_-] *)
Definition target_name_char (c : ascii) : bool :=
  CType.isalnum c || Ascii.eqb c "_" || Ascii.eqb c "-".

Definition starts_with_digit (s : string) : bool :=
  match s with
  | String c _ => CType.isdigit c
  | EmptyString => false
  end.

End TargetMapper.

(** ** Rule templates ([src/generator/rule_templates.cpp]) *)

Module RuleTemplates.
Import TargetMapper.

Definition nl : string := String (ascii_of_nat 10) EmptyString.
Definition dq : string := String (ascii_of_nat 34) EmptyString.

(** the loops that write one quoted element per line, for sources, headers
    and dependencies *)
Fixpoint quoted_lines (xs : list string) : string :=
  match xs with
  | [] => ""
  | x :: rest => "        " +:+ dq +:+ x +:+ dq +:+ "," +:+ nl +:+ quoted_lines rest
  end.

(** the loop over [target.properties]: one line [key = value,] each *)
Fixpoint property_lines (ps : list (string * string)) : string :=
  match ps with
  | [] => ""
  | (key, value) :: rest => "    " +:+ key +:+ " = " +:+ value +:+ "," +:+ nl +:+ property_lines rest
  end.

Definition headers_glob_line : string :=
  "    headers = glob([" +:+ dq +:+ "**/*.h" +:+ dq +:+ ", " +:+ dq +:+ "**/*.hpp" +:+ dq +:+ "])," +:+ nl.

Definition is_empty {A} (l : list A) : bool :=
  match l with [] => true | _ => false end.

(** [CxxLibraryTemplate::generate] *)
Definition CxxLibraryTemplate_generate (target : MappedTarget) : string :=
  let result := "cxx_library(" +:+ nl in
  let result := result +:+ "    name = " +:+ dq +:+ name target +:+ dq +:+ "," +:+ nl in
  let result :=
    if negb (is_empty (srcs target))
    then result +:+ "    srcs = [" +:+ nl +:+ quoted_lines (srcs target) +:+ "    ]," +:+ nl
    else result in
  let result :=
    if negb (is_empty (headers target))
    then result +:+ headers_glob_line
    else result +:+ headers_glob_line in
  let result := result +:+ "    visibility = [" +:+ dq +:+ "PUBLIC" +:+ dq +:+ "]," +:+ nl in
  let result := result +:+ "    header_namespace = " +:+ dq +:+ name target +:+ dq +:+ "," +:+ nl in
  let result :=
    if negb (is_empty (deps target))
    then result +:+ "    deps = [" +:+ nl +:+ quoted_lines (deps target) +:+ "    ]," +:+ nl
    else result in
  let result := result +:+ property_lines (properties target) in
  result +:+ ")".

(** [CxxBinaryTemplate::generate], the sibling that does write header names *)
Definition CxxBinaryTemplate_generate (target : MappedTarget) : string :=
  let result := "cxx_binary(" +:+ nl in
  let result := result +:+ "    name = " +:+ dq +:+ name target +:+ dq +:+ "," +:+ nl in
  let result :=
    if negb (is_empty (srcs target))
    then result +:+ "    srcs = [" +:+ nl +:+ quoted_lines (srcs target) +:+ "    ]," +:+ nl
    else result in
  let result :=
    if negb (is_empty (headers target))
    then result +:+ "    headers = [" +:+ nl +:+ quoted_lines (headers target) +:+ "    ]," +:+ nl
    else result in
  let result :=
    if negb (is_empty (deps target))
    then result +:+ "    deps = [" +:+ nl +:+ quoted_lines (deps target) +:+ "    ]," +:+ nl
    else result in
  let result := result +:+ property_lines (properties target) in
  result +:+ ")".

Definition with_headers (hs : list string) (t : MappedTarget) : MappedTarget :=
  {| name := name t; rule_type := rule_type t; srcs := srcs t; headers := hs;
     deps := deps t; properties := properties t |}.

End RuleTemplates.

(** ** Results and errors ([include/finch/core/result.hpp], [error.hpp]) *)

Inductive Result (A E : Type) :=
| Ok (a : A)
| Err (e : E).
Arguments Ok {A E} a.
Arguments Err {A E} e.

Definition has_value {A E} (r : Result A E) : bool :=
  match r with Ok _ => true | Err _ => false end.

Inductive ParseErrorCategory :=
| UnexpectedToken | UnterminatedString | InvalidSyntax | UnknownCommand | TooManyArguments
| TooFewArguments | InvalidEscape | UnbalancedParens | UnexpectedEOF.

(** The location and the notes of context that an error carries are left
    out: no decision depends on them. *)
Record ParseError := { pe_category : ParseErrorCategory; pe_message : string }.

(** [explicit ParseError(std::string message)] defaults to InvalidSyntax *)
Definition parse_error (message : string) : ParseError :=
  {| pe_category := InvalidSyntax; pe_message := message |}.

Inductive AnalysisErrorCategory :=
| UnknownTarget | CircularDependency | MissingDependency | InvalidProperty | UnsupportedFeature
| PlatformSpecific | TypeMismatch | UndefinedVariable | InvalidConfiguration.

Record AnalysisError := { ae_category : AnalysisErrorCategory; ae_message : string }.

(** [explicit AnalysisError(std::string message)] defaults to InvalidConfiguration *)
Definition analysis_error (message : string) : AnalysisError :=
  {| ae_category := InvalidConfiguration; ae_message := message |}.

(** ** What the runtime provides

    The program converts between [double], [int64_t] and text through the C
    and C++ libraries, and asks the operating system for the working
    directory. These are an interface of the development; nothing below
    depends on how the conversions round. *)

Class Runtime := {
  double : Type;
  (** [static_cast<double>(int64_t)] *)
  double_of_int64 : Z -> double;
  (** [static_cast<int64_t>(double)] *)
  int64_of_double : double -> Z;
  (** [operator==] on doubles *)
  double_eqb : double -> double -> bool;
  (** the value [strtod] and [std::stod] return for a text *)
  strtod_value : string -> double;
  (** whether [std::stod] throws [std::out_of_range] for a numeral *)
  stod_out_of_range : string -> bool;
  (** [operator<<] on a default-constructed [std::ostringstream] *)
  double_to_string : double -> string;
  (** [std::filesystem::current_path()] *)
  current_path : string
}.

(** ** Regular expressions: the fragment of ECMAScript [std::regex] in use

    Backtracking with the priorities of ECMAScript: quantifiers are greedy
    and the first successful path gives the captures. *)

Module Regex.

Inductive char_class :=
| Chr (c : ascii)        (* a literal character *)
| AnyChar                (* .     : anything but a line terminator *)
| OneOf (cs : string)    (* [cs]  *)
| NoneOf (cs : string).  (* [^cs] *)

Inductive regex :=
| Atom (a : char_class)
| Plus (a : char_class)          (* a+ *)
| Seq (r1 r2 : regex)
| Opt (r : regex)                (* (?:r)? *)
| Group (n : nat) (r : regex)    (* the n-th pair of capturing parentheses *)
| Bol                            (* ^ *)
| Eol                            (* $ *)
| Eps.                           (* the empty pattern *)

Definition class_matches (a : char_class) (c : ascii) : bool :=
  match a with
  | Chr x => Ascii.eqb x c
  | AnyChar => negb (Ascii.eqb c (ascii_of_nat 10)) && negb (Ascii.eqb c (ascii_of_nat 13))
  | OneOf cs => Str.contains_char c cs
  | NoneOf cs => negb (Str.contains_char c cs)
  end.

Definition captures := list (nat * string).

(** [match[n].str()]: empty for a group that took no part in the match *)
Fixpoint sub_match (n : nat) (caps : captures) : string :=
  match caps with
  | [] => ""
  | (i, s) :: rest => if (i =? n)%nat then s else sub_match n rest
  end.

Section Run.
Context {X : Type}.

(** [a+] from the current position: the longest run first, then shorter ones. *)
Fixpoint plus_loop (a : char_class) (consumed : nat) (s : string)
  (k : nat -> string -> option X) : option X :=
  match s with
  | String c s' =>
      if class_matches a c then
        match plus_loop a (S consumed) s' k with
        | Some x => Some x
        | None => k (S consumed) s'
        end
      else None
  | EmptyString => None
  end.

(** [consumed] counts the characters between the start of the searched range
    and the current position, [s] is what lies ahead. *)
Fixpoint run (r : regex) (consumed : nat) (s : string) (caps : captures)
  (k : nat -> string -> captures -> option X) : option X :=
  match r with
  | Atom a =>
      match s with
      | String c s' => if class_matches a c then k (S consumed) s' caps else None
      | EmptyString => None
      end
  | Plus a => plus_loop a consumed s (fun n s' => k n s' caps)
  | Seq r1 r2 => run r1 consumed s caps (fun n s' caps' => run r2 n s' caps' k)
  | Opt r' =>
      match run r' consumed s caps k with
      | Some x => Some x
      | None => k consumed s caps
      end
  | Group i r' =>
      run r' consumed s caps
        (fun n s' caps' => k n s' ((i, Str.take (n - consumed) s) :: caps'))
  | Bol => if (consumed =? 0)%nat then k consumed s caps else None
  | Eol => match s with EmptyString => k consumed s caps | String _ _ => None end
  | Eps => k consumed s caps
  end.

End Run.

(** [std::regex_match]: the whole text has to be matched *)
Definition regex_match (r : regex) (s : string) : option captures :=
  run r 0 s [] (fun _ s' caps => match s' with EmptyString => Some caps | _ => None end).

Record match_results := {
  m_position : nat;     (* match.position(), relative to the start of the range *)
  m_length : nat;       (* match.length() *)
  m_captures : captures
}.

(** [std::regex_search] on a range: the leftmost match. [skipped] characters
    of the range lie before [s]. *)
Fixpoint search_at (r : regex) (skipped : nat) (s : string) : option match_results :=
  match run r skipped s [] (fun n _ caps => Some (n, caps)) with
  | Some (stop, caps) =>
      Some {| m_position := skipped; m_length := stop - skipped; m_captures := caps |}
  | None =>
      match s with
      | String _ s' => search_at r (S skipped) s'
      | EmptyString => None
      end
  end.

Definition regex_search (r : regex) (range : string) : option match_results :=
  search_at r 0 range.

(** a literal word *)
Fixpoint word (w : string) : regex :=
  match w with
  | EmptyString => Eps
  | String c w' => Seq (Atom (Chr c)) (word w')
  end.

End Regex.

(** ** The syntax tree ([include/finch/parser/ast/*.hpp]) *)

Module Ast.

Inductive VariableType := Normal | Environment | Cache.

Inductive LoopType := IN_LISTS | IN_ITEMS | IN | RANGE | IN_ZIP_LISTS.

Inductive BinaryOperator :=
| AND | OR | NOT | EQUAL | NOT_EQUAL | LESS | LESS_EQUAL | GREATER | GREATER_EQUAL
| MATCHES | STREQUAL | STRLESS | STRGREATER | VERSION_EQUAL | VERSION_LESS | VERSION_GREATER
| ADD | SUBTRACT | MULTIPLY | DIVIDE | MOD.

Inductive UnaryOperator :=
| U_NOT | U_EXISTS | U_DEFINED | U_IS_DIRECTORY | U_IS_ABSOLUTE | U_COMMAND.

Inductive CPMSourceType := GitHub | GitURL | URL | Local.

Record CPMVersion := {
  version : string;
  exact : bool;      (* @ vs >= syntax *)
  git_tag : string   (* GIT_TAG if specified *)
}.

(** [source_type_] has no initializer: it holds a value once [set_source] ran. *)
Record CPMAddPackageData := {
  add_name : string;
  add_source_type : option CPMSourceType;
  add_source : string;
  add_version : option CPMVersion;
  add_options : gmap string string;
  add_find_package_fallback : bool
}.

Record CPMFindPackageData := {
  find_name : string;
  find_version : option string;
  find_components : list string;
  find_github_repository : option string;
  find_git_tag : option string
}.

Record CPMDeclarePackageData := {
  decl_name : string;
  decl_version : string;
  decl_github_repository : option string;
  decl_git_repository : option string
}.

(** nested induction over the lists of children *)
Scheme All for list.
Scheme All for option.

Section Nodes.
Context {R : Runtime}.

(** the union of [NumberLiteral] with its tag *)
Inductive Number :=
| Integer (int_value : Z)
| Float (float_value : double).

Inductive ASTNode :=
| StringLiteral (value : string) (quoted : bool)
| NumberLiteral (text : string) (number : Number)
| BooleanLiteral (value : bool) (original_text : string)
| VariableRef (name : string) (var_type : VariableType)   (* class Variable *)
| Identifier (name : string)
| CommandCall (name : string) (arguments : list ASTNode)
| FunctionDef (name : string) (parameters : list string) (body : list ASTNode)
| MacroDef (name : string) (parameters : list string) (body : list ASTNode)
| IfStatement (condition : ASTNode)
    (then_branch elseif_branches else_branch : list ASTNode)
| ElseIfStatement (condition : ASTNode)
| ElseStatement
| WhileStatement (condition : ASTNode) (body : list ASTNode)
| ForEachStatement (variables : list string) (loop_type : LoopType)
    (items body : list ASTNode)
| ListExpression (elements : list ASTNode) (separator : ascii)
| GeneratorExpression (expression : string)
| BracketExpression (content : ASTNode) (quoted : bool)
| BinaryOp (left : ASTNode) (op : BinaryOperator) (right : ASTNode)
| UnaryOp (op : UnaryOperator) (operand : ASTNode)
| FunctionCall (name : string) (arguments : list ASTNode)
| Block (statements : list ASTNode)
| File (path : string) (statements : list ASTNode)
| ErrorNode (message : string) (category : ParseErrorCategory)
| CPMAddPackage (package : CPMAddPackageData)
| CPMFindPackage (package : CPMFindPackageData)
| CPMUsePackageLock (lock_file_path : string)
| CPMDeclarePackage (package : CPMDeclarePackageData).

(** [NumberLiteral::as_float] *)
Definition as_float (n : Number) : double :=
  match n with
  | Float d => d
  | Integer z => double_of_int64 z
  end.

(** [node->type() == NodeType::ElseIfStatement], and with it the outcome of
    [dynamic_cast<const ElseIfStatement*>] *)
Definition as_elseif (node : ASTNode) : option ASTNode :=
  match node with
  | ElseIfStatement c => Some c
  | _ => None
  end.

(** [IfStatement::add_elseif]: the condition goes in as it is, followed by the
    statements of the body. *)
Definition add_elseif (cond : ASTNode) (body : list ASTNode) (node : ASTNode) : ASTNode :=
  match node with
  | IfStatement c t ei el => IfStatement c t (ei ++ cond :: body) el
  | other => other
  end.

Definition set_else_branch (else_body : list ASTNode) (node : ASTNode) : ASTNode :=
  match node with
  | IfStatement c t ei _ => IfStatement c t ei else_body
  | other => other
  end.

End Nodes.

End Ast.

(** ** The package-manager sub-parser ([src/parser/cpm_parser.cpp]) *)

Module CPMParser.
Import Regex Ast.

(** [^(?:gh:)?([^/@#]+)/([^/@#]+)(?:[@#](.+))?$] *)
Definition GITHUB_SHORTHAND_REGEX : regex :=
  Seq Bol
 (Seq (Opt (word "gh:"))
 (Seq (Group 1 (Plus (NoneOf "/@#")))
 (Seq (Atom (Chr "/"))
 (Seq (Group 2 (Plus (NoneOf "/@#")))
 (Seq (Opt (Seq (Atom (OneOf "@#")) (Group 3 (Plus AnyChar))))
      Eol))))).

(** [^@(.+)$] *)
Definition VERSION_EXACT_REGEX : regex :=
  Seq Bol (Seq (Atom (Chr "@")) (Seq (Group 1 (Plus AnyChar)) Eol)).

(** [^>=(.+)$] *)
Definition VERSION_MIN_REGEX : regex :=
  Seq Bol (Seq (Atom (Chr ">")) (Seq (Atom (Chr "=")) (Seq (Group 1 (Plus AnyChar)) Eol))).

Section Parser.
Context {R : Runtime}.

(** [CPMParser::get_string_value] (the nodes handed over are never null) *)
Definition get_string_value (node : ASTNode) : Result string ParseError :=
  match node with
  | StringLiteral v _ => Ok v
  | Identifier n => Ok n
  | _ => Err (parse_error "Expected string literal or identifier")
  end.

Definition string_value_is (name : string) (node : ASTNode) : bool :=
  match get_string_value node with
  | Ok s => String.eqb s name
  | Err _ => false
  end.

(** [CPMParser::find_argument], as the index of the node it points to *)
Fixpoint find_argument (args : list ASTNode) (name : string) : option nat :=
  match args with
  | [] => None
  | a :: rest => if string_value_is name a then Some 0%nat else S <$> find_argument rest name
  end.

(** [CPMParser::is_github_shorthand] *)
Definition is_github_shorthand (str : string) : bool :=
  match regex_match GITHUB_SHORTHAND_REGEX str with Some _ => true | None => false end.

(** [CPMParser::parse_github_shorthand] *)
Definition parse_github_shorthand (shorthand : string) : Result (string * string) ParseError :=
  match regex_match GITHUB_SHORTHAND_REGEX shorthand with
  | None => Err (parse_error ("Invalid CPM shorthand syntax: " +:+ shorthand))
  | Some m =>
      let owner := sub_match 1 m in
      let repo := sub_match 2 m in
      let version := sub_match 3 m in
      Ok (owner +:+ "/" +:+ repo, version)
  end.

(** [CPMParser::parse_version_string] *)
Definition parse_version_string (version_str : string) : Result CPMVersion ParseError :=
  match regex_match VERSION_EXACT_REGEX version_str with
  | Some m => Ok {| version := sub_match 1 m; exact := true; git_tag := "" |}
  | None =>
      match regex_match VERSION_MIN_REGEX version_str with
      | Some m => Ok {| version := sub_match 1 m; exact := false; git_tag := "" |}
      | None =>
          Ok {| version := version_str; exact := false;
                git_tag :=
                  if Str.contains_char "/" version_str
                     || Str.contains_char "-" version_str
                     || (String.length version_str =? 40)%nat
                  then version_str else "" |}
      end
  end.

(** [std::make_unique<CPMAddPackage>(loc, name)] *)
Definition new_add_package (name : string) : CPMAddPackageData :=
  {| add_name := name; add_source_type := None; add_source := ""; add_version := None;
     add_options := ∅; add_find_package_fallback := true |}.

Definition set_source (ty : CPMSourceType) (source : string) (p : CPMAddPackageData) :=
  {| add_name := add_name p; add_source_type := Some ty; add_source := source;
     add_version := add_version p; add_options := add_options p;
     add_find_package_fallback := add_find_package_fallback p |}.

Definition set_version (v : CPMVersion) (p : CPMAddPackageData) :=
  {| add_name := add_name p; add_source_type := add_source_type p; add_source := add_source p;
     add_version := Some v; add_options := add_options p;
     add_find_package_fallback := add_find_package_fallback p |}.

Definition add_option (key value : string) (p : CPMAddPackageData) :=
  {| add_name := add_name p; add_source_type := add_source_type p; add_source := add_source p;
     add_version := add_version p; add_options := <[key := value]> (add_options p);
     add_find_package_fallback := add_find_package_fallback p |}.

(** [CPMParser::parse_cpm_add_package_shorthand] *)
Definition parse_cpm_add_package_shorthand (shorthand : string)
  : Result CPMAddPackageData ParseError :=
  match parse_github_shorthand shorthand with
  | Err e => Err e
  | Ok (repo_spec, version_str) =>
      match Str.find_char "/" repo_spec with
      | None => Err (parse_error "Invalid GitHub repository format")
      | Some slash_pos =>
          let repo := Str.drop (slash_pos + 1) repo_spec in
          let package := set_source GitHub repo_spec (new_add_package repo) in
          if negb (String.eqb version_str "") then
            match parse_version_string version_str with
            | Ok v => Ok (set_version v package)
            | Err e => Err e
            end
          else Ok package
      end
  end.

(** [CPMParser::parse_options_block]: "KEY VALUE" or "KEY:TYPE VALUE" in one
    string, or a key followed by its value in the next argument. *)
Fixpoint parse_options_block (package : CPMAddPackageData) (options : list ASTNode)
  : CPMAddPackageData :=
  match options with
  | [] => package
  | o :: rest =>
      match get_string_value o with
      | Err _ => parse_options_block package rest
      | Ok opt_str =>
          match Str.find_char " " opt_str with
          | Some space_pos =>
              let key := Str.take space_pos opt_str in
              let value := Str.drop (space_pos + 1) opt_str in
              let key := match Str.find_char ":" key with
                         | Some colon_pos => Str.take colon_pos key
                         | None => key
                         end in
              parse_options_block (add_option key value package) rest
          | None =>
              match rest with
              | v :: rest' =>
                  match get_string_value v with
                  | Ok val => parse_options_block (add_option opt_str val package) rest'
                  | Err _ => parse_options_block package rest
                  end
              | [] => package
              end
          end
      end
  end.

Definition is_options_stop (node : ASTNode) : bool :=
  match get_string_value node with
  | Ok str => String.eqb str "DOWNLOAD_ONLY" || String.eqb str "EXCLUDE_FROM_ALL"
              || String.eqb str "SYSTEM" || String.eqb str "NO_CACHE"
  | Err _ => false
  end.

(** The loop [for (; i < args.size(); ++i)] of [parse_cpm_add_package_full] over
    the arguments from index [i] on. A keyword that takes a value consumes the
    next argument when that one is a string. OPTIONS gathers arguments up to
    one of the stop words; the loop then resumes at the stop word. *)
Fixpoint add_package_arguments (args : list ASTNode) (package : CPMAddPackageData)
  : CPMAddPackageData :=
  match args with
  | [] => package
  | a :: rest =>
      match get_string_value a with
      | Err _ => add_package_arguments rest package
      | Ok key =>
          let source_key :=
            if String.eqb key "GITHUB_REPOSITORY" then Some GitHub
            else if String.eqb key "GIT_REPOSITORY" then Some GitURL
            else if String.eqb key "URL" then Some URL
            else None in
          match rest with
          | v :: rest' =>
              match source_key with
              | Some ty =>
                  match get_string_value v with
                  | Ok value => add_package_arguments rest' (set_source ty value package)
                  | Err _ => add_package_arguments rest package
                  end
              | None =>
                  if String.eqb key "VERSION" then
                    match get_string_value v with
                    | Ok value =>
                        add_package_arguments rest'
                          match parse_version_string value with
                          | Ok ver => set_version ver package
                          | Err _ => package
                          end
                    | Err _ => add_package_arguments rest package
                    end
                  else if String.eqb key "GIT_TAG" then
                    match get_string_value v with
                    | Ok value =>
                        add_package_arguments rest'
                          (set_version {| version := value; exact := false; git_tag := value |}
                             package)
                    | Err _ => add_package_arguments rest package
                    end
                  else if String.eqb key "OPTIONS" then
                    (fix gather (l option_args : list ASTNode) {struct l} : CPMAddPackageData :=
                       match l with
                       | [] => parse_options_block package option_args
                       | o :: l' =>
                           if is_options_stop o
                           then add_package_arguments l
                                  (parse_options_block package option_args)
                           else gather l' (option_args ++ [o])
                       end) rest []
                  else add_package_arguments rest package
              end
          | [] =>
              if String.eqb key "OPTIONS" then parse_options_block package [] else package
          end
      end
  end.

(** [CPMParser::parse_cpm_add_package_full] *)
Definition parse_cpm_add_package_full (args : list ASTNode)
  : Result CPMAddPackageData ParseError :=
  let start : option (CPMAddPackageData * list ASTNode) :=
    match find_argument args "NAME" with
    | Some j =>
        (* the value after NAME; the scan stops before the last argument *)
        match args !! (j + 1)%nat with
        | Some next =>
            match get_string_value next with
            | Ok name => Some (new_add_package name, args)
            | Err _ => None
            end
        | None => None
        end
    | None =>
        match args with
        | first :: rest =>
            match get_string_value first with
            | Ok name =>
                if negb (String.eqb name "") then Some (new_add_package name, rest) else None
            | Err _ => None
            end
        | [] => None
        end
    end in
  match start with
  | None => Err (parse_error "CPMAddPackage requires NAME")
  | Some (package, remaining) => Ok (add_package_arguments remaining package)
  end.

(** [CPMParser::parse_cpm_add_package] *)
Definition parse_cpm_add_package (args : list ASTNode) : Result CPMAddPackageData ParseError :=
  match args with
  | [] => Err (parse_error "CPMAddPackage requires arguments")
  | [single] =>
      match get_string_value single with
      | Ok str =>
          if is_github_shorthand str then parse_cpm_add_package_shorthand str
          else parse_cpm_add_package_full args
      | Err _ => parse_cpm_add_package_full args
      end
  | _ => parse_cpm_add_package_full args
  end.

(** [CPMParser::parse_cpm_find_package]: the arguments after the name *)
Fixpoint find_package_arguments (args : list ASTNode) (package : CPMFindPackageData)
  : CPMFindPackageData :=
  match args with
  | [] => package
  | a :: rest =>
      match get_string_value a with
      | Err _ => find_package_arguments rest package
      | Ok key =>
          if String.eqb key "COMPONENTS" then
            (fix components (l : list ASTNode) (package : CPMFindPackageData) {struct l}
               : CPMFindPackageData :=
               match l with
               | [] => package
               | o :: l' =>
                   match get_string_value o with
                   | Err _ => find_package_arguments l' package
                   | Ok comp =>
                       if String.eqb comp "REQUIRED" || String.eqb comp "QUIET"
                          || String.eqb comp "OPTIONAL"
                       then find_package_arguments l package
                       else components l'
                              {| find_name := find_name package;
                                 find_version := find_version package;
                                 find_components := find_components package ++ [comp];
                                 find_github_repository := find_github_repository package;
                                 find_git_tag := find_git_tag package |}
                   end
               end) rest package
          else
            match rest with
            | v :: rest' =>
                match get_string_value v with
                | Ok value =>
                    if String.eqb key "VERSION" then
                      find_package_arguments rest'
                        {| find_name := find_name package; find_version := Some value;
                           find_components := find_components package;
                           find_github_repository := find_github_repository package;
                           find_git_tag := find_git_tag package |}
                    else if String.eqb key "GITHUB_REPOSITORY" then
                      find_package_arguments rest'
                        {| find_name := find_name package; find_version := find_version package;
                           find_components := find_components package;
                           find_github_repository := Some value;
                           find_git_tag := find_git_tag package |}
                    else if String.eqb key "GIT_TAG" then
                      find_package_arguments rest'
                        {| find_name := find_name package; find_version := find_version package;
                           find_components := find_components package;
                           find_github_repository := find_github_repository package;
                           find_git_tag := Some value |}
                    else find_package_arguments rest package
                | Err _ => find_package_arguments rest package
                end
            | [] => package
            end
      end
  end.

Definition parse_cpm_find_package (args : list ASTNode) : Result CPMFindPackageData ParseError :=
  match args with
  | [] => Err (parse_error "CPMFindPackage requires arguments")
  | first :: rest =>
      let name_result :=
        match get_string_value first with
        | Ok n => Ok n
        | Err e =>
            match find_argument args "NAME" with
            | Some i =>
                match args !! (i + 1)%nat with
                | Some next => get_string_value next
                | None => Err e
                end
            | None => Err e
            end
        end in
      match name_result with
      | Ok name =>
          if String.eqb name "" then Err (parse_error "CPMFindPackage requires package name")
          else Ok (find_package_arguments rest
                     {| find_name := name; find_version := None; find_components := [];
                        find_github_repository := None; find_git_tag := None |})
      | Err _ => Err (parse_error "CPMFindPackage requires package name")
      end
  end.

(** [CPMParser::parse_cpm_use_package_lock] *)
Definition parse_cpm_use_package_lock (args : list ASTNode) : Result string ParseError :=
  match args with
  | [] => Err (parse_error "CPMUsePackageLock requires a file path")
  | first :: _ =>
      match get_string_value first with
      | Ok path =>
          if String.eqb path "" then Err (parse_error "CPMUsePackageLock requires a valid file path")
          else Ok path
      | Err _ => Err (parse_error "CPMUsePackageLock requires a valid file path")
      end
  end.

Fixpoint declare_package_arguments (args : list ASTNode) (package : CPMDeclarePackageData)
  : CPMDeclarePackageData :=
  match args with
  | [] => package
  | a :: rest =>
      match get_string_value a with
      | Err _ => declare_package_arguments rest package
      | Ok key =>
          match rest with
          | v :: rest' =>
              match get_string_value v with
              | Ok value =>
                  if String.eqb key "VERSION" then
                    declare_package_arguments rest'
                      {| decl_name := decl_name package; decl_version := value;
                         decl_github_repository := decl_github_repository package;
                         decl_git_repository := decl_git_repository package |}
                  else if String.eqb key "GITHUB_REPOSITORY" then
                    declare_package_arguments rest'
                      {| decl_name := decl_name package; decl_version := decl_version package;
                         decl_github_repository := Some value;
                         decl_git_repository := decl_git_repository package |}
                  else if String.eqb key "GIT_REPOSITORY" then
                    declare_package_arguments rest'
                      {| decl_name := decl_name package; decl_version := decl_version package;
                         decl_github_repository := decl_github_repository package;
                         decl_git_repository := Some value |}
                  else declare_package_arguments rest package
              | Err _ => declare_package_arguments rest package
              end
          | [] => package
          end
      end
  end.

(** [CPMParser::parse_cpm_declare_package] *)
Definition parse_cpm_declare_package (args : list ASTNode)
  : Result CPMDeclarePackageData ParseError :=
  match args with
  | [] => Err (parse_error "CPMDeclarePackage requires arguments")
  | _ =>
      let name :=
        match find_argument args "NAME" with
        | Some i =>
            match args !! (i + 1)%nat with
            | Some next => match get_string_value next with Ok n => n | Err _ => "" end
            | None => ""
            end
        | None => ""
        end in
      if String.eqb name "" then Err (parse_error "CPMDeclarePackage requires NAME")
      else Ok (declare_package_arguments args
                 {| decl_name := name; decl_version := ""; decl_github_repository := None;
                    decl_git_repository := None |})
  end.

(** [CPMParser::parse_cpm_command] *)
Definition parse_cpm_command (command_name : string) (args : list ASTNode)
  : Result ASTNode ParseError :=
  if String.eqb command_name "CPMAddPackage" then
    match parse_cpm_add_package args with
    | Ok p => Ok (CPMAddPackage p)
    | Err e => Err e
    end
  else if String.eqb command_name "CPMFindPackage" then
    match parse_cpm_find_package args with
    | Ok p => Ok (CPMFindPackage p)
    | Err e => Err e
    end
  else if String.eqb command_name "CPMUsePackageLock" then
    match parse_cpm_use_package_lock args with
    | Ok p => Ok (CPMUsePackageLock p)
    | Err e => Err e
    end
  else if String.eqb command_name "CPMDeclarePackage" then
    match parse_cpm_declare_package args with
    | Ok p => Ok (CPMDeclarePackage p)
    | Err e => Err e
    end
  else Err {| pe_category := UnknownCommand;
              pe_message := "Unknown CPM command: " +:+ command_name |}.

End Parser.
End CPMParser.

(** ** Values, targets and the evaluation context
    ([include/finch/analyzer/*.hpp], [src/analyzer/evaluation_context.cpp]) *)

Module Analyzer.
Import Ast.

Inductive Confidence := Certain | Likely | Uncertain | Unknown.

(** the enumerators in declaration order, as [operator<] compares them *)
Definition confidence_rank (c : Confidence) : nat :=
  match c with Certain => 0 | Likely => 1 | Uncertain => 2 | Unknown => 3 end.

(** [std::min(a, b)]: [b] when [b < a], else [a] *)
Definition confidence_min (a b : Confidence) : Confidence :=
  if (confidence_rank b <? confidence_rank a)%nat then b else a.

Inductive TargetType :=
| StaticLibrary | SharedLibrary | ExecutableTarget | InterfaceLibrary | CustomTarget
| UnknownTargetType.

Record Target := {
  target_name : string;
  target_type : TargetType;
  source_directory : string;
  sources : list string;
  target_headers : list string;
  include_directories : list string;
  compile_definitions : list string;
  compile_options : list string;
  link_libraries : list string;
  target_properties : gmap string string
}.

(** a default-constructed [Target] *)
Definition empty_target : Target :=
  {| target_name := ""; target_type := UnknownTargetType; source_directory := "";
     sources := []; target_headers := []; include_directories := [];
     compile_definitions := []; compile_options := []; link_libraries := [];
     target_properties := ∅ |}.

Record ProjectAnalysis := {
  project_name : string;
  project_version : string;
  targets : list Target;
  global_variables : gmap string string;
  cache_variables : gmap string string;
  warnings : list string
}.

(** the platform the program was compiled for, which selects a branch of the
    [#ifdef _WIN32 / #elif defined(__APPLE__) / #else] in
    [initialize_builtin_variables] *)
Inductive Host := Windows | Apple | OtherUnix.

Section Context_.
Context {R : Runtime}.

(** [std::variant<std::string, bool, double, std::vector<std::string>>]. The
    code is C++20 ([starts_with], [requires]): a string literal handed over as
    a [Value], as in [initialize_builtin_variables] and in
    [evaluate_option_command], selects the string alternative, the conversion
    of a pointer to [bool] being left out of the choice. The tests of the
    repository read these values back as strings. *)
Inductive Value :=
| VString (s : string)
| VBool (b : bool)
| VDouble (d : double)
| VList (l : list string).

Record EvaluatedValue := { value : Value; confidence : Confidence }.

Definition is_certain (v : EvaluatedValue) : bool :=
  match confidence v with Certain => true | _ => false end.

Definition is_known (v : EvaluatedValue) : bool :=
  match confidence v with Unknown => false | _ => true end.

(** The evaluator works on one context; [parent_] is the scope that a child
    scope was created from. *)
Inductive EvaluationContext := {
  variables_ : gmap string EvaluatedValue;
  cache_variables_ : gmap string EvaluatedValue;
  platform_checks_ : gmap string bool;
  targets_ : list Target;
  parent_ : option EvaluationContext
}.

(** a default-constructed context *)
Definition empty_context : EvaluationContext :=
  {| variables_ := ∅; cache_variables_ := ∅; platform_checks_ := ∅; targets_ := [];
     parent_ := None |}.

Definition set_variable (name : string) (v : Value) (c : Confidence)
  (ctx : EvaluationContext) : EvaluationContext :=
  {| variables_ := <[name := {| value := v; confidence := c |}]> (variables_ ctx);
     cache_variables_ := cache_variables_ ctx;
     platform_checks_ := platform_checks_ ctx;
     targets_ := targets_ ctx;
     parent_ := parent_ ctx |}.

Fixpoint get_variable (ctx : EvaluationContext) (name : string) : option EvaluatedValue :=
  match ctx with
  | Build_EvaluationContext vars _ _ _ parent =>
      match vars !! name with
      | Some v => Some v
      | None =>
          match parent with
          | Some p => get_variable p name
          | None => None
          end
      end
  end.

Definition set_cache_variable (name : string) (v : Value) (c : Confidence)
  (ctx : EvaluationContext) : EvaluationContext :=
  {| variables_ := variables_ ctx;
     cache_variables_ := <[name := {| value := v; confidence := c |}]> (cache_variables_ ctx);
     platform_checks_ := platform_checks_ ctx;
     targets_ := targets_ ctx;
     parent_ := parent_ ctx |}.

(** cache variables do not inherit from the parent scope *)
Definition get_cache_variable (ctx : EvaluationContext) (name : string)
  : option EvaluatedValue :=
  cache_variables_ ctx !! name.

Definition set_platform_check (check : string) (result : bool)
  (ctx : EvaluationContext) : EvaluationContext :=
  {| variables_ := variables_ ctx;
     cache_variables_ := cache_variables_ ctx;
     platform_checks_ := <[check := result]> (platform_checks_ ctx);
     targets_ := targets_ ctx;
     parent_ := parent_ ctx |}.

Fixpoint get_platform_check (ctx : EvaluationContext) (check : string) : option bool :=
  match ctx with
  | Build_EvaluationContext _ _ checks _ parent =>
      match checks !! check with
      | Some b => Some b
      | None =>
          match parent with
          | Some p => get_platform_check p check
          | None => None
          end
      end
  end.

Definition with_targets (ts : list Target) (ctx : EvaluationContext) : EvaluationContext :=
  {| variables_ := variables_ ctx;
     cache_variables_ := cache_variables_ ctx;
     platform_checks_ := platform_checks_ ctx;
     targets_ := ts;
     parent_ := parent_ ctx |}.

Definition add_target (t : Target) (ctx : EvaluationContext) : EvaluationContext :=
  with_targets (targets_ ctx ++ [t]) ctx.

Definition get_targets (ctx : EvaluationContext) : list Target := targets_ ctx.

Definition create_child_scope (ctx : EvaluationContext) : EvaluationContext :=
  {| variables_ := ∅; cache_variables_ := ∅; platform_checks_ := ∅; targets_ := [];
     parent_ := Some ctx |}.

(** [EvaluationContext::initialize_builtin_variables] *)
Definition initialize_builtin_variables (host : Host) (ctx : EvaluationContext)
  : EvaluationContext :=
  let set name v c := set_variable name (VString v) c in
  let ctx := set "CMAKE_SOURCE_DIR" "/source" Uncertain ctx in
  let ctx := set "CMAKE_BINARY_DIR" "/build" Uncertain ctx in
  let ctx := set "CMAKE_CURRENT_SOURCE_DIR" "/source" Uncertain ctx in
  let ctx := set "CMAKE_CURRENT_BINARY_DIR" "/build" Uncertain ctx in
  let ctx :=
    match host with
    | Windows =>
        let ctx := set "WIN32" "1" Certain ctx in
        let ctx := set "WINDOWS" "1" Certain ctx in
        let ctx := set "UNIX" "" Certain ctx in
        let ctx := set "APPLE" "" Certain ctx in
        set "LINUX" "" Certain ctx
    | Apple =>
        let ctx := set "APPLE" "1" Certain ctx in
        let ctx := set "UNIX" "1" Certain ctx in
        let ctx := set "DARWIN" "1" Certain ctx in
        let ctx := set "WIN32" "" Certain ctx in
        let ctx := set "WINDOWS" "" Certain ctx in
        set "LINUX" "" Certain ctx
    | OtherUnix =>
        let ctx := set "UNIX" "1" Certain ctx in
        let ctx := set "LINUX" "1" Certain ctx in
        let ctx := set "WIN32" "" Certain ctx in
        let ctx := set "WINDOWS" "" Certain ctx in
        set "APPLE" "" Certain ctx
    end in
  let ctx := set "CMAKE_CXX_COMPILER_ID" "Generic" Uncertain ctx in
  let ctx := set "CMAKE_CXX_STANDARD" "17" Likely ctx in
  let ctx := set "CMAKE_C_COMPILER_ID" "Generic" Uncertain ctx in
  let ctx := set "CMAKE_C_STANDARD" "11" Likely ctx in
  let ctx := set "CMAKE_BUILD_TYPE" "Release" Uncertain ctx in
  let ctx := set "TRUE" "1" Certain ctx in
  let ctx := set "FALSE" "" Certain ctx in
  let ctx := set "ON" "ON" Certain ctx in
  let ctx := set "OFF" "OFF" Certain ctx in
  let ctx := set "YES" "1" Certain ctx in
  set "NO" "" Certain ctx.

(** every variable that [get_variable] can see, nearest scope first; its
    domain is what [list_variables] returns *)
Fixpoint visible_variables (ctx : EvaluationContext) : gmap string EvaluatedValue :=
  match ctx with
  | Build_EvaluationContext vars _ _ _ parent =>
      match parent with
      | Some p => vars ∪ visible_variables p
      | None => vars
      end
  end.

(** *** [value_helpers] *)

Fixpoint join_semicolons (l : list string) : string :=
  match l with
  | [] => ""
  | [x] => x
  | x :: rest => x +:+ ";" +:+ join_semicolons rest
  end.

Definition to_string (v : Value) : string :=
  match v with
  | VString s => s
  | VBool b => if b then "TRUE" else "FALSE"
  | VDouble d => double_to_string d
  | VList l => join_semicolons l
  end.

Definition is_truthy (v : Value) : bool :=
  match v with
  | VString s =>
      negb (String.eqb s "") && negb (String.eqb s "0") && negb (String.eqb s "OFF")
      && negb (String.eqb s "NO") && negb (String.eqb s "FALSE") && negb (String.eqb s "N")
      && negb (String.eqb s "IGNORE") && negb (String.eqb s "NOTFOUND")
      && negb (Str.ends_with "-NOTFOUND" s)
  | VBool b => b
  | VDouble d => negb (double_eqb d (double_of_int64 0))
  | VList l => negb (RuleTemplates.is_empty l)
  end.

End Context_.
End Analyzer.

(** ** The evaluator ([src/analyzer/cmake_evaluator.cpp]) *)

Module Evaluator.
Import Regex Ast Analyzer.

(** Ways in which a call into the evaluator does not return to its caller. *)
Inductive Abnormal :=
| BadVariantAccess     (* std::get on another alternative: std::bad_variant_access *)
| OutOfRange           (* std::string::replace beyond the end: std::out_of_range *)
| UndefinedBehaviour   (* an iterator past the end, an index out of range, a dangling reference *)
| NeverReturns.        (* a loop that makes no progress *)

Section Eval.
Context {R : Runtime}.

Inductive Outcome (A : Type) :=
| Returns (a : A) (ctx : EvaluationContext)
| Stops (why : Abnormal).
Arguments Returns {A} a ctx.
Arguments Stops {A} why.

(** A computation on the context [context_] that the evaluator holds by
    reference. *)
Definition M (A : Type) : Type := EvaluationContext -> Outcome A.

Definition ret {A} (a : A) : M A := fun ctx => Returns a ctx.

Definition bind {A B} (m : M A) (f : A -> M B) : M B :=
  fun ctx =>
    match m ctx with
    | Returns a ctx' => f a ctx'
    | Stops why => Stops why
    end.

Definition stop {A} (why : Abnormal) : M A := fun _ => Stops why.

Definition context : M EvaluationContext := fun ctx => Returns ctx ctx.

Definition update (f : EvaluationContext -> EvaluationContext) : M unit :=
  fun ctx => Returns tt (f ctx).

Notation "'let*' x := m 'in' k" := (bind m (fun x => k))
  (at level 10, x name, m at level 100, k at level 200).
Notation "m >> k" := (bind m (fun _ => k))
  (at level 65, right associativity).

Definition EvalResult : Type := Result EvaluatedValue AnalysisError.

Definition evaluated (v : Value) (c : Confidence) : EvalResult :=
  Ok {| value := v; confidence := c |}.

(** the call of [evaluate] on a child of the node being visited *)
Definition Thunk : Type := M EvalResult.

(** the call of [evaluate] on [args[i]]; indexing a vector out of range is undefined *)
Definition evaluate_at (args : list Thunk) (i : nat) : Thunk :=
  match args !! i with
  | Some t => t
  | None => stop UndefinedBehaviour
  end.

(** *** String interpolation *)

(** [\$\{([^}]+)\}] *)
Definition var_pattern : regex :=
  Seq (Atom (Chr "$")) (Seq (Atom (Chr "{")) (Seq (Group 1 (Plus (NoneOf "}"))) (Atom (Chr "}")))).

(** [CMakeEvaluator::expand_variable_reference] *)
Definition expand_variable_reference (ctx : EvaluationContext) (var_name : string)
  : Result string AnalysisError :=
  if Str.starts_with "ENV{" var_name && Str.ends_with "}" var_name then
    Ok ("${" +:+ var_name +:+ "}")
  else
    match get_variable ctx var_name with
    | Some v => Ok (to_string (value v))
    | None =>
        match get_cache_variable ctx var_name with
        | Some v => Ok (to_string (value v))
        | None => Err (analysis_error ("Unknown variable: " +:+ var_name))
        end
    end.

Inductive LoopStep :=
| Continue (result : string) (search_start : nat)
| Break (result : string)
| Abort (why : Abnormal).

(** One round of the [while (std::regex_search(search_start, str.cend(), ...))]
    loop of [interpolate_string]. [search_start] is an offset into [str];
    the replacement is made in [result] at the offset of the match in [str]. *)
Definition interpolate_step (ctx : EvaluationContext) (str result : string)
  (search_start : nat) : LoopStep :=
  match regex_search var_pattern (Str.drop search_start str) with
  | None => Break result
  | Some m =>
      let var_name := sub_match 1 (m_captures m) in
      match expand_variable_reference ctx var_name with
      | Ok expanded =>
          let pos := (m_position m + search_start)%nat in
          if (String.length result <? pos)%nat then Abort OutOfRange
          else
            let result := Str.replace pos (m_length m) expanded result in
            let next := (pos + String.length expanded)%nat in
            if (String.length str <? next)%nat then Abort UndefinedBehaviour
            else Continue result next
      | Err _ =>
          (* match.suffix().first *)
          Continue result (search_start + m_position m + m_length m)%nat
      end
  end.

(** What a call of [interpolate_string] comes to. *)
Inductive Interpolation :=
| Interpolated (r : Result string AnalysisError)
| Interrupted (why : Abnormal).

(** The loop. A round that leaves [search_start] where it was finds the same
    match and the same expansion again, for ever. Every other round moves
    [search_start] forward inside [str], so [S (length str)] rounds are
    never used up. *)
Fixpoint interpolate_loop (rounds : nat) (ctx : EvaluationContext) (str result : string)
  (search_start : nat) : Interpolation :=
  match rounds with
  | O => Interrupted NeverReturns
  | S rounds' =>
      match interpolate_step ctx str result search_start with
      | Break result => Interpolated (Ok result)
      | Abort why => Interrupted why
      | Continue result next =>
          if (next <=? search_start)%nat then Interrupted NeverReturns
          else interpolate_loop rounds' ctx str result next
      end
  end.

(** [CMakeEvaluator::interpolate_string] *)
Definition interpolate_string (ctx : EvaluationContext) (str : string) : Interpolation :=
  interpolate_loop (S (String.length str)) ctx str str 0.

(** *** Leaves of the tree *)

Definition visit_StringLiteral (node_value : string) : Thunk :=
  fun ctx =>
    match interpolate_string ctx node_value with
    | Interpolated (Ok interpolated) => Returns (evaluated (VString interpolated) Certain) ctx
    | Interpolated (Err _) => Returns (evaluated (VString node_value) Uncertain) ctx
    | Interrupted why => Stops why
    end.

Definition visit_NumberLiteral (number : Number) : Thunk :=
  ret (evaluated (VDouble (as_float number)) Certain).

Definition visit_BooleanLiteral (node_value : bool) : Thunk :=
  ret (evaluated (VBool node_value) Certain).

Definition visit_Variable (var_name : string) : Thunk :=
  let* ctx := context in
  match get_variable ctx var_name with
  | Some v => ret (Ok v)
  | None => ret (evaluated (VString ("${" +:+ var_name +:+ "}")) Unknown)
  end.

Definition visit_Identifier (name : string) : Thunk :=
  ret (evaluated (VString name) Certain).

Definition nothing (c : Confidence) : Thunk := ret (evaluated (VString "") c).

(** *** Commands *)

(** the loop shared by the list form of [set] and by [ListExpression] *)
Fixpoint list_values_loop (items : list Thunk) (list_values : list string)
  (min_confidence : Confidence) : M (list string * Confidence) :=
  match items with
  | [] => ret (list_values, min_confidence)
  | item :: rest =>
      let* value_result := item in
      match value_result with
      | Err _ => ret (list_values, Unknown)
      | Ok v =>
          list_values_loop rest (list_values ++ [to_string (value v)])
            (confidence_min min_confidence (confidence v))
      end
  end.

(** [CMakeEvaluator::evaluate_set_command] *)
Definition evaluate_set_command (args : list Thunk) : Thunk :=
  if (length args <? 2)%nat then
    ret (Err (analysis_error "set() requires at least 2 arguments"))
  else
    let* name_result := evaluate_at args 0 in
    match name_result with
    | Err _ => ret (Err (analysis_error "Cannot determine variable name"))
    | Ok name_value =>
        if negb (is_certain name_value) then
          ret (Err (analysis_error "Cannot determine variable name"))
        else
          match value name_value with
          | VString var_name =>
              if (length args =? 2)%nat then
                let* value_result := evaluate_at args 1 in
                match value_result with
                | Ok v => update (set_variable var_name (value v) (confidence v))
                | Err _ => ret tt
                end >>
                nothing Certain
              else
                let* r := list_values_loop (drop 1 args) [] Certain in
                update (set_variable var_name (VList (fst r)) (snd r)) >>
                nothing Certain
          | _ => stop BadVariantAccess
          end
    end.

(** the search for the VERSION keyword among [args[0 .. size-2]]: the index
    after the keyword, [0] when there is none *)
Fixpoint find_version_keyword (items : list Thunk) (i : nat) : M nat :=
  match items with
  | [] => ret 0%nat
  | item :: rest =>
      let* keyword_result := item in
      match keyword_result with
      | Ok v =>
          if String.eqb (to_string (value v)) "VERSION" then ret (i + 1)%nat
          else find_version_keyword rest (i + 1)
      | Err _ => find_version_keyword rest (i + 1)
      end
  end.

(** [CMakeEvaluator::evaluate_cmake_minimum_required] *)
Definition evaluate_cmake_minimum_required (args : list Thunk) : Thunk :=
  if (length args <? 2)%nat then
    ret (Err (analysis_error "cmake_minimum_required() requires VERSION argument"))
  else
    let* version_idx := find_version_keyword (take (length args - 1) args) 0 in
    (if (0 <? version_idx)%nat && (version_idx <? length args)%nat then
       let* version_result := evaluate_at args version_idx in
       match version_result with
       | Ok v =>
           update (set_variable "CMAKE_MINIMUM_REQUIRED_VERSION"
                     (VString (to_string (value v))) Certain)
       | Err _ => ret tt
       end
     else ret tt) >>
    nothing Certain.

(** the test [value_str == "ON" || value_str == "TRUE" || value_str == "YES" ||
    value_str == "1"] of [evaluate_option_command] *)
Definition is_on_word (value_str : string) : bool :=
  String.eqb value_str "ON" || String.eqb value_str "TRUE"
  || String.eqb value_str "YES" || String.eqb value_str "1".

(** [CMakeEvaluator::evaluate_option_command] *)
Definition evaluate_option_command (args : list Thunk) : Thunk :=
  if (length args <? 2)%nat then
    ret (Err (analysis_error "option() requires at least 2 arguments"))
  else
    let* name_result := evaluate_at args 0 in
    match name_result with
    | Err e => ret (Err e)
    | Ok name_value =>
        let option_name := to_string (value name_value) in
        let* default_value :=
          (if (3 <=? length args)%nat then
             let* value_result := evaluate_at args (length args - 1) in
             match value_result with
             | Ok v =>
                 ret (is_on_word (to_string (value v)))
             | Err _ => ret false
             end
           else ret false) in
        update (set_cache_variable option_name
                  (VString (if default_value : bool then "ON" else "OFF")) Uncertain) >>
        nothing Certain
    end.

(** [CMakeEvaluator::evaluate_if_command] *)
Definition evaluate_if_command (args : list Thunk) : Thunk := nothing Certain.

(** [CMakeEvaluator::evaluate_project_command] *)
Definition evaluate_project_command (args : list Thunk) : Thunk :=
  (if negb (RuleTemplates.is_empty args) then
     let* name_result := evaluate_at args 0 in
     match name_result with
     | Ok v =>
         let project_name := to_string (value v) in
         update (set_variable "PROJECT_NAME" (VString project_name) Certain) >>
         update (set_variable "CMAKE_PROJECT_NAME" (VString project_name) Certain)
     | Err _ => ret tt
     end
   else ret tt) >>
  nothing Certain.

(** [CMakeEvaluator::evaluate_message_command] *)
Definition evaluate_message_command (args : list Thunk) : Thunk := nothing Certain.

(** [for (i = start; i < args.size(); ++i)] pushing every source that evaluates *)
Fixpoint sources_loop (items : list Thunk) (acc : list string) : M (list string) :=
  match items with
  | [] => ret acc
  | item :: rest =>
      let* source_result := item in
      match source_result with
      | Ok v => sources_loop rest (acc ++ [to_string (value v)])
      | Err _ => sources_loop rest acc
      end
  end.

Definition new_target (name : string) (ty : TargetType) (srcs : list string) : Target :=
  {| target_name := name; target_type := ty; source_directory := current_path;
     sources := srcs; target_headers := []; include_directories := [];
     compile_definitions := []; compile_options := []; link_libraries := [];
     target_properties := ∅ |}.

(** [CMakeEvaluator::evaluate_add_library_command] *)
Definition evaluate_add_library_command (args : list Thunk) : Thunk :=
  if RuleTemplates.is_empty args then
    ret (Err (analysis_error "add_library() requires target name"))
  else
    let* name_result := evaluate_at args 0 in
    match name_result with
    | Err e => ret (Err e)
    | Ok name_value =>
        let target_name := to_string (value name_value) in
        let* kind :=
          (if (1 <? length args)%nat then
             let* type_result := evaluate_at args 1 in
             match type_result with
             | Ok v =>
                 let type_str := to_string (value v) in
                 if String.eqb type_str "SHARED" then ret (SharedLibrary, 2%nat)
                 else if String.eqb type_str "STATIC" then ret (StaticLibrary, 2%nat)
                 else if String.eqb type_str "INTERFACE" then ret (InterfaceLibrary, 2%nat)
                 else ret (StaticLibrary, 1%nat)
             | Err _ => ret (StaticLibrary, 1%nat)
             end
           else ret (StaticLibrary, 1%nat)) in
        let* srcs := sources_loop (drop (snd kind) args) [] in
        update (add_target (new_target target_name (fst kind) srcs)) >>
        nothing Certain
    end.

(** [CMakeEvaluator::evaluate_add_executable_command] *)
Definition evaluate_add_executable_command (args : list Thunk) : Thunk :=
  if RuleTemplates.is_empty args then
    ret (Err (analysis_error "add_executable() requires target name"))
  else
    let* name_result := evaluate_at args 0 in
    match name_result with
    | Err e => ret (Err e)
    | Ok name_value =>
        let target_name := to_string (value name_value) in
        let* srcs := sources_loop (drop 1 args) [] in
        update (add_target (new_target target_name ExecutableTarget srcs)) >>
        nothing Certain
    end.

(** the position of the first target called [name] *)
Fixpoint find_target (name : string) (ts : list Target) : option nat :=
  match ts with
  | [] => None
  | t :: rest =>
      if String.eqb (target_name t) name then Some 0%nat else S <$> find_target name rest
  end.

Definition is_visibility_keyword (s : string) : bool :=
  String.eqb s "PUBLIC" || String.eqb s "PRIVATE" || String.eqb s "INTERFACE".

Definition push_include_directory (s : string) (t : Target) : Target :=
  {| target_name := target_name t; target_type := target_type t;
     source_directory := source_directory t; sources := sources t;
     target_headers := target_headers t;
     include_directories := include_directories t ++ [s];
     compile_definitions := compile_definitions t; compile_options := compile_options t;
     link_libraries := link_libraries t; target_properties := target_properties t |}.

Definition push_link_library (s : string) (t : Target) : Target :=
  {| target_name := target_name t; target_type := target_type t;
     source_directory := source_directory t; sources := sources t;
     target_headers := target_headers t;
     include_directories := include_directories t;
     compile_definitions := compile_definitions t; compile_options := compile_options t;
     link_libraries := link_libraries t ++ [s]; target_properties := target_properties t |}.

Definition push_compile_definition (s : string) (t : Target) : Target :=
  {| target_name := target_name t; target_type := target_type t;
     source_directory := source_directory t; sources := sources t;
     target_headers := target_headers t;
     include_directories := include_directories t;
     compile_definitions := compile_definitions t ++ [s]; compile_options := compile_options t;
     link_libraries := link_libraries t; target_properties := target_properties t |}.

(** The loop over [args[1 ..]] inside [for (auto& target : targets)], with
    [target] the element at position [k]. Should the evaluation of an
    argument grow the vector, the reference [target] may dangle. *)
Fixpoint push_values_loop (k : nat) (push : string -> Target -> Target)
  (items : list Thunk) : M unit :=
  match items with
  | [] => ret tt
  | item :: rest =>
      let* before := context in
      let* item_result := item in
      let* after := context in
      if negb (length (targets_ before) =? length (targets_ after))%nat then
        stop UndefinedBehaviour
      else
        match item_result with
        | Ok v =>
            let s := to_string (value v) in
            if negb (is_visibility_keyword s)
            then update (fun ctx => with_targets (alter (push s) k (targets_ ctx)) ctx)
            else ret tt
        | Err _ => ret tt
        end >>
        push_values_loop k push rest
  end.

(** the common shape of the three property setters *)
Definition evaluate_target_property_command (requires : string)
  (push : string -> Target -> Target) (args : list Thunk) : Thunk :=
  if (length args <? 2)%nat then ret (Err (analysis_error requires))
  else
    let* name_result := evaluate_at args 0 in
    match name_result with
    | Err e => ret (Err e)
    | Ok name_value =>
        let target_name := to_string (value name_value) in
        let* ctx := context in
        match find_target target_name (get_targets ctx) with
        | Some k => push_values_loop k push (drop 1 args)
        | None => ret tt
        end >>
        nothing Certain
    end.

(** [CMakeEvaluator::evaluate_target_include_directories_command] *)
Definition evaluate_target_include_directories_command : list Thunk -> Thunk :=
  evaluate_target_property_command
    "target_include_directories() requires target and directories" push_include_directory.

(** [CMakeEvaluator::evaluate_target_link_libraries_command] *)
Definition evaluate_target_link_libraries_command : list Thunk -> Thunk :=
  evaluate_target_property_command
    "target_link_libraries() requires target and libraries" push_link_library.

(** [CMakeEvaluator::evaluate_target_compile_definitions_command] *)
Definition evaluate_target_compile_definitions_command : list Thunk -> Thunk :=
  evaluate_target_property_command
    "target_compile_definitions() requires target and definitions" push_compile_definition.

(** [CMakeEvaluator::visit(const ast::CommandCall&)] *)
Definition visit_CommandCall (name : string) (args : list Thunk) : Thunk :=
  if String.eqb name "set" then evaluate_set_command args
  else if String.eqb name "if" then evaluate_if_command args
  else if String.eqb name "cmake_minimum_required" then evaluate_cmake_minimum_required args
  else if String.eqb name "option" then evaluate_option_command args
  else if String.eqb name "project" then evaluate_project_command args
  else if String.eqb name "message" then evaluate_message_command args
  else if String.eqb name "add_library" then evaluate_add_library_command args
  else if String.eqb name "add_executable" then evaluate_add_executable_command args
  else if String.eqb name "target_include_directories"
       then evaluate_target_include_directories_command args
  else if String.eqb name "target_link_libraries"
       then evaluate_target_link_libraries_command args
  else if String.eqb name "target_compile_definitions"
       then evaluate_target_compile_definitions_command args
  else nothing Unknown.

(** *** Control flow *)

(** [CMakeEvaluator::evaluate_condition] *)
Definition evaluate_condition (condition : Thunk) : M (Result bool AnalysisError) :=
  let* result := condition in
  match result with
  | Err e => ret (Err e)
  | Ok v => ret (Ok (is_truthy (value v)))
  end.

(** the loop [for (const auto& stmt : stmts)] that evaluates every statement *)
Fixpoint evaluate_all (stmts : list Thunk) : M unit :=
  match stmts with
  | [] => ret tt
  | stmt :: rest => stmt >> evaluate_all rest
  end.

(** An element of [elseif_branches()]: the evaluation of its condition if it
    is an [ElseIfStatement], and its own evaluation. *)
Definition Branch : Type := option Thunk * Thunk.

(** [while (i < size && elseif_branches()[i]->type() != ElseIfStatement)
       { evaluate that element; i++; }] *)
Fixpoint evaluate_elseif_body (branches : list Branch) : M unit :=
  match branches with
  | (None, stmt) :: rest => stmt >> evaluate_elseif_body rest
  | _ => ret tt
  end.

(** The loop over [elseif_branches()] from index [i] on; its result is the
    flag [evaluated]. An element that is no [ElseIfStatement] is stepped
    over, whether the inner skipping loop or the outer [else] meets it. *)
Fixpoint elseif_loop (branches : list Branch) : M bool :=
  match branches with
  | [] => ret false
  | (Some condition, _) :: rest =>
      let* elseif_cond := evaluate_condition condition in
      match elseif_cond with
      | Ok true => evaluate_elseif_body rest >> ret true
      | _ => elseif_loop rest
      end
  | (None, _) :: rest => elseif_loop rest
  end.

(** [CMakeEvaluator::visit(const ast::IfStatement&)] *)
Definition visit_IfStatement (condition : Thunk) (then_branch : list Thunk)
  (elseif_branches : list Branch) (else_branch : list Thunk) : Thunk :=
  let* cond_result := evaluate_condition condition in
  match cond_result with
  | Ok true => evaluate_all then_branch
  | Ok false =>
      let* was_evaluated := elseif_loop elseif_branches in
      if negb was_evaluated && negb (RuleTemplates.is_empty else_branch)
      then evaluate_all else_branch
      else ret tt
  | Err _ => ret tt
  end >>
  nothing Certain.

(** [CMakeEvaluator::visit(const ast::ListExpression&)] *)
Definition visit_ListExpression (elements : list Thunk) : Thunk :=
  let* r := list_values_loop elements [] Certain in
  ret (evaluated (VList (fst r)) (snd r)).

(** [visit(const ast::Block&)] and [visit(const ast::File&)] *)
Definition visit_statements (stmts : list Thunk) : Thunk :=
  evaluate_all stmts >> nothing Certain.

(** [CMakeEvaluator::evaluate]: [accept] dispatches on the dynamic type and
    every [visit] assigns [result_], which [evaluate] returns. *)
Fixpoint evaluate (node : ASTNode) : Thunk :=
  match node with
  | StringLiteral node_value _ => visit_StringLiteral node_value
  | NumberLiteral _ number => visit_NumberLiteral number
  | BooleanLiteral node_value _ => visit_BooleanLiteral node_value
  | VariableRef name _ => visit_Variable name
  | Identifier name => visit_Identifier name
  | CommandCall name arguments => visit_CommandCall name (List.map evaluate arguments)
  | FunctionDef _ _ _ => nothing Unknown
  | MacroDef _ _ _ => nothing Unknown
  | IfStatement condition then_branch elseif_branches else_branch =>
      visit_IfStatement (evaluate condition) (List.map evaluate then_branch)
        (List.map
           (fun branch =>
              (match branch with
               | ElseIfStatement c => Some (evaluate c)
               | _ => None
               end, evaluate branch))
           elseif_branches)
        (List.map evaluate else_branch)
  | ElseIfStatement _ => nothing Unknown
  | ElseStatement => nothing Unknown
  | WhileStatement _ _ => nothing Unknown
  | ForEachStatement _ _ _ _ => nothing Unknown
  | ListExpression elements _ => visit_ListExpression (List.map evaluate elements)
  | GeneratorExpression expression =>
      ret (evaluated (VString ("${" +:+ expression +:+ "}")) Unknown)
  | BracketExpression content _ => evaluate content
  | BinaryOp _ _ _ => nothing Unknown
  | UnaryOp _ _ => nothing Unknown
  | FunctionCall _ _ => nothing Unknown
  | Block statements => visit_statements (List.map evaluate statements)
  | File _ statements => visit_statements (List.map evaluate statements)
  | ErrorNode message _ => ret (Err (analysis_error message))
  | CPMAddPackage _ => nothing Unknown
  | CPMFindPackage _ => nothing Unknown
  | CPMUsePackageLock _ => nothing Unknown
  | CPMDeclarePackage _ => nothing Unknown
  end.

(** No [CommandCall] lies among the nodes that [evaluate] visits from [node].
    Conditions and arguments are such nodes when they come from the parser. *)
Fixpoint command_free (node : ASTNode) : bool :=
  match node with
  | CommandCall _ _ => false
  | IfStatement condition then_branch elseif_branches else_branch =>
      command_free condition && forallb command_free then_branch
      && forallb command_free elseif_branches && forallb command_free else_branch
  | ElseIfStatement condition => command_free condition
  | ListExpression elements _ => forallb command_free elements
  | BracketExpression content_ _ => command_free content_
  | Block statements => forallb command_free statements
  | File _ statements => forallb command_free statements
  | _ => true
  end.

(** what [evaluate] makes of an element of [elseif_branches()] *)
Definition branch_of (branch : ASTNode) : Branch :=
  (match branch with
   | ElseIfStatement c => Some (evaluate c)
   | _ => None
   end, evaluate branch).

(** the condition of an element of [elseif_branches()], if it has one,
    contains no command *)
Definition elseif_condition_free (branch : ASTNode) : bool :=
  match as_elseif branch with
  | Some c => command_free c
  | None => true
  end.

(** the elements up to the next [ElseIfStatement]: the body that the inner
    [while] loops of [visit(IfStatement)] run through *)
Fixpoint body_of (branches : list ASTNode) : list ASTNode :=
  match branches with
  | [] => []
  | branch :: rest =>
      match as_elseif branch with
      | Some _ => []
      | None => branch :: body_of rest
      end
  end.

(** the condition of an [elseif] was evaluated, left the context alone and
    did not come out true; an element that is no [ElseIfStatement] is passed
    over *)
Definition declined (ctx : EvaluationContext) (branch : ASTNode) : Prop :=
  match as_elseif branch with
  | Some c =>
      exists r, evaluate_condition (evaluate c) ctx = Returns r ctx /\ r <> Ok true
  | None => True
  end.

(** The ways through the loop over [elseif_branches()], started in [ctx],
    that lead to [outcome]: the body after the first [elseif] whose condition
    is true is evaluated; or every condition is declined; or a condition does
    not return. *)
Inductive elseif_outcome (ctx : EvaluationContext) : list ASTNode -> Outcome bool -> Prop :=
| elseif_taken pre cnd rest :
    Forall (declined ctx) pre ->
    evaluate_condition (evaluate cnd) ctx = Returns (Ok true) ctx ->
    elseif_outcome ctx (pre ++ ElseIfStatement cnd :: rest)
      ((evaluate_all (List.map evaluate (body_of rest)) >> ret true) ctx)
| elseif_none branches :
    Forall (declined ctx) branches ->
    elseif_outcome ctx branches (Returns false ctx)
| elseif_stops pre cnd rest why :
    Forall (declined ctx) pre ->
    evaluate_condition (evaluate cnd) ctx = Stops why ->
    elseif_outcome ctx (pre ++ ElseIfStatement cnd :: rest) (Stops why).

(** [m] hands the context back as it found it, if it returns *)
Definition preserves_context {A} (m : M A) : Prop :=
  forall ctx, match m ctx with Returns _ ctx' => ctx' = ctx | Stops _ => True end.

(** [CMakeEvaluator::evaluate_platform_check]; no [visit] calls it *)
Definition evaluate_platform_check (platform : string) : M (Result bool AnalysisError) :=
  let* ctx := context in
  match get_platform_check ctx platform with
  | Some cached => ret (Ok cached)
  | None =>
      let platform_vars :=
        ["WIN32"; "WINDOWS"; "UNIX"; "LINUX"; "APPLE"; "DARWIN"; "MSVC"; "MINGW"; "CYGWIN"] in
      let unknown := Err (analysis_error ("Cannot evaluate platform: " +:+ platform)) in
      if existsb (String.eqb platform) platform_vars then
        match get_variable ctx platform with
        | Some var =>
            if is_certain var then
              let result := is_truthy (value var) in
              update (set_platform_check platform result) >> ret (Ok result)
            else ret unknown
        | None => ret unknown
        end
      else ret unknown
  end.

(** *** [CMakeFileEvaluator] *)

(** the constructor *)
Definition new_file_evaluator (host : Host) : EvaluationContext :=
  initialize_builtin_variables host empty_context.

(** [CMakeFileEvaluator::evaluate_file] *)
Definition evaluate_file (file : ASTNode) : M (Result unit AnalysisError) :=
  let* result := evaluate file in
  match result with
  | Err e => ret (Err e)
  | Ok _ => ret (Ok tt)
  end.

(** [CMakeFileEvaluator::analyze] *)
Definition analyze (file : ASTNode) : M (Result ProjectAnalysis AnalysisError) :=
  let* eval_result := evaluate_file file in
  match eval_result with
  | Err e => ret (Err e)
  | Ok _ =>
      let* ctx := context in
      ret (Ok {|
        project_name :=
          match get_variable ctx "PROJECT_NAME" with
          | Some v => to_string (value v)
          | None => ""
          end;
        project_version :=
          match get_variable ctx "PROJECT_VERSION" with
          | Some v => to_string (value v)
          | None => ""
          end;
        targets := get_targets ctx;
        global_variables := (fun v => to_string (value v)) <$> visible_variables ctx;
        cache_variables := (fun v => to_string (value v)) <$> cache_variables_ ctx;
        warnings := [] |})
  end.

End Eval.

Arguments Returns {R A} a ctx.
Arguments Stops {R A} why.

End Evaluator.

(** ** <cstdlib>: how far [strtol(s, &end, 0)] and [strtod(s, &end)] read *)

Module CStdlib.

Fixpoint skip_spaces (s : string) : string :=
  match s with
  | String c rest => if CType.isspace c then skip_spaces rest else s
  | EmptyString => s
  end.

Definition skip_sign (s : string) : bool * string :=
  match s with
  | String c rest =>
      if Ascii.eqb c "-" then (true, rest)
      else if Ascii.eqb c "+" then (false, rest)
      else (false, s)
  | EmptyString => (false, s)
  end.

(** the value of a digit in a base, if it is one *)
Definition digit_value (base : nat) (c : ascii) : option nat :=
  let n := nat_of_ascii c in
  let v :=
    if CType.isdigit c then Some (n - 48)%nat
    else if CType.islower c then Some (n - 97 + 10)%nat
    else if CType.isupper c then Some (n - 65 + 10)%nat
    else None in
  match v with
  | Some d => if (d <? base)%nat then Some d else None
  | None => None
  end.

(** the digits at the head of [s]: their number and their value *)
Fixpoint digits (base : nat) (s : string) (count : nat) (acc : Z) : nat * Z * string :=
  match s with
  | String c rest =>
      match digit_value base c with
      | Some d => digits base rest (S count) (acc * Z.of_nat base + Z.of_nat d)%Z
      | None => (count, acc, s)
      end
  | EmptyString => (count, acc, s)
  end.

Definition LONG_MAX : Z := 9223372036854775807.
Definition LONG_MIN : Z := -9223372036854775808.

Definition is_x (c : ascii) : bool := Ascii.eqb c "x" || Ascii.eqb c "X".

(** [strtol(s, &end, 0)]: the value and the number of characters before [end].
    Without a digit nothing is converted and [end] is [s]. *)
Definition strtol0 (s : string) : Z * nat :=
  let body := skip_spaces s in
  let '(negative, after_sign) := skip_sign body in
  let '(base, number) :=
    match after_sign with
    | String c0 (String c1 ((String c2 _) as hex)) =>
        if Ascii.eqb c0 "0" && is_x c1 && bool_decide (is_Some (digit_value 16 c2))
        then (16%nat, hex)
        else if Ascii.eqb c0 "0" then (8%nat, after_sign) else (10%nat, after_sign)
    | String c0 _ => if Ascii.eqb c0 "0" then (8%nat, after_sign) else (10%nat, after_sign)
    | EmptyString => (10%nat, after_sign)
    end in
  let '(count, magnitude, rest) := digits base number 0 0%Z in
  if (count =? 0)%nat then (0%Z, 0%nat)
  else
    let v := if negative : bool then (- magnitude)%Z else magnitude in
    (Z.max LONG_MIN (Z.min LONG_MAX v), (String.length s - String.length rest)%nat).

Definition lower (c : ascii) : ascii :=
  if CType.isupper c then ascii_of_nat (nat_of_ascii c + 32) else c.

(** [p] heads [s], letters compared without case; what follows it *)
Fixpoint strip_prefix_nocase (p s : string) : option string :=
  match p, s with
  | EmptyString, _ => Some s
  | String a p', String b s' =>
      if Ascii.eqb a (lower b) then strip_prefix_nocase p' s' else None
  | String _ _, EmptyString => None
  end.

(** the optional exponent [e[+-]digits] or [p[+-]digits]: what follows it *)
Definition skip_exponent (marker : ascii) (s : string) : string :=
  match s with
  | String c rest =>
      if Ascii.eqb (lower c) marker then
        let '(_, after_sign) := skip_sign rest in
        let '(count, _, after) := digits 10 after_sign 0 0%Z in
        if (count =? 0)%nat then s else after
      else s
  | EmptyString => s
  end.

(** a mantissa [digits [. digits]] with at least one digit: what follows it *)
Definition skip_mantissa (base : nat) (s : string) : option string :=
  let '(n1, _, after_int) := digits base s 0 0%Z in
  match after_int with
  | String c rest =>
      if Ascii.eqb c "." then
        let '(n2, _, after_frac) := digits base rest 0 0%Z in
        if (n1 + n2 =? 0)%nat then None else Some after_frac
      else if (n1 =? 0)%nat then None else Some after_int
  | EmptyString => if (n1 =? 0)%nat then None else Some after_int
  end.

(** the characters of [nan(...)] between the parentheses *)
Fixpoint skip_nan_chars (s : string) : option string :=
  match s with
  | String c rest =>
      if Ascii.eqb c ")" then Some rest
      else if CType.isalnum c || Ascii.eqb c "_" then skip_nan_chars rest
      else None
  | EmptyString => None
  end.

(** the number of characters that [strtod(s, &end)] reads: [0] when nothing
    is converted *)
Definition strtod_length (s : string) : nat :=
  let body := skip_spaces s in
  let '(_, after_sign) := skip_sign body in
  let read (rest : string) := (String.length s - String.length rest)%nat in
  match strip_prefix_nocase "infinity" after_sign with
  | Some rest => read rest
  | None =>
  match strip_prefix_nocase "inf" after_sign with
  | Some rest => read rest
  | None =>
  match strip_prefix_nocase "nan" after_sign with
  | Some rest =>
      match rest with
      | String c inner =>
          if Ascii.eqb c "(" then
            match skip_nan_chars inner with
            | Some after => read after
            | None => read rest
            end
          else read rest
      | EmptyString => read rest
      end
  | None =>
      let hex :=
        match strip_prefix_nocase "0x" after_sign with
        | Some digits16 =>
            match skip_mantissa 16 digits16 with
            | Some after => Some (skip_exponent "p" after)
            | None => None
            end
        | None => None
        end in
      match hex with
      | Some after => read after
      | None =>
          match skip_mantissa 10 after_sign with
          | Some after => read (skip_exponent "e" after)
          | None => 0%nat
          end
      end
  end end end.

End CStdlib.

(** ** Tokens ([include/finch/parser/lexer/token.hpp]) *)

Module Lexer.
Section Tokens.
Context {R : Runtime}.

Inductive TokenType :=
| TIdentifier | TString | TNumber | TVariable | TGeneratorExpr
| LeftParen | RightParen | LeftBracket | RightBracket | Semicolon
| Comment | BracketComment
| Newline | Whitespace | Eof
| Invalid.

(** [std::variant<std::monostate, std::string, double, char>] *)
Inductive TokenValue :=
| NoValue
| StringValue (s : string)
| DoubleValue (d : double)
| CharValue (c : ascii).

(** [text] is the slice of the source that the token was read from *)
Record Token := { type : TokenType; token_value : TokenValue; text : string }.

Definition TokenType_eqb (a b : TokenType) : bool :=
  match a, b with
  | TIdentifier, TIdentifier | TString, TString | TNumber, TNumber | TVariable, TVariable
  | TGeneratorExpr, TGeneratorExpr | LeftParen, LeftParen | RightParen, RightParen
  | LeftBracket, LeftBracket | RightBracket, RightBracket | Semicolon, Semicolon
  | Comment, Comment | BracketComment, BracketComment | Newline, Newline
  | Whitespace, Whitespace | Eof, Eof | Invalid, Invalid => true
  | _, _ => false
  end.

(** [tok.get_value<std::string>()] *)
Definition get_string (t : Token) : option string :=
  match token_value t with StringValue s => Some s | _ => None end.

(** [tok.get_value<double>()] *)
Definition get_double (t : Token) : option double :=
  match token_value t with DoubleValue d => Some d | _ => None end.

(** what the lexer returns at the end of the input, again and again *)
Definition eof_token : Token := {| type := Eof; token_value := NoValue; text := "" |}.

Definition identifier (s : string) : Token :=
  {| type := TIdentifier; token_value := StringValue s; text := s |}.

Definition punctuation (ty : TokenType) (s : string) : Token :=
  {| type := ty; token_value := NoValue; text := s |}.

(** *** The lexer ([src/parser/lexer/lexer.cpp])

    [content] is the text of the source buffer and [position_] the offset of
    the next character. Lines and columns only feed source locations. *)

Record Lexer := { content : string; position_ : nat }.

Definition new_lexer (source : string) : Lexer := {| content := source; position_ := 0 |}.

Definition NUL : ascii := ascii_of_nat 0.
Definition LF : ascii := ascii_of_nat 10.
Definition TAB : ascii := ascii_of_nat 9.
Definition CR : ascii := ascii_of_nat 13.
Definition BACKSLASH : ascii := ascii_of_nat 92.
Definition QUOTE : ascii := ascii_of_nat 34.

(** [SourceBuffer::at] *)
Definition at_ (l : Lexer) (pos : nat) : ascii :=
  match String.get pos (content l) with
  | Some c => c
  | None => NUL
  end.

(** [SourceBuffer::slice] *)
Definition slice (l : Lexer) (start stop : nat) : string :=
  Str.take (stop - start) (Str.drop start (content l)).

Definition at_end (l : Lexer) : bool := (String.length (content l) <=? position_ l)%nat.

Definition current_char (l : Lexer) : ascii := at_ l (position_ l).

Definition peek_char (ahead : nat) (l : Lexer) : ascii := at_ l (position_ l + ahead).

Definition move (n : nat) (l : Lexer) : Lexer :=
  {| content := content l; position_ := (position_ l + n)%nat |}.

(** [Lexer::advance] *)
Definition advance_char (l : Lexer) : Lexer := if at_end l then l else move 1 l.

(** the characters left: a loop that advances on each round makes no more
    rounds than that *)
Definition left (l : Lexer) : nat := (String.length (content l) - position_ l)%nat.

Definition is_blank (ch : ascii) : bool :=
  Ascii.eqb ch " " || Ascii.eqb ch TAB || Ascii.eqb ch CR.

Fixpoint skip_whitespace_loop (rounds : nat) (skip_newlines : bool) (l : Lexer) : Lexer :=
  match rounds with
  | O => l
  | S rounds' =>
      if at_end l then l
      else
        let ch := current_char l in
        if Ascii.eqb ch BACKSLASH && Ascii.eqb (peek_char 1 l) LF
        then skip_whitespace_loop rounds' skip_newlines (advance_char (advance_char l))
        else if is_blank ch then skip_whitespace_loop rounds' skip_newlines (advance_char l)
        else if Ascii.eqb ch LF && skip_newlines
        then skip_whitespace_loop rounds' skip_newlines (advance_char l)
        else l
  end.

(** [Lexer::skip_whitespace(bool)] *)
Definition skip_whitespace (skip_newlines : bool) (l : Lexer) : Lexer :=
  skip_whitespace_loop (left l) skip_newlines l.

(** [while (!at_end() && keep(current())) advance();] *)
Fixpoint advance_while (rounds : nat) (keep : ascii -> bool) (l : Lexer) : Lexer :=
  match rounds with
  | O => l
  | S rounds' =>
      if negb (at_end l) && keep (current_char l)
      then advance_while rounds' keep (advance_char l)
      else l
  end.

(** [Lexer::skip_line_comment] *)
Definition skip_line_comment (l : Lexer) : Lexer :=
  let l := advance_char l in
  advance_while (left l) (fun c => negb (Ascii.eqb c LF)) l.

(** [Lexer::make_token] *)
Definition make_token (ty : TokenType) (start_pos : nat) (v : TokenValue) (l : Lexer) : Token :=
  {| type := ty; token_value := v; text := slice l start_pos (position_ l) |}.

Definition is_identifier_start (ch : ascii) : bool := CType.isalpha ch || Ascii.eqb ch "_".

Definition is_unquoted_elem (ch : ascii) : bool :=
  negb (Ascii.eqb ch " ") && negb (Ascii.eqb ch TAB) && negb (Ascii.eqb ch CR)
  && negb (Ascii.eqb ch LF) && negb (Ascii.eqb ch "(") && negb (Ascii.eqb ch ")")
  && negb (Ascii.eqb ch "#") && negb (Ascii.eqb ch QUOTE)
  && negb (Ascii.eqb ch BACKSLASH) && negb (Ascii.eqb ch NUL).

Definition Lexed : Type := Result Token ParseError * Lexer.

Definition lex_error (category : ParseErrorCategory) (message : string) (l : Lexer) : Lexed :=
  (Err {| pe_category := category; pe_message := message |}, l).

Definition push (value : string) (c : ascii) : string := value +:+ String c "".

(** the loop of [lex_string] *)
Fixpoint string_loop (rounds : nat) (value : string) (escaped : bool) (l : Lexer)
  : string * Lexer :=
  match rounds with
  | O => (value, l)
  | S rounds' =>
      let ch := current_char l in
      if negb (at_end l) && (escaped || negb (Ascii.eqb ch QUOTE)) then
        if escaped then
          let value :=
            if Ascii.eqb ch "n" then push value LF
            else if Ascii.eqb ch "t" then push value TAB
            else if Ascii.eqb ch "r" then push value CR
            else if Ascii.eqb ch BACKSLASH then push value BACKSLASH
            else if Ascii.eqb ch QUOTE then push value QUOTE
            else if Ascii.eqb ch "$" then push value "$"
            else if Ascii.eqb ch ";" then push value ";"
            else push (push value BACKSLASH) ch in
          string_loop rounds' value false (advance_char l)
        else if Ascii.eqb ch BACKSLASH then string_loop rounds' value true (advance_char l)
        else string_loop rounds' (push value ch) false (advance_char l)
      else (value, l)
  end.

(** [Lexer::lex_string] *)
Definition lex_string (l : Lexer) : Lexed :=
  let start_pos := position_ l in
  let l := advance_char l in
  let '(value, l) := string_loop (left l) "" false l in
  if at_end l then lex_error UnterminatedString "Unterminated string" l
  else
    let l := advance_char l in
    (Ok (make_token TString start_pos (StringValue value) l), l).

(** the loop of [lex_variable] and of [lex_generator_expr], with the opening
    and the closing character *)
Fixpoint nested_loop (rounds : nat) (opening closing : ascii) (name : string) (depth : nat)
  (l : Lexer) : string * Lexer :=
  match rounds with
  | O => (name, l)
  | S rounds' =>
      if negb (at_end l) && (0 <? depth)%nat then
        let ch := current_char l in
        if Ascii.eqb ch opening
        then nested_loop rounds' opening closing (push name ch) (S depth) (advance_char l)
        else if Ascii.eqb ch closing then
          if (depth - 1 =? 0)%nat then (name, l)
          else nested_loop rounds' opening closing (push name ch) (depth - 1) (advance_char l)
        else nested_loop rounds' opening closing (push name ch) depth (advance_char l)
      else (name, l)
  end.

(** [Lexer::lex_variable] *)
Definition lex_variable (l : Lexer) : Lexed :=
  let start_pos := position_ l in
  let l := advance_char (advance_char l) in
  let is_env := String.eqb (slice l (position_ l) (position_ l + 4)) "ENV{" in
  let is_cache := negb is_env && String.eqb (slice l (position_ l) (position_ l + 6)) "CACHE{" in
  let l := if is_env then move 4 l else if is_cache then move 6 l else l in
  let '(name, l) := nested_loop (left l) "{" "}" "" 1 l in
  if at_end l then lex_error InvalidSyntax "Unterminated variable reference" l
  else
    let l := advance_char l in
    let name := if is_env then "ENV{" +:+ name +:+ "}"
                else if is_cache then "CACHE{" +:+ name +:+ "}" else name in
    (Ok (make_token TVariable start_pos (StringValue name) l), l).

(** [Lexer::lex_generator_expr] *)
Definition lex_generator_expr (l : Lexer) : Lexed :=
  let start_pos := position_ l in
  let l := advance_char (advance_char l) in
  let '(expr, l) := nested_loop (left l) "<" ">" "" 1 l in
  if at_end l then lex_error InvalidSyntax "Unterminated generator expression" l
  else
    let l := advance_char l in
    (Ok (make_token TGeneratorExpr start_pos (StringValue expr) l), l).

Definition skip_digits (l : Lexer) : Lexer := advance_while (left l) CType.isdigit l.

(** [Lexer::lex_number] *)
Definition lex_number (l : Lexer) : Lexed :=
  let start_pos := position_ l in
  let l := skip_digits l in
  let l :=
    if Ascii.eqb (current_char l) "." && CType.isdigit (peek_char 1 l)
    then skip_digits (advance_char l) else l in
  let l :=
    let c := current_char l in
    let sign c := Ascii.eqb c "+" || Ascii.eqb c "-" in
    if (Ascii.eqb c "e" || Ascii.eqb c "E")
       && (CType.isdigit (peek_char 1 l)
           || (sign (peek_char 1 l) && CType.isdigit (peek_char 2 l)))
    then
      let l := advance_char l in
      let l := if sign (current_char l) then advance_char l else l in
      skip_digits l
    else l in
  let num_str := slice l start_pos (position_ l) in
  if stod_out_of_range num_str then lex_error InvalidSyntax "Invalid number format" l
  else (Ok (make_token TNumber start_pos (DoubleValue (strtod_value num_str)) l), l).

(** the loop of [lex_unquoted_argument] *)
Fixpoint unquoted_loop (rounds : nat) (value : string) (l : Lexer) : string * Lexer :=
  match rounds with
  | O => (value, l)
  | S rounds' =>
      if at_end l then (value, l)
      else
        let ch := current_char l in
        if CType.isspace ch || Ascii.eqb ch "(" || Ascii.eqb ch ")" || Ascii.eqb ch "#"
        then (value, l)
        else if Ascii.eqb ch BACKSLASH then
          let next := peek_char 1 l in
          if Ascii.eqb next ";" || Ascii.eqb next " " || Ascii.eqb next "("
             || Ascii.eqb next ")" || Ascii.eqb next "$" || Ascii.eqb next "@"
             || Ascii.eqb next BACKSLASH || Ascii.eqb next "#"
          then
            let l := advance_char l in
            unquoted_loop rounds' (push value (current_char l)) (advance_char l)
          else if Ascii.eqb next LF
          then unquoted_loop rounds' value (advance_char (advance_char l))
          else unquoted_loop rounds' (push value ch) (advance_char l)
        else unquoted_loop rounds' (push value ch) (advance_char l)
  end.

(** [Lexer::lex_unquoted_argument] *)
Definition lex_unquoted_argument (l : Lexer) : Lexed :=
  let start_pos := position_ l in
  let '(value, l) := unquoted_loop (left l) "" l in
  if String.eqb value "" then lex_error InvalidSyntax "Expected argument" l
  else (Ok (make_token TIdentifier start_pos (StringValue value) l), l).

Definition skip_equals (l : Lexer) : nat * Lexer :=
  let l' := advance_while (left l) (fun c => Ascii.eqb c "=") l in
  ((position_ l' - position_ l)%nat, l').

Fixpoint repeat_char (c : ascii) (n : nat) : string :=
  match n with O => "" | S n' => String c (repeat_char c n') end.

(** the search for [closing], gathering what is passed over *)
Fixpoint closing_loop (rounds : nat) (closing : string) (passed : string) (l : Lexer)
  : string * Lexer :=
  match rounds with
  | O => (passed, l)
  | S rounds' =>
      if at_end l then (passed, l)
      else if String.eqb (slice l (position_ l) (position_ l + String.length closing)) closing
      then (passed, move (String.length closing) l)
      else closing_loop rounds' closing (push passed (current_char l)) (advance_char l)
  end.

(** [Lexer::lex_bracket_comment] *)
Definition lex_bracket_comment (l : Lexer) : Lexed :=
  let start_pos := (position_ l - 1)%nat in
  let l := advance_char (advance_char l) in
  let '(equals_count, l) := skip_equals l in
  if negb (Ascii.eqb (current_char l) "[")
  then lex_error InvalidSyntax "Invalid bracket comment syntax" l
  else
    let l := advance_char l in
    let closing := "]" +:+ repeat_char "=" equals_count +:+ "]]" in
    let '(_, l) := closing_loop (left l) closing "" l in
    if at_end l then lex_error InvalidSyntax "Unterminated bracket comment" l
    else (Ok (make_token BracketComment start_pos NoValue l), l).

(** [Lexer::lex_bracket_argument] *)
Definition lex_bracket_argument (l : Lexer) : Lexed :=
  let start_pos := position_ l in
  let l := advance_char l in
  let '(equals_count, l) := skip_equals l in
  if negb (Ascii.eqb (current_char l) "[")
  then lex_error InvalidSyntax "Invalid bracket argument syntax" l
  else
    let l := advance_char l in
    let closing := "]" +:+ repeat_char "=" equals_count +:+ "]" in
    let '(content_, l) := closing_loop (left l) closing "" l in
    if at_end l then lex_error InvalidSyntax "Unterminated bracket argument" l
    else (Ok (make_token TString start_pos (StringValue content_) l), l).

(** [Lexer::next_token]; it calls itself after a line comment *)
Fixpoint next_token (rounds : nat) (l : Lexer) : Lexed :=
  let l := skip_whitespace false l in
  if at_end l then (Ok eof_token, l)
  else
    let start_pos := position_ l in
    let ch := current_char l in
    let single ty := let l := advance_char l in (Ok (make_token ty start_pos NoValue l), l) in
    let otherwise :=
      if CType.isdigit ch || (Ascii.eqb ch "." && CType.isdigit (peek_char 1 l))
      then lex_number l
      else if is_identifier_start ch || is_unquoted_elem ch then lex_unquoted_argument l
      else lex_error InvalidSyntax ("Unexpected character: '" +:+ String ch "'")
             (advance_char l) in
    if Ascii.eqb ch "(" then single LeftParen
    else if Ascii.eqb ch ")" then single RightParen
    else if Ascii.eqb ch "[" then
      if (0 <? position_ l)%nat && Ascii.eqb (at_ l (position_ l - 1)) "#"
         && Ascii.eqb (peek_char 1 l) "["
      then lex_bracket_comment l
      else if Ascii.eqb (peek_char 1 l) "=" || Ascii.eqb (peek_char 1 l) "["
      then lex_bracket_argument l
      else single LeftBracket
    else if Ascii.eqb ch "]" then single RightBracket
    else if Ascii.eqb ch ";" then single Semicolon
    else if Ascii.eqb ch LF then single Newline
    else if Ascii.eqb ch "#" then
      match rounds with
      | O => (Ok eof_token, l)
      | S rounds' => next_token rounds' (skip_line_comment l)
      end
    else if Ascii.eqb ch QUOTE then lex_string l
    else if Ascii.eqb ch "$" then
      if Ascii.eqb (peek_char 1 l) "{" then lex_variable l
      else if Ascii.eqb (peek_char 1 l) "<" then lex_generator_expr l
      else otherwise
    else if is_blank ch then
      let l := advance_while (left l) is_blank l in
      (Ok (make_token Whitespace start_pos NoValue l), l)
    else otherwise.

(** The tokens that the parser draws from the lexer, up to the first Eof,
    and the errors of the lexer on the way; [Parser::current] puts an
    Invalid token in the place of each error. *)
Fixpoint tokens_loop (rounds : nat) (l : Lexer) : list Token * list ParseError :=
  match rounds with
  | O => ([], [])
  | S rounds' =>
      match next_token (left l) l with
      | (Ok tok, l') =>
          if TokenType_eqb (type tok) Eof then ([tok], [])
          else let '(toks, errs) := tokens_loop rounds' l' in (tok :: toks, errs)
      | (Err e, l') =>
          let invalid := {| type := Invalid; token_value := NoValue; text := "" |} in
          let '(toks, errs) := tokens_loop rounds' l' in (invalid :: toks, e :: errs)
      end
  end.

(** Every token but Eof takes at least one character, and so does every
    error but one: at a vertical tab or a form feed outside a string and a
    comment [lex_unquoted_argument] fails before it has read anything, and
    the lexer gives that answer again on every later call. Two rounds per
    character cover every other input up to its Eof; of an input where the
    lexer stays put, the list holds the first answers and no Eof. *)
Definition tokenize (source : string) : list Token * list ParseError :=
  tokens_loop (S (2 * String.length source)) (new_lexer source).

End Tokens.
End Lexer.


(** ** The parser
    ([src/parser/parser_tokens.cpp], [parser_errors.cpp], [parser_arguments.cpp],
     [parser_control_flow.cpp]; [parse_statement], [parse_command_invocation],
     [parse_file_elements] and [parse_file] from [parser.cpp])

    [parser.cpp] also holds versions of its own of functions that the other
    files define; the functions below follow the other files. *)

Module Parser.
Import Ast Lexer.

Section Parse.
Context {R : Runtime}.

(** The lexer does not depend on the parser, so what it answers, call after
    call, is settled by the source. [token_buffer_] holds these answers up to
    the Eof, with an Invalid token where the lexer answers an error, and
    [lexer_errors_] holds the errors of the answers that have not been asked
    for yet, in their order; past the end of [token_buffer_] the lexer keeps
    answering Eof. [fetched_] counts the answers that [current] and [peek]
    have asked for so far: the first [fetched_] tokens are the
    [token_buffer_] of the C++ parser. *)
Record Parser := {
  token_buffer_ : list Token;
  fetched_ : nat;
  lexer_errors_ : list ParseError;
  current_ : nat;
  errors_ : list ParseError;
  panic_mode_ : bool
}.

(** the parser of a source that the lexer reads without an error, from its
    tokens *)
Definition new_parser (tokens : list Token) : Parser :=
  {| token_buffer_ := tokens; fetched_ := 0; lexer_errors_ := []; current_ := 0;
     errors_ := []; panic_mode_ := false |}.

(** [Parser::Parser(source, filename)]. A source on which the lexer never
    reaches the Eof, because it stays at a vertical tab or at a form feed, has
    no parser here: its tokens have no end, and a parser that asks for them
    one after the other, as [synchronize] and [parse_file_elements] do up to
    the Eof, does not return. *)
Definition parser_of (source : string) : option Parser :=
  let '(tokens, errors) := tokenize source in
  if existsb (fun tok => TokenType_eqb (type tok) Eof) tokens
  then Some {| token_buffer_ := tokens; fetched_ := 0; lexer_errors_ := errors;
               current_ := 0; errors_ := []; panic_mode_ := false |}
  else None.

Definition set_current (i : nat) (p : Parser) : Parser :=
  {| token_buffer_ := token_buffer_ p; fetched_ := fetched_ p;
     lexer_errors_ := lexer_errors_ p; current_ := i; errors_ := errors_ p;
     panic_mode_ := panic_mode_ p |}.

Definition set_panic (b : bool) (p : Parser) : Parser :=
  {| token_buffer_ := token_buffer_ p; fetched_ := fetched_ p;
     lexer_errors_ := lexer_errors_ p; current_ := current_ p; errors_ := errors_ p;
     panic_mode_ := b |}.

(** [Parser::report_error] *)
Definition report_error (err : ParseError) (p : Parser) : Parser :=
  if panic_mode_ p then p
  else {| token_buffer_ := token_buffer_ p; fetched_ := fetched_ p;
          lexer_errors_ := lexer_errors_ p; current_ := current_ p;
          errors_ := errors_ p ++ [err]; panic_mode_ := panic_mode_ p |}.

(** One round of the loop of [current] or of [peek]: the next answer of the
    lexer goes on the buffer. Where the answer is an error, [current] hands
    it to [report_error] and [peek] drops it. *)
Definition fetch (report : bool) (p : Parser) : Parser :=
  let pushed (errors : list ParseError) :=
    {| token_buffer_ := token_buffer_ p; fetched_ := S (fetched_ p);
       lexer_errors_ := errors; current_ := current_ p; errors_ := errors_ p;
       panic_mode_ := panic_mode_ p |} in
  match token_buffer_ p !! fetched_ p, lexer_errors_ p with
  | Some tok, e :: rest =>
      if TokenType_eqb (type tok) Invalid
      then if report then report_error e (pushed rest) else pushed rest
      else pushed (lexer_errors_ p)
  | _, _ => pushed (lexer_errors_ p)
  end.

Fixpoint fetch_loop (rounds : nat) (report : bool) (p : Parser) : Parser :=
  match rounds with
  | O => p
  | S rounds' => fetch_loop rounds' report (fetch report p)
  end.

(** [while (current_ + ahead >= token_buffer_.size())] *)
Definition fetch_up_to (ahead : nat) (report : bool) (p : Parser) : Parser :=
  fetch_loop (current_ p + ahead + 1 - fetched_ p) report p.

(** what a call of [current()], and so of [check], does to the parser *)
Definition fetch_current (p : Parser) : Parser := fetch_up_to 0 true p.

(** what a call of [peek(ahead)] does to the parser *)
Definition fetch_ahead (ahead : nat) (p : Parser) : Parser := fetch_up_to ahead false p.

(** [Parser::current]: the token it returns *)
Definition current (p : Parser) : Token :=
  match token_buffer_ p !! current_ p with
  | Some t => t
  | None => eof_token
  end.

(** [Parser::peek]: the token it returns *)
Definition peek (ahead : nat) (p : Parser) : Token :=
  match token_buffer_ p !! (current_ p + ahead)%nat with
  | Some t => t
  | None => eof_token
  end.

(** [Parser::check]: what it answers *)
Definition check (ty : TokenType) (p : Parser) : bool :=
  TokenType_eqb (type (current p)) ty.

(** [Parser::error]: raises the panic flag, then asks for the current token
    and builds the error *)
Definition error (message : string) (p : Parser) : ParseError * Parser :=
  ({| pe_category := InvalidSyntax; pe_message := message |},
   fetch_current (set_panic true p)).

(** [Parser::advance]; no caller looks at what it returns *)
Definition advance (p : Parser) : Parser :=
  let p := fetch_current p in
  let p := if negb (check Eof p) then set_current (current_ p + 1) p else p in
  if (0 <? current_ p)%nat then p else snd (error "No token to advance" p).

(** [Parser::match] *)
Definition match_ (ty : TokenType) (p : Parser) : bool * Parser :=
  let p := fetch_current p in
  if check ty p then (true, advance p) else (false, p).

(** [Parser::consume] *)
Definition consume (ty : TokenType) (message : string) (p : Parser)
  : Result unit ParseError * Parser :=
  let p := fetch_current p in
  if check ty p then (Ok tt, advance p)
  else let '(e, p) := error message p in (Err e, p).

(** the tokens from the current one to the end of the buffer: a loop that
    advances on each round makes at most that many rounds *)
Definition remaining (p : Parser) : nat := (length (token_buffer_ p) - current_ p)%nat.

(** [while (check(t1) || check(t2) ...) advance();] *)
Fixpoint advance_while (rounds : nat) (skip : TokenType -> bool) (p : Parser) : Parser :=
  let p := fetch_current p in
  match rounds with
  | O => p
  | S rounds' => if skip (type (current p)) then advance_while rounds' skip (advance p) else p
  end.

Definition is_whitespace (ty : TokenType) : bool := TokenType_eqb ty Whitespace.

Definition is_whitespace_or_newline (ty : TokenType) : bool :=
  TokenType_eqb ty Whitespace || TokenType_eqb ty Newline.

Definition is_trivia (ty : TokenType) : bool :=
  TokenType_eqb ty Whitespace || TokenType_eqb ty Comment
  || TokenType_eqb ty BracketComment || TokenType_eqb ty Newline.

(** [Parser::skip_trivia] *)
Definition skip_trivia (p : Parser) : Parser := advance_while (remaining p) is_trivia p.

(** [while (match(Whitespace)) {}] *)
Definition skip_whitespace (p : Parser) : Parser :=
  advance_while (remaining p) is_whitespace p.

(** [while (match(Whitespace) || match(Newline)) {}] *)
Definition skip_whitespace_and_newlines (p : Parser) : Parser :=
  advance_while (remaining p) is_whitespace_or_newline p.

(** the names at which [synchronize] stops *)
Definition is_statement_start (name : string) : bool :=
  String.eqb name "if" || String.eqb name "foreach" || String.eqb name "while"
  || String.eqb name "function" || String.eqb name "macro" || String.eqb name "set"
  || String.eqb name "add_library" || String.eqb name "add_executable"
  || String.eqb name "target_" || String.eqb name "find_"
  || String.eqb name "include" || String.eqb name "project"
  || String.eqb name "cmake_minimum_required".

(** the two [return]s inside the loop of [synchronize], which is past
    [check(Eof)] there: the current token has been fetched *)
Definition at_statement_boundary (p : Parser) : bool :=
  ((0 <? current_ p)%nat &&
   match token_buffer_ p !! (current_ p - 1)%nat with
   | Some prev => TokenType_eqb (type prev) Newline
   | None => false
   end)
  || (check TIdentifier p &&
      match get_string (current p) with
      | Some name => is_statement_start name
      | None => false
      end).

Fixpoint synchronize_loop (rounds : nat) (p : Parser) : Parser :=
  let p := fetch_current p in
  match rounds with
  | O => p
  | S rounds' =>
      if check Eof p then p
      else if at_statement_boundary p then p
      else synchronize_loop rounds' (advance p)
  end.

(** [Parser::synchronize]: it lowers the panic flag first, so that the errors
    of the lexer at the tokens it fetches are recorded *)
Definition synchronize (p : Parser) : Parser :=
  let p := set_panic false p in
  synchronize_loop (remaining p) p.

(** *** Arguments *)

(** the pieces of a string with references in it *)
Inductive InterpolatedPart :=
| Literal (s : string)
| Reference (name : string).

(** Modelled from the spec: [InterpolationLexer::has_interpolations], whose
    definition is not among the sources. The specification says that a quoted
    string is split "if the string contains [${...}]". *)
Fixpoint has_interpolations (s : string) : bool :=
  match s with
  | String c rest =>
      (Ascii.eqb c "$" && Str.starts_with "{" rest && Str.contains_char "}" rest)
      || has_interpolations rest
  | EmptyString => false
  end.

(** the name up to the closing brace, and what follows the brace *)
Fixpoint until_brace (s : string) : option (string * string) :=
  match s with
  | String c rest =>
      if Ascii.eqb c "}" then Some (EmptyString, rest)
      else match until_brace rest with
           | Some (name, after) => Some (String c name, after)
           | None => None
           end
  | EmptyString => None
  end.

(** Modelled from the spec: [InterpolationLexer::parse_interpolated_string],
    whose definition is not among the sources: "a ListExpression of
    interleaved literals and variables". [literal] gathers, in reverse, the
    characters read since the last reference. *)
Fixpoint interpolated_parts (rounds : nat) (s : string) (literal : string)
  : list InterpolatedPart :=
  let flush (l : string) := if String.eqb l "" then [] else [Literal l] in
  match rounds with
  | O => flush (literal +:+ s)
  | S rounds' =>
      match s with
      | EmptyString => flush literal
      | String c rest =>
          let reference :=
            if Ascii.eqb c "$" then
              match rest with
              | String b inner => if Ascii.eqb b "{" then until_brace inner else None
              | EmptyString => None
              end
            else None in
          match reference with
          | Some (name, after) =>
              flush literal ++ Reference name :: interpolated_parts rounds' after ""
          | None => interpolated_parts rounds' rest (literal +:+ String c "")
          end
      end
  end.

Definition parse_interpolated_string (s : string) : Result (list InterpolatedPart) ParseError :=
  Ok (interpolated_parts (String.length s) s "").

(** [Parser::parse_quoted_argument] *)
Definition parse_quoted_argument (p : Parser) : Result ASTNode ParseError * Parser :=
  let p := fetch_current p in
  if negb (check TString p) then
    let '(e, p) := error "Expected quoted string" p in (Err e, p)
  else
    let tok := current p in
    let p := advance p in
    match get_string tok with
    | None => let '(e, p) := error "Invalid string token" p in (Err e, p)
    | Some value =>
        if has_interpolations value then
          match parse_interpolated_string value with
          | Err e => (Err e, p)
          | Ok parts =>
              let nodes :=
                List.map (fun part =>
                            match part with
                            | Literal s => StringLiteral s false
                            | Reference name => VariableRef name Normal
                            end) parts in
              match nodes with
              | [single] => (Ok single, p)
              | _ => (Ok (ListExpression nodes " "), p)
              end
          end
        else (Ok (StringLiteral value true), p)
    end.

(** the inner loop of [parse_unquoted_argument], entered after a reference
    that follows some text; a Newline does not end it *)
Fixpoint unquoted_tail (rounds : nat) (value : string) (parts : list ASTNode) (p : Parser)
  : string * list ASTNode * Parser :=
  let p := fetch_current p in
  match rounds with
  | O => (value, parts, p)
  | S rounds' =>
      if check Whitespace p || check RightParen p || check Semicolon p || check Eof p
      then (value, parts, p)
      else
        let next_tok := current p in
        if TokenType_eqb (type next_tok) TVariable then
          let parts := if negb (String.eqb value "")
                       then parts ++ [StringLiteral value false] else parts in
          let parts := match get_string next_tok with
                       | Some next_var => parts ++ [VariableRef next_var Normal]
                       | None => parts
                       end in
          unquoted_tail rounds' "" parts (advance p)
        else unquoted_tail rounds' (value +:+ text next_tok) parts (advance p)
  end.

(** the classification at the end of [parse_unquoted_argument] *)
Definition classify_unquoted (value : string) : ASTNode :=
  if String.eqb value "TRUE" || String.eqb value "ON" || String.eqb value "YES"
     || String.eqb value "Y" then BooleanLiteral true value
  else if String.eqb value "FALSE" || String.eqb value "OFF" || String.eqb value "NO"
          || String.eqb value "N" then BooleanLiteral false value
  else
    let '(long_val, read) := CStdlib.strtol0 value in
    if (read =? String.length value)%nat then NumberLiteral value (Integer long_val)
    else if (CStdlib.strtod_length value =? String.length value)%nat
    then NumberLiteral value (Float (strtod_value value))
    else StringLiteral value false.

(** the outer loop of [parse_unquoted_argument] *)
Fixpoint unquoted_loop (rounds : nat) (value : string) (has_content : bool) (p : Parser)
  : Result ASTNode ParseError * Parser :=
  let finish (p : Parser) :=
    if negb has_content then let '(e, p) := error "Expected argument" p in (Err e, p)
    else (Ok (classify_unquoted value), p) in
  let p := fetch_current p in
  match rounds with
  | O => finish p
  | S rounds' =>
      if check Whitespace p || check Newline p || check RightParen p || check Semicolon p
         || check Eof p
      then finish p
      else
        let tok := current p in
        if TokenType_eqb (type tok) TIdentifier || TokenType_eqb (type tok) TNumber then
          unquoted_loop rounds' (value +:+ text tok) true (advance p)
        else if TokenType_eqb (type tok) TVariable then
          if negb (String.eqb value "") then
            let parts := [StringLiteral value false] in
            let parts := match get_string tok with
                         | Some var_value => parts ++ [VariableRef var_value Normal]
                         | None => parts
                         end in
            let p := advance p in
            let '(value, parts, p) := unquoted_tail (remaining p) "" parts p in
            let parts := if negb (String.eqb value "")
                         then parts ++ [StringLiteral value false] else parts in
            (Ok (ListExpression parts " "), p)
          else
            match get_string tok with
            | None => let '(e, p) := error "Invalid variable token" p in (Err e, p)
            | Some var_value => (Ok (VariableRef var_value Normal), advance p)
            end
        else unquoted_loop rounds' (value +:+ text tok) true (advance p)
  end.

(** [Parser::parse_unquoted_argument] *)
Definition parse_unquoted_argument (p : Parser) : Result ASTNode ParseError * Parser :=
  unquoted_loop (remaining p) "" false p.

Definition is_equals_sign (t : Token) : bool :=
  TokenType_eqb (type t) TIdentifier &&
  match get_string t with Some s => String.eqb s "=" | None => false end.

(** [while (check(Identifier)) { "=" ? count and advance : break }] *)
Fixpoint count_equals (rounds : nat) (count : nat) (p : Parser) : nat * Parser :=
  let p := fetch_current p in
  match rounds with
  | O => (count, p)
  | S rounds' =>
      if is_equals_sign (current p) then count_equals rounds' (S count) (advance p)
      else (count, p)
  end.

(** the loop of [parse_bracket_argument] that gathers the content *)
Fixpoint bracket_content (rounds : nat) (equals_count : nat) (content : string) (p : Parser)
  : string * Parser :=
  let p := fetch_current p in
  match rounds with
  | O => (content, p)
  | S rounds' =>
      if check Eof p then (content, p)
      else if check RightBracket p then
        let pos := current_ p in
        let p1 := advance p in
        let '(closing_equals, p2) := count_equals (remaining p1) 0 p1 in
        if (closing_equals =? equals_count)%nat && check RightBracket p2
        then (content, advance p2)
        else
          let p3 := set_current pos p2 in
          bracket_content rounds' equals_count (content +:+ text (current p3)) (advance p3)
      else bracket_content rounds' equals_count (content +:+ text (current p)) (advance p)
  end.

(** [Parser::parse_bracket_argument] *)
Definition parse_bracket_argument (p : Parser) : Result ASTNode ParseError * Parser :=
  match consume LeftBracket "Expected '['" p with
  | (Err e, p) => (Err e, p)
  | (Ok _, p) =>
      match consume LeftBracket "Expected second '['" p with
      | (Err e, p) => (Err e, p)
      | (Ok _, p) =>
          let '(equals_count, p) := count_equals (remaining p) 0 p in
          let '(content, p) := bracket_content (remaining p) equals_count "" p in
          (Ok (BracketExpression (StringLiteral content false) true), p)
      end
  end.

(** [Parser::parse_primary_expression] ([parser_control_flow.cpp]) *)
Definition parse_primary_expression (p : Parser) : Result ASTNode ParseError * Parser :=
  let p := skip_trivia p in
  if check TVariable p then
    let var_tok := current p in
    match get_string var_tok with
    | None => let '(e, p) := error "Invalid variable token" p in (Err e, p)
    | Some var_value => (Ok (VariableRef var_value Normal), advance p)
    end
  else if check TString p then parse_quoted_argument p
  else if check TIdentifier p then parse_unquoted_argument p
  else if check TNumber p then
    let num_tok := current p in
    match get_double num_tok with
    | None => let '(e, p) := error "Invalid number token" p in (Err e, p)
    | Some num_value =>
        let p := advance p in
        let truncated := int64_of_double num_value in
        if double_eqb num_value (double_of_int64 truncated)
        then (Ok (NumberLiteral (text num_tok) (Integer truncated)), p)
        else (Ok (NumberLiteral (text num_tok) (Float num_value)), p)
    end
  else if check TGeneratorExpr p then
    let gen_tok := current p in
    match get_string gen_tok with
    | None => let '(e, p) := error "Invalid generator expression token" p in (Err e, p)
    | Some gen_value => (Ok (GeneratorExpression gen_value), advance p)
    end
  else let '(e, p) := error "Expected expression" p in (Err e, p).

(** [Parser::parse_expression] *)
Definition parse_expression (p : Parser) : Result ASTNode ParseError * Parser :=
  parse_primary_expression p.

(** [Parser::parse_argument] *)
Definition parse_argument (p : Parser) : Result ASTNode ParseError * Parser :=
  let p := fetch_current p in
  if check TString p then parse_quoted_argument p
  else if check LeftBracket p then
    let p := fetch_ahead 1 p in
    if TokenType_eqb (type (peek 1 p)) LeftBracket then parse_bracket_argument p
    else parse_expression p
  else parse_unquoted_argument p.

(** the loop of [parse_arguments] *)
Fixpoint arguments_loop (rounds : nat) (args : list ASTNode) (p : Parser)
  : Result (list ASTNode) ParseError * Parser :=
  let p := fetch_current p in
  match rounds with
  | O => (Ok args, p)
  | S rounds' =>
      if check RightParen p || check Eof p then (Ok args, p)
      else
        let p := skip_whitespace_and_newlines p in
        if check RightParen p || check Eof p then (Ok args, p)
        else
          match parse_argument p with
          | (Err e, p) => (Err e, p)
          | (Ok arg, p) =>
              let p := skip_whitespace p in
              let p := snd (match_ Semicolon p) in
              arguments_loop rounds' (args ++ [arg]) p
          end
  end.

(** [Parser::parse_arguments]: every round that goes on has read an argument,
    so the loop makes no more rounds than there are tokens left. *)
Definition parse_arguments (p : Parser) : Result (list ASTNode) ParseError * Parser :=
  arguments_loop (S (remaining p)) [] p.

(** [Parser::is_at_block_terminator]; [parse_block_until] calls it behind
    [skip_trivia], which has fetched the current token *)
Definition is_at_block_terminator (terminators : list string) (p : Parser) : bool :=
  check TIdentifier p &&
  match get_string (current p) with
  | Some name => existsb (String.eqb name) terminators
  | None => false
  end.

(** [Parser::parse_command_invocation] ([parser.cpp]) *)
Definition parse_command_invocation (p : Parser) : Result ASTNode ParseError * Parser :=
  match consume TIdentifier "Expected command name" p with
  | (Err e, p) => (Err e, p)
  | (Ok _, p) =>
      let name_token :=
        match token_buffer_ p !! (current_ p - 1)%nat with
        | Some t => t
        | None => eof_token
        end in
      match get_string name_token with
      | None => let '(e, p) := error "Invalid command name" p in (Err e, p)
      | Some name =>
          let p := skip_whitespace p in
          match consume LeftParen "Expected '(' after command name" p with
          | (Err e, p) => (Err e, p)
          | (Ok _, p) =>
              match parse_arguments p with
              | (Err e, p) => (Err e, p)
              | (Ok args, p) =>
                  match consume RightParen "Expected ')' after arguments" p with
                  | (Err e, p) => (Err e, p)
                  | (Ok _, p) =>
                      let plain := (Ok (CommandCall name args), p) in
                      if Str.starts_with "CPM" name then
                        match CPMParser.parse_cpm_command name args with
                        | Ok node => (Ok node, p)
                        | Err _ => plain
                        end
                      else plain
                  end
              end
          end
      end
  end.

(** *** Statements

    A parse function that may go through a block is a partial function:
    [None] stands for a call that does not return, or that did not within
    the given number of nested calls. *)

Definition Parsing (A : Type) : Type := Parser -> option (Result A ParseError * Parser).

Definition done {A} (a : A) : Parsing A := fun p => Some (Ok a, p).

Definition fail_with {A} (message : string) : Parsing A :=
  fun p => let '(e, p) := error message p in Some (Err e, p).

Definition and_then {A B} (m : Parsing A) (f : A -> Parsing B) : Parsing B :=
  fun p =>
    match m p with
    | Some (Ok a, p') => f a p'
    | Some (Err e, p') => Some (Err e, p')
    | None => None
    end.

Definition total {A} (m : Parser -> Result A ParseError * Parser) : Parsing A :=
  fun p => Some (m p).

Definition step (f : Parser -> Parser) : Parsing unit := fun p => Some (Ok tt, f p).

(** a question to [check] or to [current] *)
Definition look {A} (f : Parser -> A) : Parsing A :=
  fun p => let p := fetch_current p in Some (Ok (f p), p).

(** the rounds that a loop of the parser can make at most *)
Definition rounds_left : Parsing nat := fun p => Some (Ok (remaining p), p).

Notation "'try' x := m 'in' k" := (and_then m (fun x => k))
  (at level 10, x name, m at level 100, k at level 200).
Notation "m >>> k" := (and_then m (fun _ => k))
  (at level 65, right associativity).

(** [block_until terminators] is [parse_block_until(terminators)] *)
Section Statements.
Variable block_until : list string -> Parsing (list ASTNode).

(** the closing [name ( )] of a block *)
Definition parse_closing (name : string) : Parsing unit :=
  total (consume TIdentifier ("Expected '" +:+ name +:+ "'")) >>>
  step skip_whitespace >>>
  total (consume LeftParen ("Expected '(' after '" +:+ name +:+ "'")) >>>
  total (consume RightParen ("Expected ')' after '" +:+ name +:+ "('")).

(** The loop [while (check(Identifier))] of [parse_if_statement] over the
    elseif and else parts. Each round reads at least the keyword. *)
Fixpoint if_branches_loop (rounds : nat) (if_stmt : ASTNode) : Parsing ASTNode :=
  match rounds with
  | O => fun _ => None
  | S rounds' =>
      try at_identifier := look (check TIdentifier) in
      if negb at_identifier then done if_stmt
      else
        try name_value := look (fun p => get_string (current p)) in
        match name_value with
        | None => done if_stmt
        | Some name =>
            if String.eqb name "elseif" then
              step advance >>>
              step skip_whitespace >>>
              total (consume LeftParen "Expected '(' after 'elseif'") >>>
              try elseif_condition := total parse_expression in
              total (consume RightParen "Expected ')' after elseif condition") >>>
              step skip_whitespace_and_newlines >>>
              try elseif_body := block_until ["else"; "elseif"; "endif"] in
              if_branches_loop rounds' (add_elseif elseif_condition elseif_body if_stmt)
            else if String.eqb name "else" then
              step advance >>>
              step skip_whitespace >>>
              total (consume LeftParen "Expected '(' after 'else'") >>>
              total (consume RightParen "Expected ')' after 'else('") >>>
              step skip_whitespace_and_newlines >>>
              try else_body := block_until ["endif"] in
              done (set_else_branch else_body if_stmt)
            else done if_stmt
        end
  end.

(** [Parser::parse_if_statement] ([parser_control_flow.cpp]) *)
Definition parse_if_statement : Parsing ASTNode :=
  total (consume TIdentifier "Expected 'if'") >>>
  step skip_whitespace >>>
  total (consume LeftParen "Expected '(' after 'if'") >>>
  try condition := total parse_expression in
  total (consume RightParen "Expected ')' after condition") >>>
  step skip_whitespace_and_newlines >>>
  try then_branch := block_until ["else"; "elseif"; "endif"] in
  try rounds := rounds_left in
  try if_stmt := if_branches_loop (S rounds) (IfStatement condition then_branch [] []) in
  parse_closing "endif" >>>
  done if_stmt.

(** the loop over the loop variables of [parse_foreach_statement] *)
Fixpoint foreach_variables (rounds : nat) (variables : list string) : Parsing (list string) :=
  match rounds with
  | O => done variables
  | S rounds' =>
      try at_identifier := look (check TIdentifier) in
      if negb at_identifier then done variables
      else
        try var_value := look (fun p => get_string (current p)) in
        match var_value with
        | None => fail_with "Invalid variable name"
        | Some v =>
            if String.eqb v "IN" || String.eqb v "RANGE" then done variables
            else step advance >>> step skip_whitespace >>>
                 foreach_variables rounds' (variables ++ [v])
        end
  end.

(** [Parser::parse_foreach_loop_type] *)
Definition parse_foreach_loop_type : Parsing LoopType :=
  try at_identifier := look (check TIdentifier) in
  if negb at_identifier then fail_with "Expected loop type (IN, RANGE, etc.)"
  else
    try type_value := look (fun p => get_string (current p)) in
    match type_value with
    | None => fail_with "Invalid loop type token"
    | Some ty =>
        if String.eqb ty "RANGE" then step advance >>> done RANGE
        else if negb (String.eqb ty "IN") then fail_with "Expected 'IN' or 'RANGE' in foreach"
        else
          step advance >>>
          step skip_whitespace >>>
          try modifier :=
            look (fun p => if check TIdentifier p then get_string (current p) else None) in
          match modifier with
          | Some m =>
              if String.eqb m "LISTS" then step advance >>> done IN_LISTS
              else if String.eqb m "ITEMS" then step advance >>> done IN_ITEMS
              else if String.eqb m "ZIP_LISTS" then step advance >>> done IN_ZIP_LISTS
              else done IN
          | None => done IN
          end
    end.

(** [Parser::parse_foreach_statement] *)
Definition parse_foreach_statement : Parsing ASTNode :=
  total (consume TIdentifier "Expected 'foreach'") >>>
  step skip_whitespace >>>
  total (consume LeftParen "Expected '(' after 'foreach'") >>>
  try rounds := rounds_left in
  try variables := foreach_variables rounds [] in
  if RuleTemplates.is_empty variables then fail_with "Expected loop variable(s) in foreach"
  else
    try loop_type := parse_foreach_loop_type in
    try items := total parse_arguments in
    total (consume RightParen "Expected ')' after foreach arguments") >>>
    step skip_whitespace_and_newlines >>>
    try body := block_until ["endforeach"] in
    parse_closing "endforeach" >>>
    done (ForEachStatement variables loop_type items body).

(** [Parser::parse_while_statement] *)
Definition parse_while_statement : Parsing ASTNode :=
  total (consume TIdentifier "Expected 'while'") >>>
  step skip_whitespace >>>
  total (consume LeftParen "Expected '(' after 'while'") >>>
  try condition := total parse_expression in
  total (consume RightParen "Expected ')' after condition") >>>
  step skip_whitespace_and_newlines >>>
  try body := block_until ["endwhile"] in
  parse_closing "endwhile" >>>
  done (WhileStatement condition body).

(** The loop over the parameters of a function or macro. A round that meets
    neither the closing parenthesis nor a name reads nothing, and so does
    every round after it. *)
Fixpoint parameters_loop (rounds : nat) (parameters : list string) : Parsing (list string) :=
  match rounds with
  | O => done parameters
  | S rounds' =>
      try at_end := look (fun p => check RightParen p || check Eof p) in
      if at_end then done parameters
      else
        try param := look (fun p => if check TIdentifier p then get_string (current p) else None) in
        match param with
        | Some v => step advance >>> step skip_whitespace >>>
                    parameters_loop rounds' (parameters ++ [v])
        | None =>
            try at_whitespace := look (check Whitespace) in
            if at_whitespace then step skip_whitespace >>> parameters_loop rounds' parameters
            else fun _ => None
        end
  end.

(** the common shape of [parse_function_def] and [parse_macro_def] *)
Definition parse_definition (keyword : string)
  (make : string -> list string -> list ASTNode -> ASTNode) : Parsing ASTNode :=
  total (consume TIdentifier ("Expected '" +:+ keyword +:+ "'")) >>>
  step skip_whitespace >>>
  total (consume LeftParen ("Expected '(' after '" +:+ keyword +:+ "'")) >>>
  try at_identifier := look (check TIdentifier) in
  if negb at_identifier then fail_with ("Expected " +:+ keyword +:+ " name")
  else
    try name_value := look (fun p => get_string (current p)) in
    match name_value with
    | None => fail_with ("Invalid " +:+ keyword +:+ " name")
    | Some name =>
        step advance >>>
        step skip_whitespace >>>
        try rounds := rounds_left in
        try parameters := parameters_loop (S rounds) [] in
        total (consume RightParen ("Expected ')' after " +:+ keyword +:+ " parameters")) >>>
        step skip_whitespace_and_newlines >>>
        try body := block_until ["end" +:+ keyword] in
        parse_closing ("end" +:+ keyword) >>>
        done (make name parameters body)
    end.

(** [Parser::parse_function_def] *)
Definition parse_function_def : Parsing ASTNode := parse_definition "function" FunctionDef.

(** [Parser::parse_macro_def] *)
Definition parse_macro_def : Parsing ASTNode := parse_definition "macro" MacroDef.

(** [Parser::parse_statement] ([parser.cpp]) *)
Definition parse_statement_body : Parsing ASTNode :=
  step skip_whitespace >>>
  try at_identifier := look (check TIdentifier) in
  if at_identifier then
    try name_value := look (fun p => get_string (current p)) in
    match name_value with
    | None => fail_with "Invalid identifier token"
    | Some name =>
        if String.eqb name "if" then parse_if_statement
        else if String.eqb name "foreach" then parse_foreach_statement
        else if String.eqb name "while" then parse_while_statement
        else if String.eqb name "function" then parse_function_def
        else if String.eqb name "macro" then parse_macro_def
        else total parse_command_invocation
    end
  else
    try at_comment := look (fun p => check Comment p || check BracketComment p) in
    if at_comment then step advance >>> step fetch_current >>> done (Block [])
    else fail_with "Expected command or control flow statement".

End Statements.

(** [parse_statement] and the loop of [parse_block_until], which call each
    other; [depth] bounds the calls still to be made. *)
Fixpoint parse_statement (depth : nat) : Parsing ASTNode :=
  match depth with
  | O => fun _ => None
  | S depth' =>
      parse_statement_body (fun terminators => block_until_loop depth' terminators [])
  end
with block_until_loop (depth : nat) (terminators : list string) (statements : list ASTNode)
  : Parsing (list ASTNode) :=
  match depth with
  | O => fun _ => None
  | S depth' =>
      fun p =>
        let p := fetch_current p in
        if check Eof p then Some (Ok statements, p)
        else
          let p := skip_trivia p in
          if is_at_block_terminator terminators p then Some (Ok statements, p)
          else
            match parse_statement depth' p with
            | None => None
            | Some (Err e, p) =>
                let p := synchronize (report_error e p) in
                block_until_loop depth' terminators statements (skip_trivia p)
            | Some (Ok stmt, p) =>
                block_until_loop depth' terminators (statements ++ [stmt]) (skip_trivia p)
            end
  end.

(** [Parser::parse_block_until] *)
Definition parse_block_until (depth : nat) (terminators : list string)
  : Parsing (list ASTNode) :=
  block_until_loop depth terminators [].

(** [Parser::parse_file_elements] ([parser.cpp]) *)
Fixpoint parse_file_elements (depth : nat) (elements : list ASTNode)
  : Parsing (list ASTNode) :=
  match depth with
  | O => fun _ => None
  | S depth' =>
      fun p =>
        let p := fetch_current p in
        if check Eof p then Some (Ok elements, p)
        else
          let p := skip_trivia p in
          if check Eof p then Some (Ok elements, p)
          else
            match parse_statement depth' p with
            | None => None
            | Some (Err e, p) =>
                let p := synchronize (report_error e p) in
                parse_file_elements depth' elements (skip_trivia p)
            | Some (Ok stmt, p) =>
                parse_file_elements depth' (elements ++ [stmt]) (skip_trivia p)
            end
  end.

(** [Parser::parse_file] ([parser.cpp]): the statements of the [File] node, or
    the errors gathered *)
Definition parse_file (depth : nat) (filename : string) (p : Parser)
  : option (Result ASTNode (list ParseError)) :=
  match parse_file_elements depth [] p with
  | None => None
  | Some (elements_result, p) =>
      if negb (RuleTemplates.is_empty (errors_ p)) then Some (Err (errors_ p))
      else
        match elements_result with
        | Err e => Some (Err (errors_ p ++ [e]))
        | Ok elements => Some (Ok (File filename elements))
        end
  end.

End Parse.
End Parser.

(** ** A runtime to run examples on

    A double is kept as the integer or the text it was converted from; the
    working directory is [/work]. The examples of this development contain no
    number, so that nothing in them depends on this choice. *)

Module ExampleRuntime.

Inductive example_double :=
| OfInt (z : Z)
| OfText (s : string).

Definition example_double_eqb (a b : example_double) : bool :=
  match a, b with
  | OfInt x, OfInt y => Z.eqb x y
  | OfText s, OfText t => String.eqb s t
  | _, _ => false
  end.

#[export] Instance example_runtime : Runtime := {|
  double := example_double;
  double_of_int64 := OfInt;
  int64_of_double := fun d => match d with OfInt z => z | OfText _ => 0%Z end;
  double_eqb := example_double_eqb;
  strtod_value := OfText;
  stod_out_of_range := fun _ => false;
  double_to_string := fun d => match d with OfInt z => pretty z | OfText s => s end;
  current_path := "/work"
|}.

End ExampleRuntime.

(** ** More of [value_helpers] ([src/analyzer/evaluation_context.cpp]) *)

Module ValueHelpers.
Import Analyzer.

(** [while (std::getline(iss, item, ';')) result.push_back(item);] over what
    is left of the stream, [item] being what has been read since the last
    semicolon. At the end of the stream a read that finds no character
    fails, so that nothing follows a last semicolon. *)
Fixpoint getline_items (s : string) (item : string) : list string :=
  match s with
  | EmptyString => if String.eqb item "" then [] else [item]
  | String c rest =>
      if Ascii.eqb c ";" then item :: getline_items rest ""
      else getline_items rest (item +:+ String c "")
  end.

Section Values.
Context {R : Runtime}.

(** [value_helpers::to_bool] *)
Definition to_bool (v : Value) : option bool :=
  match v with
  | VString s =>
      if String.eqb s "1" || String.eqb s "ON" || String.eqb s "YES" || String.eqb s "TRUE"
         || String.eqb s "Y" then Some true
      else if String.eqb s "0" || String.eqb s "OFF" || String.eqb s "NO"
              || String.eqb s "FALSE" || String.eqb s "N" || String.eqb s "IGNORE"
              || String.eqb s "NOTFOUND" || Str.ends_with "-NOTFOUND" s || String.eqb s ""
      then Some false
      else None
  | VBool b => Some b
  | VDouble d => Some (negb (double_eqb d (double_of_int64 0)))
  | VList l => Some (negb (RuleTemplates.is_empty l))
  end.

(** [value_helpers::to_list] *)
Definition to_list (v : Value) : list string :=
  match v with
  | VString s =>
      if String.eqb s "" then []
      else if Str.contains_char ";" s then getline_items s ""
      else [s]
  | VBool b => [if b then "TRUE" else "FALSE"]
  | VDouble d => [double_to_string d]
  | VList l => l
  end.

End Values.
End ValueHelpers.

(** ** What the lexer is shown to keep *)

Module LexerFacts.
Section Facts.
Context {R : Runtime}.
Import Lexer.

(** a result of the lexer that is neither a Whitespace nor a Comment token *)
Definition not_trivia (lexed : Lexed) : Prop :=
  match lexed with
  | (Ok tok, _) => type tok <> Whitespace /\ type tok <> Comment
  | (Err _, _) => True
  end.

End Facts.
End LexerFacts.

(** ** What the parser asks of the lexer *)

Module ParserFacts.
Section Facts.
Context {R : Runtime}.
Import Lexer Parser.

(** how many of [tokens] stand for an error of the lexer *)
Definition invalid_among (tokens : list Token) : nat :=
  length (List.filter (fun tok => TokenType_eqb (type tok) Invalid) tokens).

(** the tokens that the lexer hands out when the parser asks for the tokens
    up to the one at index [last]: those from [fetched_ p] on, the ones before
    being in the buffer already *)
Definition drawn (last : nat) (p : Parser) : list Token :=
  take (S last - fetched_ p) (drop (fetched_ p) (token_buffer_ p)).

(** the errors of the lexer that come with them *)
Definition drawn_errors (last : nat) (p : Parser) : list ParseError :=
  take (invalid_among (drawn last p)) (lexer_errors_ p).

End Facts.
End ParserFacts.

(** ** What an evaluation is shown to keep *)

Module EvaluatorFacts.
Section Facts.
Context {R : Runtime}.
Import Analyzer Evaluator.

(** the types that [add_library] and [add_executable] give to a target *)
Definition buildable (t : Target) : bool :=
  match target_type t with
  | StaticLibrary | SharedLibrary | InterfaceLibrary | ExecutableTarget => true
  | CustomTarget | UnknownTargetType => false
  end.

(** what a target is made with: its name, its type and its sources *)
Definition made_with (t : Target) : string * TargetType * list string :=
  (target_name t, target_type t, sources t).

(** [later] holds the bindings and the targets of [ctx], and maybe more: no
    variable and no cache variable has gone, the targets of [ctx] stand where
    they stood, made as they were, buildable targets may follow them, and
    the platform checks and the parent scope are the same. *)
Definition extends (ctx later : EvaluationContext) : Prop :=
  parent_ later = parent_ ctx
  /\ platform_checks_ later = platform_checks_ ctx
  /\ (forall name, is_Some (variables_ ctx !! name) -> is_Some (variables_ later !! name))
  /\ (forall name, is_Some (cache_variables_ ctx !! name) ->
                   is_Some (cache_variables_ later !! name))
  /\ exists added,
       Forall (fun t => buildable t = true) added
       /\ made_with <$> targets_ later
          = ((made_with <$> targets_ ctx) ++ (made_with <$> added))%list.

(** a computation that, where it returns, returns in an extension of the
    context it started in *)
Definition respects {A} (m : M A) : Prop :=
  forall ctx,
    match m ctx with
    | Returns _ later => extends ctx later
    | Stops _ => True
    end.

End Facts.
End EvaluatorFacts.

(** ** The generator
    ([src/generator/target_mapper.cpp], [rule_templates.cpp],
     [starlark_writer.cpp], [generator.cpp]) *)

Module Generation.
Import Analyzer TargetMapper RuleTemplates.

Inductive Category :=
| UnsupportedTarget | InvalidRule | MissingTemplate | FileWriteError | FormattingError
| InvalidAttribute | MissingDependency.

Record GenerationError := { ge_category : Category; ge_message : string }.

(** [TargetMapper::determine_rule_type] *)
Definition determine_rule_type (target : Target) : Buck2RuleType :=
  match target_type target with
  | ExecutableTarget => CxxBinary
  | StaticLibrary | SharedLibrary => CxxLibrary
  | InterfaceLibrary => CxxLibrary
  | CustomTarget => FileGroup
  | UnknownTargetType => Unknown
  end.

(** [TargetMapper::transform_sources] *)
Fixpoint transform_sources (sources : list string) : list string :=
  match sources with
  | [] => []
  | source :: rest =>
      if negb (Str.contains "${" source) && negb (Str.contains "$<" source)
      then source :: transform_sources rest
      else transform_sources rest
  end.

(** [std::replace(converted.begin(), converted.end(), ':', '_')] *)
Definition colons_to_underscores (dep : string) : string :=
  Str.map (fun c => if Ascii.eqb c ":" then "_"%char else c) dep.

(** [TargetMapper::resolve_dependencies] *)
Fixpoint resolve_dependencies (deps : list string) : list string :=
  match deps with
  | [] => []
  | dep :: rest =>
      (if Str.contains "::" dep
       then "//" +:+ colons_to_underscores dep
       else ":" +:+ normalize_target_name dep)
      :: resolve_dependencies rest
  end.

(** the loops that write the elements in quotes with [", "] between them *)
Fixpoint quoted_items (items : list string) : string :=
  match items with
  | [] => ""
  | [item] => dq +:+ item +:+ dq
  | item :: rest => dq +:+ item +:+ dq +:+ ", " +:+ quoted_items rest
  end.

Definition bracketed (items : list string) : string := "[" +:+ quoted_items items +:+ "]".

(** [TargetMapper::map_cmake_target]; the entries of [properties] stand in the
    order of their keys, in which the [std::map] is traversed *)
Definition map_cmake_target (cmake_target : Target) : Result MappedTarget GenerationError :=
  let rule := determine_rule_type cmake_target in
  let entry (key : string) (present : bool) (items : list string) :=
    if present then [(key, bracketed items)] else [] in
  Ok {| name := normalize_target_name (target_name cmake_target);
        rule_type := rule;
        srcs := transform_sources (sources cmake_target);
        headers := target_headers cmake_target;
        deps := resolve_dependencies (link_libraries cmake_target);
        properties :=
          entry "compiler_flags" (negb (is_empty (compile_options cmake_target)))
            (compile_options cmake_target)
          ++ entry "exported_headers" (negb (is_empty (include_directories cmake_target)))
               (include_directories cmake_target)
          ++ entry "linker_flags"
               (match rule with CxxBinary => true | _ => false end
                && negb (is_empty (link_libraries cmake_target)))
               (link_libraries cmake_target)
          ++ entry "preprocessor_flags" (negb (is_empty (compile_definitions cmake_target)))
               (compile_definitions cmake_target) |}.

(** [CxxTestTemplate::generate] *)
Definition CxxTestTemplate_generate (target : MappedTarget) : string :=
  let result := "cxx_test(" +:+ nl in
  let result := result +:+ "    name = " +:+ dq +:+ name target +:+ dq +:+ "," +:+ nl in
  let result :=
    if negb (is_empty (srcs target))
    then result +:+ "    srcs = [" +:+ quoted_items (srcs target) +:+ "]," +:+ nl
    else result in
  let result :=
    if negb (is_empty (headers target))
    then result +:+ "    headers = [" +:+ quoted_items (headers target) +:+ "]," +:+ nl
    else result in
  let result :=
    if negb (is_empty (deps target))
    then result +:+ "    deps = [" +:+ quoted_items (deps target) +:+ "]," +:+ nl
    else result in
  let result := result +:+ property_lines (properties target) in
  result +:+ ")".

(** [TemplateRegistry::get_template] on the registry that
    [register_default_templates] fills: the [generate] of the template, or
    [None] for the null pointer *)
Definition get_template (type : Buck2RuleType) : option (MappedTarget -> string) :=
  match type with
  | CxxLibrary => Some CxxLibraryTemplate_generate
  | CxxBinary => Some CxxBinaryTemplate_generate
  | CxxTest => Some CxxTestTemplate_generate
  | FileGroup | PrebuiltCxxLibrary | HttpArchive | Unknown => None
  end.

(** *** [StarlarkWriter]

    [content_order_] is written and never read; it is left out. *)

Record StarlarkWriter := {
  load_statements_ : list string;
  variable_defs_ : list string;
  rules_ : list string;
  format_output_ : bool
}.

Definition new_writer (format_output : bool) : StarlarkWriter :=
  {| load_statements_ := []; variable_defs_ := []; rules_ := [];
     format_output_ := format_output |}.

(** [StarlarkWriter::quote_string] *)
Definition quote_string (str : string) : string := dq +:+ str +:+ dq.

(** [StarlarkWriter::format_load_statement] *)
Definition format_load_statement (file : string) (symbols : list string) : string :=
  "load(" +:+ quote_string file +:+ ", " +:+ quoted_items symbols +:+ ")".

(** [StarlarkWriter::add_load] *)
Definition add_load (file : string) (symbols : list string) (w : StarlarkWriter)
  : StarlarkWriter :=
  {| load_statements_ := load_statements_ w ++ [format_load_statement file symbols];
     variable_defs_ := variable_defs_ w; rules_ := rules_ w;
     format_output_ := format_output_ w |}.

(** [StarlarkWriter::add_rule] *)
Definition add_rule (rule_text : string) (w : StarlarkWriter) : StarlarkWriter :=
  {| load_statements_ := load_statements_ w; variable_defs_ := variable_defs_ w;
     rules_ := rules_ w ++ [rule_text]; format_output_ := format_output_ w |}.

(** [StarlarkWriter::add_variable] *)
Definition add_variable (name value : string) (w : StarlarkWriter) : StarlarkWriter :=
  {| load_statements_ := load_statements_ w;
     variable_defs_ := variable_defs_ w ++ [name +:+ " = " +:+ value];
     rules_ := rules_ w; format_output_ := format_output_ w |}.

(** [StarlarkWriter::add_comment] *)
Definition add_comment (comment : string) (w : StarlarkWriter) : StarlarkWriter :=
  add_rule ("# " +:+ comment) w.

(** [StarlarkWriter::add_blank_line] *)
Definition add_blank_line (w : StarlarkWriter) : StarlarkWriter := add_rule "" w.

(** [while (!line.empty() && std::isspace(line.back())) line.pop_back();] *)
Fixpoint strip_trailing_space (line : string) : string :=
  match line with
  | EmptyString => EmptyString
  | String c rest =>
      let rest := strip_trailing_space rest in
      if String.eqb rest "" && CType.isspace c then EmptyString else String c rest
  end.

(** the loop [while (std::getline(input, line))] of [format_starlark] over
    what is left of the stream, [line] being what has been read since the
    last line break; a line break follows every line but one that ends with
    the stream *)
Fixpoint format_lines (code : string) (line : string) : string :=
  match code with
  | EmptyString => if String.eqb line "" then "" else strip_trailing_space line
  | String c rest =>
      if Ascii.eqb c (ascii_of_nat 10)
      then strip_trailing_space line +:+ nl +:+ format_lines rest ""
      else format_lines rest (line +:+ String c "")
  end.

(** [StarlarkWriter::format_starlark] *)
Definition format_starlark (w : StarlarkWriter) (code : string) : string :=
  if negb (format_output_ w) then code else format_lines code "".

Definition is_comment (rule : string) : bool :=
  match rule with
  | String c _ => Ascii.eqb c "#"
  | EmptyString => false
  end.

Definition is_rule_text (rule : string) : bool :=
  negb (String.eqb rule "") && negb (is_comment rule).

(** the loop over [rules_] of [StarlarkWriter::generate] *)
Fixpoint rules_text (w : StarlarkWriter) (rules : list string) : string :=
  match rules with
  | [] => ""
  | rule :: rest =>
      (if String.eqb rule "" then nl
       else if is_comment rule then rule +:+ nl
       else (if format_output_ w then format_starlark w rule else rule) +:+ nl)
      +:+ (match rest with
           | next :: _ => if is_rule_text rule && is_rule_text next then nl else ""
           | [] => ""
           end)
      +:+ rules_text w rest
  end.

Fixpoint lines_of (items : list string) : string :=
  match items with
  | [] => ""
  | item :: rest => item +:+ nl +:+ lines_of rest
  end.

(** [StarlarkWriter::generate] *)
Definition generate (w : StarlarkWriter) : string :=
  lines_of (load_statements_ w)
  +:+ (if negb (is_empty (load_statements_ w))
          && (negb (is_empty (variable_defs_ w)) || negb (is_empty (rules_ w)))
       then nl else "")
  +:+ lines_of (variable_defs_ w)
  +:+ (if negb (is_empty (variable_defs_ w)) && negb (is_empty (rules_ w)) then nl else "")
  +:+ rules_text w (rules_ w).

(** *** [Generator::generate_buck_file] *)

(** [std::set<std::string>::insert]: the elements in ascending order, each
    once *)
Fixpoint set_insert (x : string) (l : list string) : list string :=
  match l with
  | [] => [x]
  | y :: rest =>
      match String.compare x y with
      | Lt => x :: l
      | Eq => l
      | Gt => y :: set_insert x rest
      end
  end.

(** the first loop: the symbols to load *)
Fixpoint needed_symbols_loop (targets : list Target) (needed_symbols : list string)
  : Result (list string) GenerationError :=
  match targets with
  | [] => Ok needed_symbols
  | target :: rest =>
      match map_cmake_target target with
      | Err e => Err e
      | Ok mapped =>
          needed_symbols_loop rest
            match rule_type mapped with
            | CxxLibrary => set_insert "cxx_library" needed_symbols
            | CxxBinary => set_insert "cxx_binary" needed_symbols
            | CxxTest => set_insert "cxx_test" needed_symbols
            | _ => needed_symbols
            end
      end
  end.

(** the second loop: a rule for each target *)
Fixpoint rules_loop (targets : list Target) (writer : StarlarkWriter)
  : Result StarlarkWriter GenerationError :=
  match targets with
  | [] => Ok writer
  | target :: rest =>
      match map_cmake_target target with
      | Err e => Err e
      | Ok mapped =>
          match get_template (rule_type mapped) with
          | None =>
              Err {| ge_category := MissingTemplate;
                     ge_message := "No template found for rule type" |}
          | Some rule_template => rules_loop rest (add_rule (rule_template mapped) writer)
          end
      end
  end.

Section WriteFile.
(** [Generator::write_file], which answers at once in a dry run and goes to
    the file system otherwise *)
Variable write_file : string -> string -> Result unit GenerationError.

(** [Generator::generate_buck_file] *)
Definition generate_buck_file (output_path : string) (targets : list Target)
  : Result unit GenerationError :=
  let writer := new_writer true in
  match needed_symbols_loop targets [] with
  | Err e => Err e
  | Ok needed_symbols =>
      let writer :=
        if negb (is_empty needed_symbols)
        then add_load "@prelude//cxx:cxx.bzl" needed_symbols writer
        else writer in
      let writer := add_blank_line writer in
      match rules_loop targets writer with
      | Err e => Err e
      | Ok writer => write_file output_path (generate writer)
      end
  end.

End WriteFile.

End Generation.

(** * Theorems *)

(** ** Name normalization *)

Section NormalizeTargetName.
Import TargetMapper.

Lemma normalize_char_valid c : target_name_char (normalize_char c) = true.
Proof.
  unfold normalize_char, target_name_char.
  destruct (CType.isalnum c) eqn:Ha; simpl.
  - now rewrite Ha.
  - destruct (Ascii.eqb c "_") eqn:Hu; simpl.
    + now rewrite Ha, Hu.
    + destruct (Ascii.eqb c "-") eqn:Hd; simpl.
      * rewrite Ha, Hu, Hd. reflexivity.
      * reflexivity.
Qed.

Lemma normalize_char_fixes_valid c :
  target_name_char c = true -> normalize_char c = c.
Proof.
  unfold normalize_char, target_name_char. intros H.
  destruct (CType.isalnum c); simpl in *; [reflexivity|].
  destruct (Ascii.eqb c "_"); simpl in *; [reflexivity|].
  now rewrite H.
Qed.

Lemma map_normalize_valid s :
  Forall (fun c => target_name_char c = true) (Str.to_list (Str.map normalize_char s)).
Proof.
  induction s as [|c s IH]; simpl; constructor; auto using normalize_char_valid.
Qed.

Lemma map_normalize_fixes_valid s :
  Forall (fun c => target_name_char c = true) (Str.to_list s) ->
  Str.map normalize_char s = s.
Proof.
  induction s as [|c s IH]; simpl; intros H; [reflexivity|].
  inversion H; subst. rewrite normalize_char_fixes_valid by assumption.
  now rewrite IH.
Qed.

Lemma normalize_output_valid s :
  Forall (fun c => target_name_char c = true) (Str.to_list (normalize_target_name s)).
Proof.
  unfold normalize_target_name.
  pose proof (map_normalize_valid s) as H.
  destruct (Str.map normalize_char s) as [|c0 r] eqn:E; [constructor|].
  destruct (CType.isdigit c0); [|exact H].
  simpl. repeat (constructor; [reflexivity|]). exact H.
Qed.

Lemma normalize_output_no_digit s :
  starts_with_digit (normalize_target_name s) = false.
Proof.
  unfold normalize_target_name.
  destruct (Str.map normalize_char s) as [|c0 r] eqn:E; [reflexivity|].
  destruct (CType.isdigit c0) eqn:D; simpl; [reflexivity | exact D].
Qed.

(** C8: [normalize_target_name] is idempotent, its output consists of
    characters of [A-Za-z0-9_-] only, and it never starts with a digit. *)
Theorem normalize_target_name_idempotent_valid (s : string) :
  normalize_target_name (normalize_target_name s) = normalize_target_name s
  /\ Forall (fun c => target_name_char c = true) (Str.to_list (normalize_target_name s))
  /\ starts_with_digit (normalize_target_name s) = false.
Proof.
  split; [|split; [apply normalize_output_valid | apply normalize_output_no_digit]].
  pose proof (normalize_output_valid s) as Hv.
  pose proof (normalize_output_no_digit s) as Hd.
  set (t := normalize_target_name s) in *.
  unfold normalize_target_name at 1.
  rewrite (map_normalize_fixes_valid t Hv).
  destruct t as [|c0 r]; [reflexivity|].
  simpl in Hd. now rewrite Hd.
Qed.

End NormalizeTargetName.

(** ** The cxx_library template *)

Section CxxLibraryHeaders.
Import TargetMapper RuleTemplates.

Lemma string_app_assoc (a b c : string) : (a +:+ b) +:+ c = a +:+ (b +:+ c).
Proof. induction a as [|x a IH]; simpl; [reflexivity | now rewrite IH]. Qed.

Lemma has_part_app_r needle hay tail :
  Str.has_part needle hay -> Str.has_part needle (hay +:+ tail).
Proof.
  intros (b & a & ->). exists b, (a +:+ tail).
  rewrite !string_app_assoc. reflexivity.
Qed.

Lemma has_part_suffix needle before :
  Str.has_part needle (before +:+ needle).
Proof.
  exists before, "". f_equal.
  induction needle as [|x n IH]; simpl; [reflexivity | now rewrite <- IH].
Qed.

(** C9: the text generated for a cxx_library always carries the glob line for
    headers, whether the header list is empty or not, and the header list has
    no influence on the text at all: its file names are not written out. *)
Theorem cxx_library_headers_always_glob (target : MappedTarget) :
  Str.has_part headers_glob_line (CxxLibraryTemplate_generate target)
  /\ forall hs, CxxLibraryTemplate_generate (with_headers hs target)
                = CxxLibraryTemplate_generate target.
Proof.
  split.
  - unfold CxxLibraryTemplate_generate.
    repeat apply has_part_app_r.
    destruct (negb (is_empty (deps target))).
    + repeat apply has_part_app_r.
      destruct (negb (is_empty (headers target))); apply has_part_suffix.
    + repeat apply has_part_app_r.
      destruct (negb (is_empty (headers target))); apply has_part_suffix.
  - intros hs. unfold CxxLibraryTemplate_generate, with_headers; simpl.
    destruct (negb (is_empty hs)), (negb (is_empty (headers target))); reflexivity.
Qed.

End CxxLibraryHeaders.

(** ** The CPM shorthand *)

Section CPMShorthand.
Context {R : Runtime}.
Import Regex Ast CPMParser.

Example github_shorthand_groups :
  parse_github_shorthand "gh:fmtlib/fmt@10.0.0" = Ok ("fmtlib/fmt", "10.0.0").
Proof. reflexivity. Qed.

Example version_with_at_sign_is_exact :
  parse_version_string "@10.0.0"
  = Ok {| version := "10.0.0"; exact := true; git_tag := "" |}.
Proof. reflexivity. Qed.

(** C3: [CPMAddPackage("gh:fmtlib/fmt@10.0.0")] gives name fmt, source kind
    GitHub, source fmtlib/fmt and version 10.0.0, but the version is not
    marked exact: the shorthand pattern has already taken the [@] away when
    [parse_version_string] looks for it. *)
Theorem cpm_shorthand_version_not_exact :
  parse_cpm_command "CPMAddPackage" [StringLiteral "gh:fmtlib/fmt@10.0.0" true]
  = Ok (CPMAddPackage
          {| add_name := "fmt";
             add_source_type := Some GitHub;
             add_source := "fmtlib/fmt";
             add_version := Some {| version := "10.0.0"; exact := false; git_tag := "" |};
             add_options := ∅;
             add_find_package_fallback := true |}).
Proof. reflexivity. Qed.

End CPMShorthand.

(** ** Matches lie inside the text, and the interpolation loop has rounds enough *)

Section RegexBounds.
Import Regex.

Lemma plus_loop_inv {X} a consumed s (k : nat -> string -> option X) x :
  plus_loop a consumed s k = Some x ->
  exists n s',
    k n s' = Some x
    /\ (n + String.length s' = consumed + String.length s)%nat
    /\ (consumed <= n)%nat.
Proof.
  revert consumed. induction s as [|c s IH]; simpl; intros consumed H; [discriminate|].
  destruct (class_matches a c); [|discriminate].
  destruct (plus_loop a (S consumed) s k) as [y|] eqn:E.
  - injection H as ->. apply IH in E as (n & s' & Hk & Hlen & Hle).
    exists n, s'. split; [exact Hk|]. lia.
  - exists (S consumed), s. split; [exact H|]. lia.
Qed.

(** Whatever [run] hands to its continuation lies ahead of where it started
    and inside the text. *)
Lemma run_inv {X} (r : regex) :
  forall consumed s caps (k : nat -> string -> captures -> option X) x,
    run r consumed s caps k = Some x ->
    exists n s' caps',
      k n s' caps' = Some x
      /\ (n + String.length s' = consumed + String.length s)%nat
      /\ (consumed <= n)%nat.
Proof.
  induction r as [a|a|r1 IH1 r2 IH2|r IH|i r IH| | |]; simpl; intros consumed s caps k x H.
  - destruct s as [|c s]; [discriminate|].
    destruct (class_matches a c); [|discriminate].
    exists (S consumed), s, caps. split; [exact H|]. simpl. lia.
  - apply plus_loop_inv in H as (n & s' & Hk & Hlen & Hle).
    exists n, s', caps. auto.
  - apply IH1 in H as (n1 & s1 & caps1 & Hk1 & Hlen1 & Hle1).
    apply IH2 in Hk1 as (n2 & s2 & caps2 & Hk2 & Hlen2 & Hle2).
    exists n2, s2, caps2. split; [exact Hk2|]. lia.
  - destruct (run r consumed s caps k) as [y|] eqn:E.
    + injection H as ->. apply IH in E. exact E.
    + exists consumed, s, caps. split; [exact H|]. lia.
  - apply IH in H as (n & s' & caps' & Hk & Hlen & Hle).
    exists n, s', ((i, Str.take (n - consumed) s) :: caps'). auto.
  - destruct (consumed =? 0)%nat; [|discriminate].
    exists consumed, s, caps. split; [exact H|]. lia.
  - destruct s; [|discriminate].
    exists consumed, EmptyString, caps. split; [exact H|]. lia.
  - exists consumed, s, caps. split; [exact H|]. lia.
Qed.

Lemma search_at_bound (r : regex) (s : string) :
  forall skipped m,
    search_at r skipped s = Some m ->
    (skipped <= m_position m)%nat
    /\ (m_position m + m_length m <= skipped + String.length s)%nat.
Proof.
  induction s as [|c s IH]; intros skipped m; simpl.
  - destruct (run r skipped "" [] _) as [[stop caps]|] eqn:E; [|discriminate].
    intros H. injection H as <-. simpl.
    apply run_inv in E as (n & s' & caps' & Hk & Hlen & Hle).
    injection Hk as -> _. simpl in Hlen. lia.
  - destruct (run r skipped (String c s) [] _) as [[stop caps]|] eqn:E.
    + intros H. injection H as <-. simpl.
      apply run_inv in E as (n & s' & caps' & Hk & Hlen & Hle).
      injection Hk as -> _. simpl in Hlen. lia.
    + intros H. apply IH in H. lia.
Qed.

Lemma regex_search_bound (r : regex) (range : string) (m : match_results) :
  regex_search r range = Some m ->
  (m_position m + m_length m <= String.length range)%nat.
Proof. intros H. apply search_at_bound in H. lia. Qed.

Lemma drop_length (n : nat) (s : string) :
  String.length (Str.drop n s) = (String.length s - n)%nat.
Proof.
  revert n. induction s as [|c s IH]; intros [|n]; simpl; auto.
Qed.

End RegexBounds.

Section InterpolationRounds.
Context {R : Runtime}.
Import Regex Ast Analyzer Evaluator.

(** A round that goes on leaves the search inside the string. *)
Lemma interpolate_step_inside ctx str result start result' next :
  (start <= String.length str)%nat ->
  interpolate_step ctx str result start = Continue result' next ->
  (next <= String.length str)%nat.
Proof.
  intros Hstart. unfold interpolate_step.
  destruct (regex_search var_pattern (Str.drop start str)) as [m|] eqn:Em; [|discriminate].
  apply regex_search_bound in Em. rewrite drop_length in Em.
  destruct (expand_variable_reference ctx (sub_match 1 (m_captures m))) as [expanded|e].
  - destruct (String.length result <? m_position m + start)%nat; [discriminate|].
    destruct (String.length str <? m_position m + start + String.length expanded)%nat
      eqn:Hnext; [discriminate|].
    intros H. injection H as _ <-. apply Nat.ltb_ge in Hnext. exact Hnext.
  - intros H. injection H as _ <-. lia.
Qed.

(** The rounds that [interpolate_string] allows are never used up: more of
    them change nothing. So an interpolation is interrupted only by what is
    interrupted in the C++ loop as well. *)
Lemma interpolate_loop_rounds (rounds extra : nat) ctx str :
  forall result start,
    (start <= String.length str)%nat ->
    (String.length str - start < rounds)%nat ->
    interpolate_loop (rounds + extra) ctx str result start
    = interpolate_loop rounds ctx str result start.
Proof.
  induction rounds as [|n IH]; intros result start Hstart Hrounds; [lia|].
  simpl.
  destruct (interpolate_step ctx str result start) as [result' next|result'|why] eqn:E;
    try reflexivity.
  destruct (next <=? start)%nat eqn:Hnext; [reflexivity|].
  apply Nat.leb_gt in Hnext.
  pose proof (interpolate_step_inside _ _ _ _ _ _ Hstart E) as Hin.
  apply IH; lia.
Qed.

Lemma interpolate_string_rounds (extra : nat) ctx str :
  interpolate_loop (S (String.length str) + extra) ctx str str 0 = interpolate_string ctx str.
Proof. apply interpolate_loop_rounds; lia. Qed.

End InterpolationRounds.

(** ** The evaluator: what leaves the context alone *)

Section Preservation.
Context {R : Runtime}.
Import Regex Ast Analyzer Evaluator.

Lemma preserves_ret {A} (a : A) : preserves_context (ret a).
Proof. intros ctx. reflexivity. Qed.

Lemma preserves_bind {A B} (m : M A) (f : A -> M B) :
  preserves_context m -> (forall a, preserves_context (f a)) -> preserves_context (bind m f).
Proof.
  intros Hm Hf ctx. unfold bind. specialize (Hm ctx).
  destruct (m ctx) as [a ctx'|why]; [|exact I].
  subst ctx'. apply Hf.
Qed.

Lemma preserves_context_read : preserves_context context.
Proof. intros ctx. reflexivity. Qed.

Lemma preserves_string_literal s : preserves_context (visit_StringLiteral s).
Proof.
  intros ctx. unfold visit_StringLiteral.
  destruct (interpolate_string ctx s) as [[r|e]|why]; simpl; auto.
Qed.

Lemma preserves_variable name : preserves_context (visit_Variable name).
Proof.
  apply preserves_bind; [apply preserves_context_read|].
  intros ctx. destruct (get_variable ctx name); apply preserves_ret.
Qed.

Lemma preserves_evaluate_condition (c : Thunk) :
  preserves_context c -> preserves_context (evaluate_condition c).
Proof.
  intros Hc. apply preserves_bind; [exact Hc|].
  intros [v|e]; apply preserves_ret.
Qed.

Lemma preserves_evaluate_all (stmts : list Thunk) :
  Forall preserves_context stmts -> preserves_context (evaluate_all stmts).
Proof.
  induction 1 as [|s rest Hs _ IH]; simpl; [apply preserves_ret|].
  apply preserves_bind; auto.
Qed.

Lemma preserves_list_values_loop (items : list Thunk) acc c :
  Forall preserves_context items -> preserves_context (list_values_loop items acc c).
Proof.
  intros H. revert acc c.
  induction H as [|s rest Hs _ IH]; intros acc c; simpl; [apply preserves_ret|].
  apply preserves_bind; [exact Hs|].
  intros [v|e]; [apply IH | apply preserves_ret].
Qed.

Lemma preserves_elseif_body (branches : list Branch) :
  Forall (fun b => preserves_context (snd b)) branches ->
  preserves_context (evaluate_elseif_body branches).
Proof.
  induction 1 as [|[[c|] s] rest Hs _ IH]; simpl; try apply preserves_ret.
  apply preserves_bind; auto.
Qed.

Lemma preserves_elseif_loop (branches : list Branch) :
  Forall (fun b => preserves_context (snd b)
                   /\ match fst b with Some c => preserves_context c | None => True end)
         branches ->
  preserves_context (elseif_loop branches).
Proof.
  intros H.
  assert (Hbody : forall l : list Branch,
             Forall (fun b => preserves_context (snd b)
                   /\ match fst b with Some c => preserves_context c | None => True end) l ->
             preserves_context (evaluate_elseif_body l)).
  { intros l Hl. apply preserves_elseif_body.
    eapply Forall_impl; [exact Hl|]. simpl. tauto. }
  induction H as [|[[c|] s] rest [Hs Hc] Hrest IH]; simpl in *; try apply preserves_ret; auto.
  apply preserves_bind; [apply preserves_evaluate_condition; exact Hc|].
  intros [[|]|e]; auto.
  apply preserves_bind; [apply Hbody; exact Hrest|]. intros _. apply preserves_ret.
Qed.

Lemma list_all_Forall {A} (P : A -> Prop) (l : list A) : list_all A P l -> Forall P l.
Proof. induction 1; constructor; auto. Qed.

Lemma Forall_map_evaluate (P : Thunk -> Prop) (l : list ASTNode) :
  Forall (fun n => command_free n = true -> P (evaluate n)) l ->
  forallb command_free l = true ->
  Forall P (List.map evaluate l).
Proof.
  induction 1 as [|n rest Hn _ IH]; simpl; intros Hall; constructor.
  - apply Hn. apply andb_prop in Hall. tauto.
  - apply IH. apply andb_prop in Hall. tauto.
Qed.


(** Evaluation of a tree without commands returns the context as it was;
    so does the condition of an [ElseIfStatement] of that kind. *)
Lemma command_free_preserves_strong (node : ASTNode) :
  command_free node = true ->
  preserves_context (evaluate node)
  /\ match as_elseif node with
     | Some c => preserves_context (evaluate c)
     | None => True
     end.
Proof.
  induction node; simpl; intros Hfree;
    try discriminate;
    try (split; [apply preserves_ret | exact I]);
    try (apply list_all_Forall in X);
    try (apply list_all_Forall in X0);
    try (apply list_all_Forall in X1).
  - split; [apply preserves_string_literal | exact I].
  - split; [apply preserves_variable | exact I].
  - (* IfStatement *)
    split; [|exact I].
    repeat (apply andb_prop in Hfree; destruct Hfree as [Hfree ?]).
    unfold visit_IfStatement.
    apply preserves_bind; [apply preserves_evaluate_condition; apply IHnode; auto|].
    intros cond_result.
    apply preserves_bind; [|intros _; apply preserves_ret].
    destruct cond_result as [[|]|e]; [| |apply preserves_ret].
    + apply preserves_evaluate_all. apply Forall_map_evaluate; auto.
      eapply Forall_impl; [exact X|]. simpl. intros n Hn Hf. apply Hn, Hf.
    + apply preserves_bind.
      * apply preserves_elseif_loop.
        clear - X0 H0. induction X0 as [|n rest Hn _ IH]; simpl in *; constructor.
        -- apply andb_prop in H0. destruct H0 as [Hn' _]. simpl.
           destruct (Hn Hn') as [Ha Hb]. split; [exact Ha|].
           destruct n; simpl in *; auto.
        -- apply IH. apply andb_prop in H0. tauto.
      * intros b. destruct (negb b && _); [|apply preserves_ret].
        apply preserves_evaluate_all. apply Forall_map_evaluate; auto.
        eapply Forall_impl; [exact X1|]. simpl. intros n Hn Hf. apply Hn, Hf.
  - split; [apply preserves_ret|]. apply IHnode, Hfree.
  - split; [|exact I]. unfold visit_ListExpression. apply preserves_bind.
    + apply preserves_list_values_loop. apply Forall_map_evaluate; auto.
      eapply Forall_impl; [exact X|]. simpl. intros n Hn Hf. apply Hn, Hf.
    + intros r. apply preserves_ret.
  - split; [|exact I]. apply IHnode, Hfree.
  - split; [|exact I]. unfold visit_statements. apply preserves_bind.
    + apply preserves_evaluate_all. apply Forall_map_evaluate; auto.
      eapply Forall_impl; [exact X|]. simpl. intros n Hn Hf. apply Hn, Hf.
    + intros _. apply preserves_ret.
  - split; [|exact I]. unfold visit_statements. apply preserves_bind.
    + apply preserves_evaluate_all. apply Forall_map_evaluate; auto.
      eapply Forall_impl; [exact X|]. simpl. intros n Hn Hf. apply Hn, Hf.
    + intros _. apply preserves_ret.
Qed.

Lemma command_free_preserves (node : ASTNode) :
  command_free node = true -> preserves_context (evaluate node).
Proof. intros H. apply command_free_preserves_strong, H. Qed.

Lemma command_free_returns (node : ASTNode) (ctx ctx' : EvaluationContext) r :
  command_free node = true -> evaluate node ctx = Returns r ctx' -> ctx' = ctx.
Proof.
  intros Hfree Heval. pose proof (command_free_preserves node Hfree ctx) as H.
  rewrite Heval in H. exact H.
Qed.

End Preservation.

(** ** String literals and the [project] command *)

Section Literals.
Context {R : Runtime}.
Import Regex Ast Analyzer Evaluator.

Lemma interpolate_loop_never_fails rounds ctx str result start e :
  interpolate_loop rounds ctx str result start <> Interpolated (Err e).
Proof.
  revert result start.
  induction rounds as [|n IH]; intros result start; simpl; [discriminate|].
  destruct (interpolate_step ctx str result start) as [r next|r|why]; try discriminate.
  destruct (next <=? start)%nat; [discriminate | apply IH].
Qed.

(** C4: the string literal [lib_${PREFIX}], evaluated where PREFIX is bound
    nowhere, keeps its text but comes back with confidence Certain; and no
    string literal at all ever comes back with another confidence, because
    [interpolate_string] has no failing result and the branch of
    [visit(StringLiteral)] that answers Uncertain is never taken. *)
Theorem string_literal_unresolved_stays_certain :
  (let ctx := new_file_evaluator OtherUnix in
   get_variable ctx "PREFIX" = None
   /\ get_cache_variable ctx "PREFIX" = None
   /\ match evaluate (StringLiteral "lib_${PREFIX}" false) ctx with
      | Returns r _ => r = evaluated (VString "lib_${PREFIX}") Certain
      | Stops _ => False
      end)
  /\ forall (s : string) (q : bool) (ctx : EvaluationContext),
       match evaluate (StringLiteral s q) ctx with
       | Returns (Ok r) ctx' => confidence r = Certain /\ ctx' = ctx
       | Returns (Err _) _ => False
       | Stops _ => True
       end.
Proof.
  split.
  - vm_compute. auto.
  - intros s q ctx. simpl. unfold visit_StringLiteral, interpolate_string.
    pose proof (interpolate_loop_never_fails (S (String.length s)) ctx s s 0) as H.
    destruct (interpolate_loop _ ctx s s 0) as [[r|e]|why]; simpl; auto.
    exfalso. eapply H; reflexivity.
Qed.

(** C1: [project(simple-library VERSION 1.0.0)] gives an analysis whose
    project name is simple-library and whose project version is empty; in
    general [project(name VERSION v)] binds PROJECT_NAME and
    CMAKE_PROJECT_NAME at Certain confidence and leaves PROJECT_VERSION as the
    evaluation of its first argument left it: the arguments after the first
    are not even evaluated. *)
Theorem project_version_not_recorded :
  match analyze (File "CMakeLists.txt"
                   [CommandCall "project"
                      [StringLiteral "simple-library" false; StringLiteral "VERSION" false;
                       StringLiteral "1.0.0" false]])
                (new_file_evaluator OtherUnix) with
  | Returns (Ok analysis) _ =>
      project_name analysis = "simple-library" /\ project_version analysis = ""
  | _ => False
  end
  /\ forall (name_arg keyword version_arg : ASTNode) (ctx : EvaluationContext),
       match evaluate name_arg ctx,
             evaluate (CommandCall "project" [name_arg; keyword; version_arg]) ctx with
       | Returns name_result c1, Returns r ctx' =>
           r = evaluated (VString "") Certain
           /\ get_variable ctx' "PROJECT_VERSION" = get_variable c1 "PROJECT_VERSION"
           /\ match name_result with
              | Ok v =>
                  let name := {| value := VString (to_string (value v));
                                 confidence := Certain |} in
                  get_variable ctx' "PROJECT_NAME" = Some name
                  /\ get_variable ctx' "CMAKE_PROJECT_NAME" = Some name
              | Err _ => ctx' = c1
              end
       | Stops _, Stops _ => True
       | _, _ => False
       end.
Proof.
  split.
  - vm_compute. auto.
  - intros n k v ctx.
    change (evaluate (CommandCall "project" [n; k; v]))
      with (evaluate_project_command [evaluate n; evaluate k; evaluate v]).
    unfold evaluate_project_command, evaluate_at; simpl.
    unfold bind, ret, update, nothing.
    destruct (evaluate n ctx) as [[nv|e] c1|why]; simpl; auto.
    split; [reflexivity|].
    destruct c1; simpl.
    split; [|split].
    + rewrite !lookup_insert_ne by discriminate. reflexivity.
    + rewrite lookup_insert_ne by discriminate. rewrite lookup_insert_eq. reflexivity.
    + rewrite lookup_insert_eq. reflexivity.
Qed.

End Literals.

(** ** The [option] command *)

Section OptionCommand.
Context {R : Runtime}.
Import Regex Ast Analyzer Evaluator.

Lemma get_variable_unfold (ctx : EvaluationContext) name :
  get_variable ctx name =
  match variables_ ctx !! name with
  | Some v => Some v
  | None => match parent_ ctx with Some p => get_variable p name | None => None end
  end.
Proof. destruct ctx; reflexivity. Qed.

Lemma get_variable_set_cache name v c ctx x :
  get_variable (set_cache_variable name v c ctx) x = get_variable ctx x.
Proof. rewrite !get_variable_unfold. reflexivity. Qed.

(** C6: if the first argument of [option(NAME "desc" DEFAULT)] evaluates to a
    name, leaving context [c1], and the last argument then evaluates, leaving
    [c2], the command returns an empty Certain value in the context [c2] with
    one change: the cache variable NAME is bound, with confidence Uncertain,
    to "ON" if the default came out as a value whose text is one of ON, TRUE,
    YES, 1, and to "OFF" if it did not (another text, or an error). The
    regular variables (map and lookup), the other cache variables, the
    platform checks, the targets and the parent are those of [c2], and [c2]
    is the context the command started in whenever the two arguments contain
    no command. The description is not evaluated. *)
Theorem option_binds_cache_variable
  (name_arg description default_arg : ASTNode) (ctx c1 c2 : EvaluationContext)
  (name_value : EvaluatedValue) (default_result : EvalResult) :
  evaluate name_arg ctx = Returns (Ok name_value) c1 ->
  evaluate default_arg c1 = Returns default_result c2 ->
  let NAME := to_string (value name_value) in
  let default_is_on :=
    exists v, default_result = Ok v
              /\ In (to_string (value v)) ["ON"; "TRUE"; "YES"; "1"] in
  exists ctx' setting,
    evaluate (CommandCall "option" [name_arg; description; default_arg]) ctx
    = Returns (evaluated (VString "") Certain) ctx'
    /\ get_cache_variable ctx' NAME
       = Some {| value := VString setting; confidence := Uncertain |}
    /\ (default_is_on -> setting = "ON")
    /\ (~ default_is_on -> setting = "OFF")
    /\ variables_ ctx' = variables_ c2
    /\ (forall x, get_variable ctx' x = get_variable c2 x)
    /\ (forall x, x <> NAME -> get_cache_variable ctx' x = get_cache_variable c2 x)
    /\ platform_checks_ ctx' = platform_checks_ c2
    /\ targets_ ctx' = targets_ c2
    /\ parent_ ctx' = parent_ c2
    /\ (command_free name_arg = true -> command_free default_arg = true -> c2 = ctx).
Proof.
  intros En Ed NAME default_is_on.
  set (on := match default_result with
             | Ok v => is_on_word (to_string (value v))
             | Err _ => false
             end).
  assert (Hon : on = true <-> default_is_on).
  { subst on default_is_on. destruct default_result as [v|e].
    - unfold is_on_word. rewrite !orb_true_iff, !String.eqb_eq. cbn [In]. split.
      + intros H. exists v. split; [reflexivity|]. intuition congruence.
      + intros (v' & Heq & H). injection Heq as <-. intuition congruence.
    - split; [discriminate|]. intros (v & Heq & _). discriminate. }
  exists (set_cache_variable NAME (VString (if on then "ON" else "OFF")) Uncertain c2),
         (if on then "ON" else "OFF").
  split.
  - change (evaluate (CommandCall "option" [name_arg; description; default_arg]))
      with (evaluate_option_command
              [evaluate name_arg; evaluate description; evaluate default_arg]).
    unfold evaluate_option_command, evaluate_at; simpl.
    unfold bind. rewrite En. rewrite Ed.
    subst on NAME.
    destruct default_result as [v|e]; simpl.
    + destruct (is_on_word _); reflexivity.
    + reflexivity.
  - repeat match goal with |- _ /\ _ => split end; try reflexivity.
    + unfold get_cache_variable, set_cache_variable; simpl. apply lookup_insert_eq.
    + intros H. apply Hon in H. now rewrite H.
    + intros H. destruct on; [|reflexivity]. exfalso. apply H, Hon. reflexivity.
    + intros x. apply get_variable_set_cache.
    + intros x Hx. unfold get_cache_variable, set_cache_variable; simpl.
      apply lookup_insert_ne. congruence.
    + intros Hn Hd.
      pose proof (command_free_returns _ _ _ _ Hn En) as ->.
      exact (command_free_returns _ _ _ _ Hd Ed).
Qed.

End OptionCommand.

Lemma option_binds_cache_variable_witness :
  let R := ExampleRuntime.example_runtime in
  let ctx := Evaluator.new_file_evaluator Analyzer.OtherUnix in
  let option_with (default_arg : Ast.ASTNode) :=
    Ast.CommandCall "option"
      [Ast.StringLiteral "ENABLE_TESTS" false; Ast.StringLiteral "Enable testing" true;
       default_arg] in
  let bound_to (default_arg : Ast.ASTNode) (setting : string) :=
    exists ctx',
      Evaluator.evaluate (option_with default_arg) ctx
      = Evaluator.Returns (Evaluator.evaluated (Analyzer.VString "") Analyzer.Certain) ctx'
      /\ Analyzer.get_cache_variable ctx' "ENABLE_TESTS"
         = Some {| Analyzer.value := Analyzer.VString setting;
                   Analyzer.confidence := Analyzer.Uncertain |}
      /\ Analyzer.variables_ ctx' = Analyzer.variables_ ctx
      /\ (forall x, Analyzer.get_variable ctx' x = Analyzer.get_variable ctx x)
      /\ (forall x, x <> "ENABLE_TESTS" ->
                    Analyzer.get_cache_variable ctx' x = Analyzer.get_cache_variable ctx x)
      /\ Analyzer.platform_checks_ ctx' = Analyzer.platform_checks_ ctx
      /\ Analyzer.targets_ ctx' = Analyzer.targets_ ctx
      /\ Analyzer.parent_ ctx' = Analyzer.parent_ ctx in
  bound_to (Ast.BooleanLiteral true "ON") "ON"
  /\ bound_to (Ast.StringLiteral "YES" false) "ON"
  /\ bound_to (Ast.BooleanLiteral false "OFF") "OFF"
  /\ bound_to (Ast.StringLiteral "d" false) "OFF".
Proof.
  intros R ctx option_with bound_to.
  assert (Hname : Evaluator.evaluate (Ast.StringLiteral "ENABLE_TESTS" false) ctx
                  = Evaluator.Returns
                      (Ok {| Analyzer.value := Analyzer.VString "ENABLE_TESTS";
                             Analyzer.confidence := Analyzer.Certain |}) ctx)
    by reflexivity.
  assert (Hcase : forall default_arg default_value setting,
             Evaluator.evaluate default_arg ctx
             = Evaluator.Returns (Evaluator.evaluated default_value Analyzer.Certain) ctx ->
             (setting = "ON"
              /\ In (Analyzer.to_string default_value) ["ON"; "TRUE"; "YES"; "1"])
             \/ (setting = "OFF"
                 /\ ~ In (Analyzer.to_string default_value) ["ON"; "TRUE"; "YES"; "1"]) ->
             bound_to default_arg setting).
  { intros default_arg default_value setting Hdefault Hsetting.
    destruct (option_binds_cache_variable
                (Ast.StringLiteral "ENABLE_TESTS" false)
                (Ast.StringLiteral "Enable testing" true) default_arg ctx ctx ctx
                {| Analyzer.value := Analyzer.VString "ENABLE_TESTS";
                   Analyzer.confidence := Analyzer.Certain |}
                (Evaluator.evaluated default_value Analyzer.Certain) Hname Hdefault)
      as (ctx' & setting' & Heval & Hcache & Hon & Hoff & Hrest).
    assert (Hsame : setting' = setting).
    { destruct Hsetting as [[-> Hin]|[-> Hout]].
      - apply Hon. eexists. split; [reflexivity | exact Hin].
      - apply Hoff. intros (v & Heq & Hin). injection Heq as <-. exact (Hout Hin). }
    subst setting'. exists ctx'.
    destruct Hrest as (H1 & H2 & H3 & H4 & H5 & H6 & _).
    repeat split; assumption. }
  repeat split.
  - apply (Hcase _ (Analyzer.VBool true)); [reflexivity|]. left. simpl. tauto.
  - apply (Hcase _ (Analyzer.VString "YES")); [reflexivity|]. left. simpl. tauto.
  - apply (Hcase _ (Analyzer.VBool false)); [reflexivity|]. right.
    split; [reflexivity|]. simpl. intuition discriminate.
  - apply (Hcase _ (Analyzer.VString "d")); [reflexivity|]. right.
    split; [reflexivity|]. simpl. intuition discriminate.
Defined.

(** ** The [if] statement *)

Section IfStatements.
Context {R : Runtime}.
Import Regex Ast Analyzer Evaluator.

Notation "'let*' x := m 'in' k" := (bind m (fun x => k))
  (at level 10, x name, m at level 100, k at level 200).
Notation "m >> k" := (bind m (fun _ => k)) (at level 65, right associativity).

Lemma evaluate_if_unfold c t ei el :
  evaluate (IfStatement c t ei el)
  = visit_IfStatement (evaluate c) (List.map evaluate t) (List.map branch_of ei)
      (List.map evaluate el).
Proof. reflexivity. Qed.

Lemma evaluate_block_unfold stmts :
  evaluate (Block stmts) = visit_statements (List.map evaluate stmts).
Proof. reflexivity. Qed.

Lemma elseif_body_is_body_of (branches : list ASTNode) :
  evaluate_elseif_body (List.map branch_of branches)
  = evaluate_all (List.map evaluate (body_of branches)).
Proof.
  induction branches as [|n rest IH]; [reflexivity|].
  destruct n; simpl; try (rewrite IH; reflexivity); reflexivity.
Qed.

Lemma condition_of_command_free (c : ASTNode) (ctx : EvaluationContext) :
  command_free c = true ->
  (exists r, evaluate_condition (evaluate c) ctx = Returns r ctx)
  \/ (exists why, evaluate_condition (evaluate c) ctx = Stops why).
Proof.
  intros Hfree.
  pose proof (preserves_evaluate_condition _ (command_free_preserves c Hfree) ctx) as H.
  destruct (evaluate_condition (evaluate c) ctx) as [r ctx'|why]; [left|right]; eauto.
  subst ctx'. eauto.
Qed.

Lemma elseif_outcome_cons ctx (n : ASTNode) rest o :
  declined ctx n -> elseif_outcome ctx rest o -> elseif_outcome ctx (n :: rest) o.
Proof.
  intros Hn Ho. destruct Ho as [pre cnd rest Hpre Hc|branches Hall|pre cnd rest why Hpre Hc].
  - apply (elseif_taken ctx (n :: pre)); [constructor|]; assumption.
  - apply elseif_none. constructor; assumption.
  - apply (elseif_stops ctx (n :: pre)); [constructor|]; assumption.
Qed.

Lemma elseif_loop_step cnd rest ctx :
  elseif_loop (List.map branch_of (ElseIfStatement cnd :: rest)) ctx
  = match evaluate_condition (evaluate cnd) ctx with
    | Returns (Ok true) c1 =>
        (evaluate_all (List.map evaluate (body_of rest)) >> ret true) c1
    | Returns _ c1 => elseif_loop (List.map branch_of rest) c1
    | Stops why => Stops why
    end.
Proof.
  rewrite <- elseif_body_is_body_of.
  change (elseif_loop (List.map branch_of (ElseIfStatement cnd :: rest)) ctx)
    with ((let* elseif_cond := evaluate_condition (evaluate cnd) in
           match elseif_cond with
           | Ok true => evaluate_elseif_body (List.map branch_of rest) >> ret true
           | _ => elseif_loop (List.map branch_of rest)
           end) ctx).
  unfold bind at 1.
  destruct (evaluate_condition (evaluate cnd) ctx) as [[[|]|e] c1|why]; reflexivity.
Qed.

Lemma elseif_loop_skip n rest ctx :
  as_elseif n = None ->
  elseif_loop (List.map branch_of (n :: rest)) ctx
  = elseif_loop (List.map branch_of rest) ctx.
Proof. destruct n; simpl; intros E; try discriminate; reflexivity. Qed.

(** The loop over [elseif_branches()] goes one of the three ways. *)
Lemma elseif_loop_outcome (ei : list ASTNode) (ctx : EvaluationContext) :
  forallb elseif_condition_free ei = true ->
  elseif_outcome ctx ei (elseif_loop (List.map branch_of ei) ctx).
Proof.
  induction ei as [|n rest IH]; intros Hfree.
  - apply elseif_none. constructor.
  - simpl in Hfree. apply andb_prop in Hfree. destruct Hfree as [Hn Hrest].
    specialize (IH Hrest).
    destruct (as_elseif n) as [cnd|] eqn:En.
    + destruct n; try discriminate. simpl in En. injection En as ->.
      unfold elseif_condition_free in Hn; simpl in Hn.
      rewrite elseif_loop_step.
      destruct (condition_of_command_free cnd ctx Hn) as [[r Hr]|[why Hw]].
      * rewrite Hr.
        destruct r as [[|]|e].
        -- apply (elseif_taken ctx []); [constructor | assumption].
        -- apply elseif_outcome_cons; [|assumption].
           exists (Ok false). split; [assumption | discriminate].
        -- apply elseif_outcome_cons; [|assumption].
           exists (Err e). split; [assumption | discriminate].
      * rewrite Hw. apply (elseif_stops ctx []); [constructor | assumption].
    + rewrite (elseif_loop_skip _ _ _ En).
      apply elseif_outcome_cons; [|assumption].
      unfold declined. rewrite En. exact I.
Qed.

(** [visit(IfStatement)] by the outcome of its condition and of the loop
    over [elseif_branches()] *)
Lemma if_statement_step (c : ASTNode) (t ei el : list ASTNode) (ctx : EvaluationContext) :
  evaluate (IfStatement c t ei el) ctx
  = match evaluate_condition (evaluate c) ctx with
    | Returns (Ok true) c1 => evaluate (Block t) c1
    | Returns (Ok false) c1 =>
        match elseif_loop (List.map branch_of ei) c1 with
        | Returns true c2 => Returns (evaluated (VString "") Certain) c2
        | Returns false c2 => evaluate (Block el) c2
        | Stops why => Stops why
        end
    | Returns (Err _) c1 => Returns (evaluated (VString "") Certain) c1
    | Stops why => Stops why
    end.
Proof.
  rewrite evaluate_if_unfold, !evaluate_block_unfold.
  unfold visit_IfStatement, visit_statements, bind.
  destruct (evaluate_condition (evaluate c) ctx) as [[[|]|e] c1|why]; try reflexivity.
  destruct (elseif_loop (List.map branch_of ei) c1) as [[|] c2|why]; try reflexivity.
  destruct el; reflexivity.
Qed.

(** C5: an [if] statement acts on the context through its conditions and
    through the statements of one branch at most. If the condition is true,
    the statement comes to the same, result and context, as the block of the
    then-branch evaluated where the condition left off: no [elseif] body and
    no [else] statement is evaluated. If it is false the then-branch plays no
    part, the statement without it coming to the same; an [elseif] that is
    taken keeps the [else] branch from being evaluated. If the condition
    cannot be evaluated no branch is taken.

    Conditions that contain no command, as those of the parser, leave the
    context alone, and then the statement comes to the same as the block of
    the branch taken, from the context it started in: the then-branch, or the
    body after the first [elseif] whose condition is true, or the [else]
    branch if every [elseif] is declined. *)
Theorem if_statement_single_branch
  (c : ASTNode) (t ei el : list ASTNode) (ctx : EvaluationContext) :
  match evaluate_condition (evaluate c) ctx with
  | Returns (Ok true) c1 =>
      evaluate (IfStatement c t ei el) ctx = evaluate (Block t) c1
  | Returns (Ok false) c1 =>
      evaluate (IfStatement c t ei el) ctx = evaluate (IfStatement c [] ei el) ctx
      /\ match elseif_loop (List.map branch_of ei) c1 with
         | Returns true c2 =>
             evaluate (IfStatement c t ei el) ctx
             = Returns (evaluated (VString "") Certain) c2
         | Returns false c2 =>
             evaluate (IfStatement c t ei el) ctx = evaluate (Block el) c2
         | Stops why => evaluate (IfStatement c t ei el) ctx = Stops why
         end
  | Returns (Err _) c1 =>
      evaluate (IfStatement c t ei el) ctx = Returns (evaluated (VString "") Certain) c1
  | Stops why => evaluate (IfStatement c t ei el) ctx = Stops why
  end
  /\ (command_free c = true ->
      forallb elseif_condition_free ei = true ->
      match evaluate_condition (evaluate c) ctx with
      | Returns (Ok true) _ =>
          evaluate (IfStatement c t ei el) ctx = evaluate (Block t) ctx
      | Returns (Ok false) _ =>
          (exists pre cnd rest,
              ei = (pre ++ ElseIfStatement cnd :: rest)%list
              /\ Forall (declined ctx) pre
              /\ evaluate_condition (evaluate cnd) ctx = Returns (Ok true) ctx
              /\ evaluate (IfStatement c t ei el) ctx
                 = evaluate (Block (body_of rest)) ctx)
          \/ (Forall (declined ctx) ei
              /\ evaluate (IfStatement c t ei el) ctx = evaluate (Block el) ctx)
          \/ (exists pre cnd rest why,
                 ei = (pre ++ ElseIfStatement cnd :: rest)%list
                 /\ Forall (declined ctx) pre
                 /\ evaluate_condition (evaluate cnd) ctx = Stops why
                 /\ evaluate (IfStatement c t ei el) ctx = Stops why)
      | Returns (Err _) _ =>
          evaluate (IfStatement c t ei el) ctx
          = Returns (evaluated (VString "") Certain) ctx
      | Stops why => evaluate (IfStatement c t ei el) ctx = Stops why
      end).
Proof.
  split.
  - rewrite !if_statement_step.
    destruct (evaluate_condition (evaluate c) ctx) as [[[|]|e] c1|why]; try reflexivity.
    split; [reflexivity|].
    destruct (elseif_loop (List.map branch_of ei) c1) as [[|] c2|why]; reflexivity.
  - intros Hc Hei.
    rewrite !if_statement_step.
    destruct (condition_of_command_free c ctx Hc) as [[r Hr]|[why Hw]];
      [rewrite Hr | rewrite Hw; reflexivity].
    destruct r as [[|]|e]; [reflexivity| |reflexivity].
    pose proof (elseif_loop_outcome ei ctx Hei) as Ho.
    remember (elseif_loop (List.map branch_of ei) ctx) as o eqn:Eo.
    destruct Ho as [pre cnd rest Hpre Hcnd|branches Hall|pre cnd rest why Hpre Hcnd].
    + left. exists pre, cnd, rest.
      split; [reflexivity|]. split; [assumption|]. split; [assumption|].
      rewrite !evaluate_block_unfold. unfold visit_statements, bind, ret, nothing.
      destruct (evaluate_all (List.map evaluate (body_of rest)) ctx) as [u c2|why];
        reflexivity.
    + right; left. split; [assumption | reflexivity].
    + right; right. exists pre, cnd, rest, why.
      split; [reflexivity|]. split; [assumption|]. split; [assumption | reflexivity].
Qed.

End IfStatements.

Lemma if_statement_single_branch_witness :
  let R := ExampleRuntime.example_runtime in
  let ctx := Evaluator.new_file_evaluator Analyzer.OtherUnix in
  let c := Ast.BooleanLiteral true "ON" in
  let t := [Ast.CommandCall "set"
              [Ast.StringLiteral "LIB_TYPE" false; Ast.StringLiteral "SHARED" false]] in
  let ei := [Ast.ElseIfStatement (Ast.VariableRef "UNIX" Ast.Normal);
             Ast.CommandCall "set"
               [Ast.StringLiteral "LIB_TYPE" false; Ast.StringLiteral "MODULE" false]] in
  let el := [Ast.CommandCall "set"
               [Ast.StringLiteral "LIB_TYPE" false; Ast.StringLiteral "STATIC" false]] in
  Evaluator.command_free c = true
  /\ forallb Evaluator.elseif_condition_free ei = true
  /\ Evaluator.evaluate (Ast.IfStatement c t ei el) ctx
     = Evaluator.evaluate (Ast.Block t) ctx.
Proof.
  intros R ctx c t ei el.
  split; [reflexivity|]. split; [reflexivity|].
  exact (proj2 (if_statement_single_branch c t ei el ctx) eq_refl eq_refl).
Defined.

(** ** Platform conditions *)

Section PlatformBranching.
Context {R : Runtime}.
Import Regex Ast Analyzer Evaluator Lexer Parser.

Lemma bare_word_condition_is_true (ctx : EvaluationContext) :
  evaluate_condition (evaluate (StringLiteral "WIN32" false)) ctx = Returns (Ok true) ctx.
Proof. reflexivity. Qed.

(** On a Unix host the platform check, which no [visit] calls, answers false
    for WIN32, and a condition that is a reference to the variable WIN32 sends
    the [if] statement into its else-branch. *)
Example if_variable_reference_takes_else_branch :
  let ctx := new_file_evaluator OtherUnix in
  let set_lib_type v :=
    CommandCall "set" [StringLiteral "LIB_TYPE" false; StringLiteral v false] in
  match evaluate_platform_check "WIN32" ctx with
  | Returns r _ => r = Ok false
  | Stops _ => False
  end
  /\ match evaluate (IfStatement (VariableRef "WIN32" Normal) [set_lib_type "SHARED"] []
                       [set_lib_type "STATIC"]) ctx with
     | Returns _ ctx' =>
         get_variable ctx' "LIB_TYPE"
         = Some {| value := VString "STATIC"; confidence := Certain |}
     | Stops _ => False
     end.
Proof. vm_compute. auto. Qed.

(** From the text of the statement, written on one line, the parser builds
    the same condition. The arguments of [set] come out as one: the lexer hands
    out no Whitespace token to keep LIB_TYPE and SHARED apart, and
    [parse_unquoted_argument] gathers tokens up to the closing parenthesis.
    Neither [set] has then the two arguments it asks for, and LIB_TYPE is not
    bound in the end. *)
Example if_win32_from_source_text :
  let source := "if(WIN32) set(LIB_TYPE SHARED) else() set(LIB_TYPE STATIC) endif()" in
  let tokens := fst (tokenize source) in
  let tree :=
    File "CMakeLists.txt"
      [IfStatement (StringLiteral "WIN32" false)
         [CommandCall "set" [StringLiteral "LIB_TYPESHARED" false]] []
         [CommandCall "set" [StringLiteral "LIB_TYPESTATIC" false]]] in
  snd (tokenize source) = []
  /\ existsb (fun tok => TokenType_eqb (type tok) Whitespace) tokens = false
  /\ parser_of source = Some (new_parser tokens)
  /\ parse_file 4 "CMakeLists.txt" (new_parser tokens) = Some (Ok tree)
  /\ match evaluate tree (new_file_evaluator OtherUnix) with
     | Returns _ ctx' => get_variable ctx' "LIB_TYPE" = None
     | Stops _ => False
     end.
Proof. vm_compute. auto. Qed.

(** C2: in the root context of a Unix host WIN32 is bound to the empty
    string, which is falsy. The parser turns the condition of [if(WIN32)]
    into the string literal WIN32, not into a reference to the variable, and
    a string literal evaluates to its own text, which is truthy. So the [if]
    statement evaluates its then-branch, in every context, and LIB_TYPE ends
    up as SHARED with confidence Certain. *)
Theorem if_win32_takes_then_branch :
  let ctx := new_file_evaluator OtherUnix in
  let set_lib_type v :=
    CommandCall "set" [StringLiteral "LIB_TYPE" false; StringLiteral v false] in
  (get_variable ctx "WIN32" = Some {| value := VString ""; confidence := Certain |}
   /\ is_truthy (VString "") = false)
  /\ fst (parse_primary_expression (new_parser (fst (tokenize "WIN32)"))))
     = Ok (StringLiteral "WIN32" false)
  /\ parser_of "WIN32)" = Some (new_parser (fst (tokenize "WIN32)")))
  /\ match evaluate (IfStatement (StringLiteral "WIN32" false) [set_lib_type "SHARED"] []
                       [set_lib_type "STATIC"]) ctx with
     | Returns r ctx' =>
         r = evaluated (VString "") Certain
         /\ get_variable ctx' "LIB_TYPE"
            = Some {| value := VString "SHARED"; confidence := Certain |}
     | Stops _ => False
     end
  /\ forall (t ei el : list ASTNode) (c : EvaluationContext),
       evaluate (IfStatement (StringLiteral "WIN32" false) t ei el) c
       = evaluate (Block t) c.
Proof.
  cbv zeta. split; [|split; [|split; [|split]]].
  - vm_compute. auto.
  - vm_compute. reflexivity.
  - vm_compute. reflexivity.
  - vm_compute. auto.
  - intros t ei el c. rewrite if_statement_step.
    rewrite bare_word_condition_is_true. reflexivity.
Qed.

End PlatformBranching.
(** ** What the parser fetches from the lexer *)

Section Fetching.
Context {R : Runtime}.
Import Ast Lexer Parser ParserFacts.

Lemma set_own_current (p : Parser) : set_current (current_ p) p = p.
Proof. destruct p; reflexivity. Qed.

Lemma invalid_among_cons (tok : Token) (tokens : list Token) :
  invalid_among (tok :: tokens)
  = ((if TokenType_eqb (type tok) Invalid then 1 else 0) + invalid_among tokens)%nat.
Proof. unfold invalid_among. simpl. destruct (TokenType_eqb _ _); reflexivity. Qed.

(** What [rounds] rounds of the loop of [current] or [peek] do: so many
    tokens more are in the buffer, the errors that came with them have left
    the lexer, and they have been recorded if they were to be reported and
    the panic flag is down. *)
Lemma fetch_loop_effect (report : bool) (rounds : nat) :
  forall p,
    let k := invalid_among (take rounds (drop (fetched_ p) (token_buffer_ p))) in
    fetch_loop rounds report p
    = {| token_buffer_ := token_buffer_ p;
         fetched_ := fetched_ p + rounds;
         lexer_errors_ := drop k (lexer_errors_ p);
         current_ := current_ p;
         errors_ := errors_ p ++ (if report && negb (panic_mode_ p)
                                  then take k (lexer_errors_ p) else []);
         panic_mode_ := panic_mode_ p |}.
Proof.
  induction rounds as [|rounds IH]; intros p; cbv zeta.
  - destruct p as [buffer fetched pending cur errors panic]. cbn.
    rewrite Nat.add_0_r. destruct (report && negb panic); rewrite app_nil_r; reflexivity.
  - cbn [fetch_loop]. rewrite IH.
    destruct p as [buffer fetched pending cur errors panic].
    unfold fetch. cbn [token_buffer_ fetched_ lexer_errors_ current_ errors_ panic_mode_].
    destruct (buffer !! fetched) as [tok|] eqn:Htok.
    + rewrite (drop_S buffer tok fetched Htok). cbn [take]. rewrite invalid_among_cons.
      destruct (TokenType_eqb (type tok) Invalid), pending as [|e rest], report, panic;
        cbn; rewrite ?drop_nil, ?take_nil, ?app_nil_r, <- ?app_assoc;
        repeat f_equal; lia.
    + apply lookup_ge_None_1 in Htok.
      rewrite (drop_ge buffer fetched) by lia.
      destruct pending as [|e rest], report, panic; cbn;
        rewrite (drop_ge buffer (S fetched)) by lia; rewrite !take_nil; cbn;
        repeat f_equal; lia.
Qed.

Lemma fetch_set_current (report : bool) (i : nat) (p : Parser) :
  fetch report (set_current i p) = set_current i (fetch report p).
Proof.
  destruct p as [buffer fetched pending cur errors panic]. unfold fetch, set_current; cbn.
  destruct (buffer !! fetched) as [tok|]; [|reflexivity].
  destruct pending as [|e rest]; [reflexivity|].
  destruct (TokenType_eqb (type tok) Invalid); [|reflexivity].
  destruct report; [|reflexivity].
  unfold report_error; cbn. destruct panic; reflexivity.
Qed.

Lemma fetch_loop_set_current (report : bool) (i : nat) (rounds : nat) :
  forall p, fetch_loop rounds report (set_current i p)
            = set_current i (fetch_loop rounds report p).
Proof.
  induction rounds as [|rounds IH]; intros p; cbn [fetch_loop]; [reflexivity|].
  rewrite fetch_set_current. apply IH.
Qed.

Lemma fetch_loop_add (report : bool) (a b : nat) :
  forall p, fetch_loop (a + b) report p = fetch_loop b report (fetch_loop a report p).
Proof.
  induction a as [|a IH]; intros p; cbn [fetch_loop Nat.add]; [reflexivity|]. apply IH.
Qed.

(** [current()] leaves the tokens, the position and the panic flag alone *)
Lemma fetch_current_keeps (p : Parser) :
  token_buffer_ (fetch_current p) = token_buffer_ p
  /\ current_ (fetch_current p) = current_ p
  /\ panic_mode_ (fetch_current p) = panic_mode_ p
  /\ fetched_ (fetch_current p) = Nat.max (fetched_ p) (current_ p + 1).
Proof.
  unfold fetch_current, fetch_up_to. rewrite fetch_loop_effect.
  cbn [token_buffer_ current_ panic_mode_ fetched_]. repeat split. lia.
Qed.

Lemma current_fetch_current (p : Parser) : current (fetch_current p) = current p.
Proof.
  destruct (fetch_current_keeps p) as (Hb & Hc & _). unfold current. now rewrite Hb, Hc.
Qed.

Lemma check_fetch_current (ty : TokenType) (p : Parser) :
  check ty (fetch_current p) = check ty p.
Proof. unfold check. now rewrite current_fetch_current. Qed.

Lemma remaining_fetch_current (p : Parser) : remaining (fetch_current p) = remaining p.
Proof.
  destruct (fetch_current_keeps p) as (Hb & Hc & _). unfold remaining. now rewrite Hb, Hc.
Qed.

(** to ask for the token at [i] and then for the one at [j], further on, is to
    ask for the one at [j] *)
Lemma fetch_current_further (i j : nat) (p : Parser) :
  (i <= j)%nat ->
  fetch_current (set_current j (fetch_current (set_current i p)))
  = fetch_current (set_current j p).
Proof.
  intros Hij. unfold fetch_current, fetch_up_to.
  rewrite <- fetch_loop_set_current.
  assert (Hf : fetched_ (set_current j (fetch_loop
                 (current_ (set_current i p) + 0 + 1 - fetched_ (set_current i p)) true
                 (set_current i p)))
               = (fetched_ p + (i + 0 + 1 - fetched_ p))%nat).
  { rewrite fetch_loop_effect. reflexivity. }
  rewrite fetch_loop_set_current, Hf. rewrite <- fetch_loop_set_current.
  cbn [current_ set_current fetched_].
  replace (set_current j (set_current i p)) with (set_current j p)
    by (destruct p; reflexivity).
  rewrite <- fetch_loop_add. f_equal.
  rewrite fetch_loop_effect. cbn [current_ set_current]. lia.
Qed.

Lemma fetch_current_again (p : Parser) : fetch_current (fetch_current p) = fetch_current p.
Proof.
  pose proof (fetch_current_further (current_ p) (current_ p) p (Nat.le_refl _)) as H.
  rewrite set_own_current in H.
  destruct (fetch_current_keeps p) as (_ & Hc & _).
  rewrite <- Hc, set_own_current in H. exact H.
Qed.

(** what a call of [current()] does, in full *)
Lemma fetch_current_effect (p : Parser) :
  fetch_current p
  = {| token_buffer_ := token_buffer_ p;
       fetched_ := Nat.max (fetched_ p) (current_ p + 1);
       lexer_errors_ := drop (invalid_among (drawn (current_ p) p)) (lexer_errors_ p);
       current_ := current_ p;
       errors_ := errors_ p ++ (if panic_mode_ p then [] else drawn_errors (current_ p) p);
       panic_mode_ := panic_mode_ p |}.
Proof.
  unfold fetch_current, fetch_up_to. rewrite fetch_loop_effect. cbv zeta.
  unfold drawn_errors, drawn.
  replace (current_ p + 0 + 1 - fetched_ p)%nat with (S (current_ p) - fetched_ p)%nat by lia.
  destruct (panic_mode_ p); cbn [negb andb]; f_equal; lia.
Qed.

Lemma advance_before_eof (p : Parser) :
  check Eof p = false -> advance p = set_current (current_ p + 1) (fetch_current p).
Proof.
  intros H. unfold advance. cbv zeta. rewrite check_fetch_current, H. cbn [negb].
  cbn [current_ set_current].
  destruct (0 <? current_ (fetch_current p) + 1)%nat eqn:E.
  - destruct (fetch_current_keeps p) as (_ & Hc & _). now rewrite Hc.
  - apply Nat.ltb_ge in E. lia.
Qed.

End Fetching.

Section Scanning.
Context {R : Runtime}.
Import Ast Lexer Parser ParserFacts.

Lemma set_current_twice (i j : nat) (p : Parser) :
  set_current j (set_current i p) = set_current j p.
Proof. destruct p; reflexivity. Qed.

Lemma check_eof_past_the_end (p : Parser) :
  remaining p = 0%nat -> check Eof p = true.
Proof.
  unfold remaining, check, current. intros H.
  rewrite (lookup_ge_None_2 (token_buffer_ p) (current_ p)) by lia.
  reflexivity.
Qed.

Lemma remaining_before_eof (p : Parser) :
  check Eof p = false -> (0 < remaining p)%nat.
Proof.
  intros H. destruct (remaining p) eqn:E; [|lia].
  rewrite (check_eof_past_the_end p E) in H. discriminate.
Qed.

Lemma lookup_before_eof (p : Parser) :
  check Eof p = false -> token_buffer_ p !! current_ p = Some (current p).
Proof.
  unfold check, current. destruct (token_buffer_ p !! current_ p); [reflexivity|].
  discriminate.
Qed.

(** A loop that asks for the current token and advances while it is one to
    skip ends at the first token that is none; all it has done by then is to
    have asked for the tokens up to that one. *)
Lemma advance_while_stops (skip : TokenType -> bool) :
  skip Eof = false ->
  forall rounds p,
    (remaining p <= rounds)%nat ->
    exists k,
      advance_while rounds skip p = fetch_current (set_current k p)
      /\ (current_ p <= k)%nat
      /\ skip (type (current (set_current k p))) = false
      /\ forall i, (current_ p <= i < k)%nat ->
           exists tok, token_buffer_ p !! i = Some tok /\ skip (type tok) = true.
Proof.
  intros Hskip. induction rounds as [|rounds IH]; intros p Hrounds;
    cbn [advance_while]; cbv zeta.
  - exists (current_ p). rewrite set_own_current. repeat split; try lia.
    + unfold current. rewrite (lookup_ge_None_2 (token_buffer_ p) (current_ p)); [exact Hskip|].
      unfold remaining in Hrounds. lia.
  - rewrite current_fetch_current.
    destruct (skip (type (current p))) eqn:Hcur.
    + assert (Heof : check Eof p = false).
      { unfold check. destruct (type (current p)); try reflexivity. congruence. }
      rewrite advance_before_eof by (now rewrite check_fetch_current).
      rewrite fetch_current_again.
      destruct (fetch_current_keeps p) as (Hb & Hc & _). rewrite Hc.
      destruct (IH (set_current (current_ p + 1) (fetch_current p))) as (k & H1 & H2 & H3 & H4).
      { pose proof (remaining_before_eof p Heof). unfold remaining in *.
        cbn [set_current token_buffer_ current_]. rewrite Hb. lia. }
      cbn [set_current current_ token_buffer_] in H2, H4. rewrite Hb in H4.
      rewrite set_current_twice in H1, H3.
      exists k. split; [|split; [lia|split]].
      * rewrite H1. rewrite <- (set_own_current p) at 1.
        apply fetch_current_further. lia.
      * unfold current in *. cbn [set_current token_buffer_ current_] in *.
        now rewrite Hb in H3.
      * intros i Hi. destruct (Nat.eq_dec i (current_ p)) as [->|Hne].
        -- exists (current p). split; [apply lookup_before_eof, Heof | exact Hcur].
        -- apply H4. lia.
    + exists (current_ p). rewrite set_own_current. repeat split; try lia; assumption.
Qed.



End Scanning.

(** ** Recovery from a parse error *)

Section Recovery.
Context {R : Runtime}.
Import Ast Lexer Parser.

(** C7: after an error at the closing parenthesis of
    [) target_link_libraries(app m)], followed by a line with [set(X on)],
    [synchronize] does not stop at [target_link_libraries], the next token and
    a command name that begins with target_: it runs on over the newline and
    stops in front of [set]. The names it compares with are target_ and find_
    themselves. *)
Theorem synchronize_passes_target_commands :
  let source := ") target_link_libraries(app m)" +:+ String LF "set(X on)" in
  let tokens := fst (tokenize source) in
  let p := set_panic true (new_parser tokens) in
  text <$> tokens !! 1%nat = Some "target_link_libraries"
  /\ current_ (synchronize p) = 7%nat
  /\ text (current (synchronize p)) = "set"
  /\ parser_of source = Some (new_parser tokens)
  /\ errors_ (synchronize p) = []
  /\ is_statement_start "target_link_libraries" = false
  /\ is_statement_start "find_package" = false
  /\ is_statement_start "target_" = true
  /\ is_statement_start "find_" = true.
Proof. vm_compute. repeat split. Qed.

End Recovery.

(** ** Property setters on a target that does not exist *)

Section PropertySetters.
Context {R : Runtime}.
Import Regex Ast Analyzer Evaluator.

Lemma property_setter_dispatch (command : string) (args : list Thunk) :
  In command ["target_include_directories"; "target_link_libraries";
              "target_compile_definitions"] ->
  exists requires push,
    visit_CommandCall command args = evaluate_target_property_command requires push args.
Proof.
  intros [<-|[<-|[<-|[]]]]; eexists _, _; reflexivity.
Qed.

(** With the target alone the guard on the number of arguments answers with
    an error, whatever the command and the target are. *)
Lemma property_setter_needs_two_arguments (command : string) (target_arg : ASTNode)
  (ctx : EvaluationContext) :
  In command ["target_include_directories"; "target_link_libraries";
              "target_compile_definitions"] ->
  exists e, evaluate (CommandCall command [target_arg]) ctx = Returns (Err e) ctx.
Proof.
  intros [<-|[<-|[<-|[]]]]; eexists; reflexivity.
Qed.

(** C10, amended: a property setter with a target argument and at least one
    more argument, whose target argument evaluates to a name that no target
    of the context carries, returns the empty string with confidence Certain
    and no error, in the context that the evaluation of the target argument
    left, which is the context it started in if that argument contains no
    command. The other arguments are not evaluated. *)
Theorem property_setter_skips_unknown_target
  (command : string) (target_arg value_arg : ASTNode) (more : list ASTNode)
  (ctx c1 : EvaluationContext) (name_value : EvaluatedValue) :
  In command ["target_include_directories"; "target_link_libraries";
              "target_compile_definitions"] ->
  evaluate target_arg ctx = Returns (Ok name_value) c1 ->
  find_target (to_string (value name_value)) (get_targets c1) = None ->
  evaluate (CommandCall command (target_arg :: value_arg :: more)) ctx
  = Returns (evaluated (VString "") Certain) c1
  /\ (command_free target_arg = true -> c1 = ctx).
Proof.
  intros Hcommand Hname Hnone. split.
  - change (evaluate (CommandCall command (target_arg :: value_arg :: more)))
      with (visit_CommandCall command
              (evaluate target_arg :: evaluate value_arg :: List.map evaluate more)).
    destruct (property_setter_dispatch command
                (evaluate target_arg :: evaluate value_arg :: List.map evaluate more)
                Hcommand) as (requires & push & ->).
    unfold evaluate_target_property_command, evaluate_at; simpl.
    unfold bind at 1. rewrite Hname.
    unfold bind, context, nothing, ret. rewrite Hnone. reflexivity.
  - intros Hfree. exact (command_free_returns _ _ _ _ Hfree Hname).
Qed.

End PropertySetters.

(** C10 as stated fails: [target_link_libraries(ghost)], in a context without
    targets, returns an error and not an empty Certain value. *)
Lemma property_setter_without_values_is_refused :
  let R := ExampleRuntime.example_runtime in
  let ctx := Evaluator.new_file_evaluator Analyzer.OtherUnix in
  let refusal : Evaluator.EvalResult :=
    Err (analysis_error "target_link_libraries() requires target and libraries") in
  Evaluator.find_target "ghost" (Analyzer.get_targets ctx) = None
  /\ Evaluator.evaluate
       (Ast.CommandCall "target_link_libraries" [Ast.StringLiteral "ghost" false]) ctx
     = Evaluator.Returns refusal ctx
  /\ refusal <> Evaluator.evaluated (Analyzer.VString "") Analyzer.Certain.
Proof.
  intros R ctx refusal.
  split; [reflexivity|]. split; [reflexivity | discriminate].
Qed.

Lemma property_setter_skips_unknown_target_witness :
  let R := ExampleRuntime.example_runtime in
  let ctx := Evaluator.new_file_evaluator Analyzer.OtherUnix in
  Evaluator.evaluate
    (Ast.CommandCall "target_link_libraries"
       [Ast.StringLiteral "ghost" false; Ast.StringLiteral "m" false]) ctx
  = Evaluator.Returns (Evaluator.evaluated (Analyzer.VString "") Analyzer.Certain) ctx
  /\ (Evaluator.command_free (Ast.StringLiteral "ghost" false) = true -> ctx = ctx).
Proof.
  intros R ctx.
  refine (property_setter_skips_unknown_target
            "target_link_libraries" (Ast.StringLiteral "ghost" false)
            (Ast.StringLiteral "m" false) [] ctx ctx
            {| Analyzer.value := Analyzer.VString "ghost";
               Analyzer.confidence := Analyzer.Certain |} _ _ _).
  - simpl. tauto.
  - reflexivity.
  - reflexivity.
Defined.

(** ** What the parser builds for arguments and conditions

    The theorems on commands and on [if] statements ask for arguments and
    conditions without commands inside. The parser builds no others. *)

Section ParsedArguments.
Context {R : Runtime}.
Import Ast Evaluator Lexer Parser.

Lemma classify_unquoted_command_free (value : string) :
  command_free (classify_unquoted value) = true.
Proof.
  unfold classify_unquoted.
  destruct (_ || _); [reflexivity|].
  destruct (_ || _); [reflexivity|].
  destruct (CStdlib.strtol0 value) as [long_val read].
  destruct (read =? String.length value)%nat; [reflexivity|].
  destruct (_ =? _)%nat; reflexivity.
Qed.

Lemma forallb_snoc {A} (f : A -> bool) (l : list A) (x : A) :
  forallb f l = true -> f x = true -> forallb f (l ++ [x]) = true.
Proof. intros Hl Hx. rewrite forallb_app. simpl. rewrite Hl, Hx. reflexivity. Qed.

Lemma unquoted_tail_command_free (rounds : nat) :
  forall value parts p value' parts' p',
    forallb command_free parts = true ->
    unquoted_tail rounds value parts p = (value', parts', p') ->
    forallb command_free parts' = true.
Proof.
  induction rounds as [|n IH]; simpl; intros value parts p value' parts' p' Hparts H;
    set (q := fetch_current p) in H.
  - injection H as _ <- _. exact Hparts.
  - destruct (_ || _).
    + injection H as _ <- _. exact Hparts.
    + destruct (TokenType_eqb (type (current q)) TVariable).
      * eapply IH; [|exact H].
        assert (Hflush : forallb command_free
                           (if negb (String.eqb value "")
                            then parts ++ [StringLiteral value false] else parts) = true).
        { destruct (negb _); [apply forallb_snoc|]; auto. }
        destruct (get_string (current q)); [apply forallb_snoc|]; auto.
      * eapply IH; [exact Hparts | exact H].
Qed.

Lemma unquoted_loop_command_free (rounds : nat) :
  forall value has_content p node p',
    unquoted_loop rounds value has_content p = (Ok node, p') ->
    command_free node = true.
Proof.
  assert (Hfinish : forall value (has_content : bool) p node p',
             (if negb has_content
              then let '(e, p0) := error "Expected argument" p in (Err e, p0)
              else (Ok (classify_unquoted value), p)) = (Ok node, p') ->
             command_free node = true).
  { intros value [|] p node p'; simpl; intros H; [|discriminate].
    injection H as <- _. apply classify_unquoted_command_free. }
  induction rounds as [|n IH]; simpl; intros value has_content p node p' H;
    set (q := fetch_current p) in H.
  - eapply Hfinish, H.
  - destruct (_ || _); [eapply Hfinish, H|].
    destruct (_ || _); [eapply IH, H|].
    destruct (TokenType_eqb (type (current q)) TVariable); [|eapply IH, H].
    destruct (negb (String.eqb value "")).
    + destruct (unquoted_tail _ _ _ _) as [[value' parts'] p''] eqn:Etail.
      injection H as <- _. simpl.
      apply unquoted_tail_command_free in Etail.
      * destruct (negb _); [apply forallb_snoc|]; auto.
      * destruct (get_string (current q)); reflexivity.
    + destruct (get_string (current q)); [|discriminate].
      injection H as <- _. reflexivity.
Qed.

Lemma parse_unquoted_argument_command_free p node p' :
  parse_unquoted_argument p = (Ok node, p') -> command_free node = true.
Proof. apply unquoted_loop_command_free. Qed.

Lemma parse_quoted_argument_command_free p node p' :
  parse_quoted_argument p = (Ok node, p') -> command_free node = true.
Proof.
  unfold parse_quoted_argument. cbv zeta. set (q := fetch_current p).
  destruct (negb (check TString q)); [discriminate|].
  destruct (get_string (current q)) as [value|]; [|discriminate].
  destruct (has_interpolations value).
  - unfold parse_interpolated_string.
    set (nodes := List.map _ _).
    assert (Hnodes : forallb command_free nodes = true).
    { subst nodes. induction (interpolated_parts _ _ _) as [|[s|name] parts IH]; simpl; auto. }
    destruct nodes as [|single [|second more]]; intros H; injection H as <- _; auto.
    simpl in Hnodes. rewrite andb_true_r in Hnodes. exact Hnodes.
  - intros H. injection H as <- _. reflexivity.
Qed.

Lemma parse_bracket_argument_command_free p node p' :
  parse_bracket_argument p = (Ok node, p') -> command_free node = true.
Proof.
  unfold parse_bracket_argument.
  destruct (consume LeftBracket _ p) as [[u|e] p1]; [|discriminate].
  destruct (consume LeftBracket _ p1) as [[u'|e] p2]; [|discriminate].
  destruct (count_equals _ _ _) as [equals_count p3].
  destruct (bracket_content _ _ _ _) as [content p4].
  intros H. injection H as <- _. reflexivity.
Qed.

(** the conditions of [if], [elseif] and [while] *)
Lemma parse_expression_command_free p node p' :
  parse_expression p = (Ok node, p') -> command_free node = true.
Proof.
  unfold parse_expression, parse_primary_expression.
  destruct (check TVariable (skip_trivia p)).
  { destruct (get_string _); [|discriminate]. intros H. injection H as <- _. reflexivity. }
  destruct (check TString (skip_trivia p)); [apply parse_quoted_argument_command_free|].
  destruct (check TIdentifier (skip_trivia p)); [apply parse_unquoted_argument_command_free|].
  destruct (check TNumber (skip_trivia p)).
  { destruct (get_double _); [|discriminate].
    destruct (double_eqb _ _); intros H; injection H as <- _; reflexivity. }
  destruct (check TGeneratorExpr (skip_trivia p)); [|discriminate].
  destruct (get_string _); [|discriminate]. intros H. injection H as <- _. reflexivity.
Qed.

(** the arguments of a command *)
Lemma parse_argument_command_free p node p' :
  parse_argument p = (Ok node, p') -> command_free node = true.
Proof.
  unfold parse_argument. cbv zeta. set (q := fetch_current p).
  destruct (check TString q); [apply parse_quoted_argument_command_free|].
  destruct (check LeftBracket q); [|apply parse_unquoted_argument_command_free].
  destruct (TokenType_eqb _ _);
    [apply parse_bracket_argument_command_free | apply parse_expression_command_free].
Qed.

End ParsedArguments.

(** * Further properties of the code *)

(** ** The evaluation context: bindings and scopes *)

Section ContextBindings.
Context {R : Runtime}.
Import Ast Analyzer.

Lemma get_variable_here (ctx : EvaluationContext) name :
  get_variable ctx name =
  match variables_ ctx !! name with
  | Some v => Some v
  | None => match parent_ ctx with Some p => get_variable p name | None => None end
  end.
Proof. destruct ctx; reflexivity. Qed.

Lemma get_platform_check_here (ctx : EvaluationContext) name :
  get_platform_check ctx name =
  match platform_checks_ ctx !! name with
  | Some b => Some b
  | None => match parent_ ctx with Some p => get_platform_check p name | None => None end
  end.
Proof. destruct ctx; reflexivity. Qed.

(** X1: What is set is what is read back, under the same name and in the same
    kind of binding; every other name, and the bindings of the other kinds,
    read as before. Regular variables, cache variables and platform checks
    are three separate maps, and none of the setters touches the targets. *)
Theorem context_set_then_get
  (ctx : EvaluationContext) (name other : string) (v : Value) (c : Confidence) (b : bool) :
  (get_variable (set_variable name v c ctx) other
   = if String.eqb other name then Some {| value := v; confidence := c |}
     else get_variable ctx other)
  /\ (get_cache_variable (set_cache_variable name v c ctx) other
      = if String.eqb other name then Some {| value := v; confidence := c |}
        else get_cache_variable ctx other)
  /\ (get_platform_check (set_platform_check name b ctx) other
      = if String.eqb other name then Some b else get_platform_check ctx other)
  /\ get_cache_variable (set_variable name v c ctx) other = get_cache_variable ctx other
  /\ get_platform_check (set_variable name v c ctx) other = get_platform_check ctx other
  /\ get_variable (set_cache_variable name v c ctx) other = get_variable ctx other
  /\ get_platform_check (set_cache_variable name v c ctx) other
     = get_platform_check ctx other
  /\ get_variable (set_platform_check name b ctx) other = get_variable ctx other
  /\ get_cache_variable (set_platform_check name b ctx) other = get_cache_variable ctx other
  /\ get_targets (set_variable name v c ctx) = get_targets ctx
  /\ get_targets (set_cache_variable name v c ctx) = get_targets ctx
  /\ get_targets (set_platform_check name b ctx) = get_targets ctx.
Proof.
  rewrite !get_variable_here, !get_platform_check_here.
  unfold get_cache_variable, get_targets. simpl.
  destruct (String.eqb_spec other name) as [->|Hne].
  - rewrite !lookup_insert_eq. repeat split; reflexivity.
  - rewrite !lookup_insert_ne by congruence. repeat split; reflexivity.
Qed.

(** X2: A child scope reads the variables and the platform checks of the scope
    it was made from, but none of its cache variables and none of its
    targets. A variable set in the child hides the one of the parent. *)
Theorem child_scope_inherits_variables_only
  (ctx : EvaluationContext) (name other : string) (v : Value) (c : Confidence) :
  get_variable (create_child_scope ctx) other = get_variable ctx other
  /\ get_platform_check (create_child_scope ctx) other = get_platform_check ctx other
  /\ get_cache_variable (create_child_scope ctx) other = None
  /\ get_targets (create_child_scope ctx) = []
  /\ (get_variable (set_variable name v c (create_child_scope ctx)) other
      = if String.eqb other name then Some {| value := v; confidence := c |}
        else get_variable ctx other)
  /\ get_variable (set_cache_variable name v c (create_child_scope ctx)) other
     = get_variable ctx other.
Proof.
  rewrite !(get_variable_here (create_child_scope ctx)),
          !(get_variable_here (set_variable _ _ _ _)),
          !(get_variable_here (set_cache_variable _ _ _ _)),
          !(get_platform_check_here (create_child_scope ctx)).
  unfold get_cache_variable, get_targets. simpl.
  rewrite !lookup_empty.
  destruct (String.eqb_spec other name) as [->|Hne].
  - rewrite !lookup_insert_eq. repeat split; reflexivity.
  - rewrite !lookup_insert_ne by congruence. rewrite !lookup_empty.
    repeat split; reflexivity.
Qed.

End ContextBindings.

(** ** Values: truth and lists *)

Section ValueConversions.
Context {R : Runtime}.
Import Analyzer ValueHelpers.

(** X3: Where [to_bool] has an answer, [is_truthy] gives the same; where it has
    none, which is for a string that is none of the words of CMake for true
    and false, [is_truthy] says true. *)
Theorem is_truthy_follows_to_bool (v : Value) :
  is_truthy v = match to_bool v with Some b => b | None => true end.
Proof.
  destruct v as [s|b|d|l]; try reflexivity.
  unfold is_truthy, to_bool.
  repeat match goal with
         | |- context [String.eqb s ?k] =>
             destruct (String.eqb_spec s k) as [->|?]; [reflexivity|]
         end.
  simpl. destruct (Str.ends_with "-NOTFOUND" s); reflexivity.
Qed.

Lemma string_app_empty_r (x : string) : x +:+ "" = x.
Proof. induction x as [|a x IH]; simpl; [reflexivity | now rewrite IH]. Qed.

Lemma string_app_char (item : string) (c : ascii) (x : string) :
  (item +:+ String c "") +:+ x = item +:+ String c x.
Proof. induction item as [|a item IH]; simpl; [reflexivity | now rewrite IH]. Qed.

Lemma getline_items_app (x : string) :
  Str.contains_char ";" x = false ->
  forall s item, getline_items (x +:+ s) item = getline_items s (item +:+ x).
Proof.
  induction x as [|c x IH]; simpl; intros Hx s item.
  - now rewrite string_app_empty_r.
  - apply orb_false_elim in Hx. destruct Hx as [Hc Hx].
    rewrite Hc. rewrite (IH Hx). now rewrite string_app_char.
Qed.

Lemma getline_items_join (l : list string) :
  Forall (fun x => Str.contains_char ";" x = false) l ->
  last l <> Some "" ->
  getline_items (join_semicolons l) "" = l.
Proof.
  induction 1 as [|x rest Hx Hrest IH]; intros Hlast; [reflexivity|].
  destruct rest as [|y rest'].
  - simpl. rewrite <- (string_app_empty_r x) at 1.
    rewrite (getline_items_app x Hx). simpl.
    destruct (String.eqb_spec x "") as [->|Hne]; [|reflexivity].
    exfalso. apply Hlast. reflexivity.
  - change (join_semicolons (x :: y :: rest'))
      with (x +:+ String ";" (join_semicolons (y :: rest'))).
    rewrite (getline_items_app x Hx). simpl.
    f_equal. apply IH. exact Hlast.
Qed.

(** X4: A list written out with [to_string] and read back with [to_list] is the
    list it was, if no item holds a semicolon and the last item is not empty
    (which covers the empty list). *)
Theorem to_list_of_to_string (l : list string) :
  Forall (fun x => Str.contains_char ";" x = false) l ->
  last l <> Some "" ->
  to_list (VString (to_string (VList l))) = l.
Proof.
  intros Hitems Hlast. unfold to_list, to_string.
  destruct l as [|x rest]; [reflexivity|].
  destruct (String.eqb_spec (join_semicolons (x :: rest)) "") as [Hempty|Hne].
  - exfalso. destruct rest as [|y rest'].
    + simpl in Hempty. subst x. apply Hlast. reflexivity.
    + simpl in Hempty. destruct x; discriminate.
  - destruct (Str.contains_char ";" (join_semicolons (x :: rest))) eqn:Hsemi.
    + apply getline_items_join; assumption.
    + destruct rest as [|y rest']; [reflexivity|].
      exfalso. clear - Hsemi.
      change (join_semicolons (x :: y :: rest'))
        with (x +:+ String ";" (join_semicolons (y :: rest'))) in Hsemi.
      induction x as [|a x IH]; simpl in Hsemi.
      * discriminate.
      * apply orb_false_elim in Hsemi. tauto.
Qed.

Lemma ends_with_semicolon_cons (c : ascii) (rest : string) :
  rest <> "" -> Str.ends_with ";" (String c rest) = Str.ends_with ";" rest.
Proof.
  intros Hrest. unfold Str.ends_with.
  destruct rest as [|b rest]; [congruence|].
  simpl String.length.
  replace (S (S (String.length rest)) - 1)%nat with (S (String.length rest)) by lia.
  replace (S (String.length rest) - 1)%nat with (String.length rest) by lia.
  reflexivity.
Qed.

Lemma ends_with_semicolon_app (a b : string) :
  b <> "" -> Str.ends_with ";" (a +:+ b) = Str.ends_with ";" b.
Proof.
  intros Hb. induction a as [|c a IH]; [reflexivity|].
  simpl. rewrite ends_with_semicolon_cons; [exact IH|].
  destruct a; simpl; [exact Hb | discriminate].
Qed.

Lemma join_of_getline_items (s : string) :
  forall item,
    item +:+ s <> "" ->
    Str.ends_with ";" (item +:+ s) = false ->
    join_semicolons (getline_items s item) = item +:+ s.
Proof.
  induction s as [|c rest IH]; intros item Hne Hend; simpl.
  - rewrite string_app_empty_r in *.
    destruct (String.eqb_spec item "") as [->|_]; [congruence | reflexivity].
  - destruct (Ascii.eqb_spec c ";") as [->|Hc].
    + destruct rest as [|b rest'].
      * rewrite ends_with_semicolon_app in Hend by discriminate. discriminate.
      * rewrite ends_with_semicolon_app in Hend by discriminate.
        rewrite ends_with_semicolon_cons in Hend by discriminate.
        specialize (IH "" ltac:(discriminate) Hend).
        change ("" +:+ String b rest') with (String b rest') in IH.
        destruct (getline_items (String b rest') "") as [|y more] eqn:Eitems.
        -- discriminate IH.
        -- change (join_semicolons (item :: y :: more))
             with (item +:+ String ";" (join_semicolons (y :: more))).
           now rewrite IH.
    + rewrite IH.
      * apply string_app_char.
      * rewrite string_app_char. exact Hne.
      * rewrite string_app_char. exact Hend.
Qed.

(** X5: A string read with [to_list] and written out again with [to_string] is
    the string it was, unless it ends in a semicolon: the empty item behind a
    last semicolon is not read. *)
Theorem to_string_of_to_list (s : string) :
  Str.ends_with ";" s = false ->
  to_string (VList (to_list (VString s))) = s.
Proof.
  intros Hend. unfold to_list, to_string.
  destruct (String.eqb_spec s "") as [->|Hne]; [reflexivity|].
  destruct (Str.contains_char ";" s); [|reflexivity].
  apply (join_of_getline_items s ""); assumption.
Qed.

(** the item that is lost *)
Example to_list_drops_last_empty_item :
  to_list (VString "a;b;") = ["a"; "b"]
  /\ to_string (VList (to_list (VString "a;b;"))) = "a;b".
Proof. split; reflexivity. Qed.

End ValueConversions.

Lemma to_list_of_to_string_witness :
  let R := ExampleRuntime.example_runtime in
  ValueHelpers.to_list
    (Analyzer.VString (Analyzer.to_string (Analyzer.VList ["a.cpp"; ""; "b.cpp"])))
  = ["a.cpp"; ""; "b.cpp"].
Proof.
  intros R.
  apply (to_list_of_to_string ["a.cpp"; ""; "b.cpp"]).
  - repeat constructor.
  - discriminate.
Defined.

Lemma to_string_of_to_list_witness :
  let R := ExampleRuntime.example_runtime in
  Analyzer.to_string
    (Analyzer.VList (ValueHelpers.to_list (Analyzer.VString "src/a.cpp;;src/b.cpp")))
  = "src/a.cpp;;src/b.cpp".
Proof.
  intros R. apply (to_string_of_to_list "src/a.cpp;;src/b.cpp"). reflexivity.
Defined.

(** ** Words without a dollar sign, files, and lists *)

Section PlainWords.
Context {R : Runtime}.
Import Regex Ast Analyzer Evaluator.

Lemma search_without_dollar (s : string) :
  Str.contains_char "$" s = false ->
  forall skipped, search_at var_pattern skipped s = None.
Proof.
  induction s as [|c s IH]; intros Hs skipped; [reflexivity|].
  simpl in Hs. apply orb_false_elim in Hs. destruct Hs as [Hc Hs].
  rewrite Ascii.eqb_sym in Hc.
  unfold search_at; fold search_at. unfold var_pattern at 1.
  cbn [run class_matches]. rewrite Hc. apply IH, Hs.
Qed.

Lemma interpolate_without_dollar (ctx : EvaluationContext) (s : string) :
  Str.contains_char "$" s = false ->
  interpolate_string ctx s = Interpolated (Ok s).
Proof.
  intros Hs. unfold interpolate_string. simpl interpolate_loop.
  unfold interpolate_step, regex_search.
  change (Str.drop 0 s) with s.
  rewrite (search_without_dollar s Hs). reflexivity.
Qed.

(** X6: A string literal without a dollar sign evaluates to its own text, with
    confidence Certain, in every context and without touching it; the
    evaluation always returns. *)
Theorem plain_word_evaluates_to_itself
  (s : string) (quoted : bool) (ctx : EvaluationContext) :
  Str.contains_char "$" s = false ->
  evaluate (StringLiteral s quoted) ctx = Returns (evaluated (VString s) Certain) ctx.
Proof.
  intros Hs. simpl. unfold visit_StringLiteral.
  rewrite interpolate_without_dollar by exact Hs. reflexivity.
Qed.

End PlainWords.

Lemma plain_word_evaluates_to_itself_witness :
  let R := ExampleRuntime.example_runtime in
  Evaluator.evaluate (Ast.StringLiteral "src/main.cpp" false)
    (Evaluator.new_file_evaluator Analyzer.OtherUnix)
  = Evaluator.Returns
      (Evaluator.evaluated (Analyzer.VString "src/main.cpp") Analyzer.Certain)
      (Evaluator.new_file_evaluator Analyzer.OtherUnix).
Proof.
  intros R.
  apply (plain_word_evaluates_to_itself "src/main.cpp" false). reflexivity.
Defined.

(** ** Files, lists and [set] *)

Section FilesAndLists.
Context {R : Runtime}.
Import Regex Ast Analyzer Evaluator.

Lemma evaluate_all_app (before after : list Thunk) (ctx : EvaluationContext) :
  evaluate_all (before ++ after) ctx
  = match evaluate_all before ctx with
    | Returns _ c1 => evaluate_all after c1
    | Stops why => Stops why
    end.
Proof.
  revert ctx. induction before as [|stmt before IH]; intros ctx; [reflexivity|].
  cbn [evaluate_all app]. unfold bind.
  destruct (stmt ctx) as [r c1|why]; [apply IH | reflexivity].
Qed.

Lemma evaluate_all_returns (statements : list ASTNode) :
  Forall (fun s => forall c, exists r c', evaluate s c = Returns r c') statements ->
  forall ctx, exists ctx', evaluate_all (List.map evaluate statements) ctx = Returns tt ctx'.
Proof.
  induction 1 as [|s statements Hs _ IH]; intros ctx; [exists ctx; reflexivity|].
  cbn [List.map evaluate_all]. unfold bind.
  destruct (Hs ctx) as (r & c1 & ->). apply IH.
Qed.

(** X7: The evaluation of a file or of a block has no error to answer. It
    evaluates its statements one after the other, each in the context that
    the one before has left, and drops what they answer: if they all return,
    it returns the empty text with confidence Certain, and if one of them
    ends abnormally (an exception that nothing catches, or a loop without
    end), the evaluation of the file ends there in the same way.
    [evaluate_file] and [analyze] follow: they answer Ok where the evaluation
    returns, [analyze] with the targets of the context it has reached and
    without a warning, and they end abnormally where it does; their error
    branches are never taken. *)
Theorem file_evaluation_answers_no_error
  (path : string) (statements : list ASTNode) (ctx : EvaluationContext) :
  evaluate (File path []) ctx = Returns (evaluated (VString "") Certain) ctx
  /\ (forall s rest,
        evaluate (File path (s :: rest)) ctx
        = match evaluate s ctx with
          | Returns _ c1 => evaluate (File path rest) c1
          | Stops why => Stops why
          end)
  /\ evaluate (Block statements) ctx = evaluate (File path statements) ctx
  /\ match evaluate (File path statements) ctx with
     | Returns r ctx' =>
         r = evaluated (VString "") Certain
         /\ evaluate_file (File path statements) ctx = Returns (Ok tt) ctx'
         /\ exists analysis,
              analyze (File path statements) ctx = Returns (Ok analysis) ctx'
              /\ targets analysis = get_targets ctx' /\ warnings analysis = []
     | Stops why =>
         evaluate_file (File path statements) ctx = Stops why
         /\ analyze (File path statements) ctx = Stops why
     end
  /\ (Forall (fun s => forall c, exists r c', evaluate s c = Returns r c') statements ->
      exists ctx',
        evaluate (File path statements) ctx = Returns (evaluated (VString "") Certain) ctx')
  /\ (forall before s after r c1 why,
        statements = (before ++ s :: after)%list ->
        evaluate (Block before) ctx = Returns r c1 ->
        evaluate s c1 = Stops why ->
        evaluate (File path statements) ctx = Stops why).
Proof.
  split; [reflexivity|]. split.
  { intros s rest. cbn [evaluate]. unfold visit_statements. cbn [List.map evaluate_all].
    unfold bind. destruct (evaluate s ctx); reflexivity. }
  split; [reflexivity|]. split; [|split].
  - unfold analyze, evaluate_file. cbn [evaluate].
    unfold visit_statements, bind, nothing, ret, context.
    destruct (evaluate_all (List.map evaluate statements) ctx) as [u ctx'|why]; cbn.
    + split; [reflexivity|]. split; [reflexivity|]. eexists. split; [reflexivity|].
      split; reflexivity.
    + split; reflexivity.
  - intros Hall. destruct (evaluate_all_returns statements Hall ctx) as (ctx' & H).
    exists ctx'. cbn [evaluate]. unfold visit_statements, bind. rewrite H. reflexivity.
  - intros before s after r c1 why -> Hbefore Hs.
    cbn [evaluate] in *. unfold visit_statements, bind in *.
    rewrite List.map_app, evaluate_all_app.
    destruct (evaluate_all (List.map evaluate before) ctx) as [u c|why']; [|discriminate].
    injection Hbefore as _ <-.
    cbn [List.map evaluate_all]. unfold bind. rewrite Hs. reflexivity.
Qed.

Lemma confidence_min_certain (c : Confidence) : confidence_min Certain c = Certain.
Proof. destruct c; reflexivity. Qed.

Lemma list_values_loop_certain (elements : list ASTNode) (values : list EvaluatedValue)
  (ctx : EvaluationContext) :
  Forall2 (fun e v => evaluate e ctx = Returns (Ok v) ctx) elements values ->
  forall (tail : list ASTNode) (acc : list string),
    list_values_loop (List.map evaluate (elements ++ tail)) acc Certain ctx
    = list_values_loop (List.map evaluate tail)
        (acc ++ List.map (fun v => to_string (value v)) values) Certain ctx.
Proof.
  induction 1 as [|e v elements values He _ IH]; intros tail acc; simpl.
  - now rewrite app_nil_r.
  - unfold bind at 1. rewrite He. rewrite confidence_min_certain.
    rewrite IH. now rewrite <- app_assoc.
Qed.

(** X8: A list expression whose elements all evaluate is the list of their
    texts, and its confidence is Certain whatever the confidences of the
    elements are: [std::min] of the enumeration keeps the most certain. An
    element that fails ends the list in front of it, with confidence
    Unknown; the elements behind it are not evaluated. *)
Theorem list_expression_confidence
  (elements : list ASTNode) (values : list EvaluatedValue) (separator : ascii)
  (ctx : EvaluationContext) :
  Forall2 (fun e v => evaluate e ctx = Returns (Ok v) ctx) elements values ->
  let texts := List.map (fun v => to_string (value v)) values in
  evaluate (ListExpression elements separator) ctx
  = Returns (evaluated (VList texts) Certain) ctx
  /\ forall (bad : ASTNode) (behind : list ASTNode) (e : AnalysisError),
       evaluate bad ctx = Returns (Err e) ctx ->
       evaluate (ListExpression (elements ++ bad :: behind) separator) ctx
       = Returns (evaluated (VList texts) Unknown) ctx.
Proof.
  intros Hall texts. split.
  - simpl. unfold visit_ListExpression, bind at 1.
    pose proof (list_values_loop_certain elements values ctx Hall [] []) as H.
    rewrite app_nil_r in H. rewrite H. reflexivity.
  - intros bad behind e Hbad.
    simpl. unfold visit_ListExpression, bind at 1.
    rewrite (list_values_loop_certain elements values ctx Hall (bad :: behind) []).
    simpl. unfold bind. rewrite Hbad. reflexivity.
Qed.

End FilesAndLists.

Lemma list_expression_confidence_witness :
  let R := ExampleRuntime.example_runtime in
  let ctx := Evaluator.new_file_evaluator Analyzer.OtherUnix in
  let elements := [Ast.StringLiteral "lib_" false; Ast.VariableRef "SUFFIX" Ast.Normal;
                   Ast.VariableRef "CMAKE_BUILD_TYPE" Ast.Normal] in
  Evaluator.evaluate (Ast.ListExpression elements " ") ctx
  = Evaluator.Returns
      (Evaluator.evaluated (Analyzer.VList ["lib_"; "${SUFFIX}"; "Release"]) Analyzer.Certain)
      ctx.
Proof.
  intros R ctx elements.
  refine (proj1 (list_expression_confidence elements
                   [ {| Analyzer.value := Analyzer.VString "lib_";
                        Analyzer.confidence := Analyzer.Certain |};
                     {| Analyzer.value := Analyzer.VString "${SUFFIX}";
                        Analyzer.confidence := Analyzer.Unknown |};
                     {| Analyzer.value := Analyzer.VString "Release";
                        Analyzer.confidence := Analyzer.Uncertain |} ] " " ctx _)).
  repeat constructor; vm_compute; reflexivity.
Defined.

Lemma file_evaluation_answers_no_error_witness :
  let R := ExampleRuntime.example_runtime in
  let ctx := Evaluator.new_file_evaluator Analyzer.OtherUnix in
  let message := Ast.CommandCall "message" [Ast.StringLiteral "hello" false] in
  let set_without_value := Ast.CommandCall "set" [Ast.StringLiteral "X" false] in
  let set_on := Ast.CommandCall "set" [Ast.BooleanLiteral true "ON"; Ast.StringLiteral "x" false] in
  Evaluator.evaluate set_without_value ctx
  = Evaluator.Returns (Err (analysis_error "set() requires at least 2 arguments")) ctx
  /\ Evaluator.evaluate_file (Ast.File "CMakeLists.txt" [set_without_value; message]) ctx
     = Evaluator.Returns (Ok tt) ctx
  /\ Evaluator.evaluate_file (Ast.File "CMakeLists.txt" [message; set_on; message]) ctx
     = Evaluator.Stops Evaluator.BadVariantAccess
  /\ Evaluator.analyze (Ast.File "CMakeLists.txt" [message; set_on; message]) ctx
     = Evaluator.Stops Evaluator.BadVariantAccess.
Proof.
  intros R ctx message set_without_value set_on.
  split; [reflexivity|].
  pose proof (file_evaluation_answers_no_error "CMakeLists.txt"
                [set_without_value; message] ctx) as (_ & _ & _ & Hreturns & _).
  pose proof (file_evaluation_answers_no_error "CMakeLists.txt"
                [message; set_on; message] ctx) as (_ & _ & _ & Hstops & _ & Hat).
  rewrite (Hat [message] set_on [message] (Evaluator.evaluated (Analyzer.VString "") Analyzer.Certain)
             ctx Evaluator.BadVariantAccess eq_refl eq_refl eq_refl) in Hstops.
  destruct Hstops as [Hfile Hanalyze].
  split; [|split; assumption].
  change (Evaluator.evaluate (Ast.File "CMakeLists.txt" [set_without_value; message]) ctx)
    with (Evaluator.Returns (Evaluator.evaluated (Analyzer.VString "") Analyzer.Certain) ctx)
    in Hreturns.
  destruct Hreturns as (_ & H & _). exact H.
Defined.

(** ** The [set] command *)

Section SetCommand.
Context {R : Runtime}.
Import Regex Ast Analyzer Evaluator.

Lemma evaluate_set_unfold (args : list ASTNode) :
  evaluate (CommandCall "set" args) = evaluate_set_command (List.map evaluate args).
Proof. reflexivity. Qed.

(** X9: [set(NAME value)], with a name that evaluates to a Certain string: the
    variable is bound to what the value evaluates to, value and confidence,
    and a reference to the variable evaluates to just that afterwards. The
    other variables, the cache variables, the platform checks and the targets
    stay as the evaluation of the two arguments left them. If the value fails
    to evaluate, nothing is bound and the command still answers without an
    error. *)
Theorem set_binds_what_a_reference_reads
  (name_arg value_arg : ASTNode) (ctx c1 c2 : EvaluationContext)
  (NAME : string) (value_result : EvalResult) (var_type : VariableType) :
  evaluate name_arg ctx = Returns (evaluated (VString NAME) Certain) c1 ->
  evaluate value_arg c1 = Returns value_result c2 ->
  exists ctx',
    evaluate (CommandCall "set" [name_arg; value_arg]) ctx
    = Returns (evaluated (VString "") Certain) ctx'
    /\ match value_result with
       | Ok v =>
           get_variable ctx' NAME = Some v
           /\ evaluate (VariableRef NAME var_type) ctx' = Returns (Ok v) ctx'
           /\ (forall other, other <> NAME -> get_variable ctx' other = get_variable c2 other)
           /\ cache_variables_ ctx' = cache_variables_ c2
           /\ platform_checks_ ctx' = platform_checks_ c2
           /\ targets_ ctx' = targets_ c2
       | Err _ => ctx' = c2
       end.
Proof.
  intros Hname Hvalue.
  rewrite evaluate_set_unfold.
  unfold evaluate_set_command, evaluate_at; simpl.
  unfold bind at 1. rewrite Hname. simpl.
  unfold bind at 1 2. rewrite Hvalue.
  destruct value_result as [v|e]; simpl.
  - eexists. split; [reflexivity|].
    assert (Hget : get_variable (set_variable NAME (value v) (confidence v) c2) NAME = Some v).
    { rewrite get_variable_unfold. simpl. rewrite lookup_insert_eq. destruct v; reflexivity. }
    split; [exact Hget|].
    split; [unfold visit_Variable, bind, context; rewrite Hget; reflexivity|].
    split; [|repeat split].
    intros other Hother. rewrite !get_variable_unfold. simpl.
    rewrite lookup_insert_ne by congruence. reflexivity.
  - eexists. split; reflexivity.
Qed.

(** X10: What [set] makes of its first argument, whatever follows it: a name that
    fails to evaluate, or that is not Certain, is refused with an error; a
    Certain name that is no string, as the boolean that the parser makes of
    the words ON, YES, Y, N and the like, or a number, makes [std::get] throw
    [std::bad_variant_access], which nothing catches. *)
Theorem set_name_has_to_be_a_certain_string
  (name_arg value_arg : ASTNode) (more : list ASTNode) (ctx : EvaluationContext) :
  let refused := Err (analysis_error "Cannot determine variable name") in
  match evaluate name_arg ctx with
  | Returns (Err _) c1 =>
      evaluate (CommandCall "set" (name_arg :: value_arg :: more)) ctx = Returns refused c1
  | Returns (Ok name_value) c1 =>
      match confidence name_value, value name_value with
      | Certain, VString _ => True
      | Certain, _ =>
          evaluate (CommandCall "set" (name_arg :: value_arg :: more)) ctx
          = Stops BadVariantAccess
      | _, _ =>
          evaluate (CommandCall "set" (name_arg :: value_arg :: more)) ctx
          = Returns refused c1
      end
  | Stops why =>
      evaluate (CommandCall "set" (name_arg :: value_arg :: more)) ctx = Stops why
  end.
Proof.
  intros refused.
  destruct (evaluate name_arg ctx) as [[[v c]|e] c1|why] eqn:Hname;
    [destruct c, v; try exact I| |];
    rewrite evaluate_set_unfold; unfold evaluate_set_command, evaluate_at; simpl;
    unfold bind at 1; rewrite Hname; reflexivity.
Qed.

(** X11: [set(NAME v1 v2 ...)] with two values or more that all evaluate binds the
    list of their texts, with confidence Certain. *)
Theorem set_with_several_values_binds_their_list
  (name_arg first second : ASTNode) (more : list ASTNode) (values : list EvaluatedValue)
  (ctx : EvaluationContext) (NAME : string) :
  evaluate name_arg ctx = Returns (evaluated (VString NAME) Certain) ctx ->
  Forall2 (fun e v => evaluate e ctx = Returns (Ok v) ctx) (first :: second :: more) values ->
  evaluate (CommandCall "set" (name_arg :: first :: second :: more)) ctx
  = Returns (evaluated (VString "") Certain)
      (set_variable NAME (VList (List.map (fun v => to_string (value v)) values)) Certain ctx).
Proof.
  intros Hname Hvalues.
  rewrite evaluate_set_unfold.
  unfold evaluate_set_command, evaluate_at.
  change (length (List.map evaluate (name_arg :: first :: second :: more)) <? 2)%nat
    with false.
  change (length (List.map evaluate (name_arg :: first :: second :: more)) =? 2)%nat
    with false.
  cbn [List.map lookup list_lookup drop negb is_certain].
  unfold bind at 1. rewrite Hname.
  cbn [evaluated is_certain value confidence negb].
  unfold bind at 1.
  pose proof (list_values_loop_certain _ _ ctx Hvalues [] []) as H.
  rewrite app_nil_r in H. cbn [List.map] in H. rewrite H. reflexivity.
Qed.

End SetCommand.

Lemma set_binds_what_a_reference_reads_witness :
  let R := ExampleRuntime.example_runtime in
  let ctx := Evaluator.new_file_evaluator Analyzer.OtherUnix in
  exists ctx',
    Evaluator.evaluate
      (Ast.CommandCall "set"
         [Ast.StringLiteral "BUILD_DIR" false; Ast.VariableRef "CMAKE_BINARY_DIR" Ast.Normal])
      ctx
    = Evaluator.Returns (Evaluator.evaluated (Analyzer.VString "") Analyzer.Certain) ctx'
    /\ Analyzer.get_variable ctx' "BUILD_DIR"
       = Some {| Analyzer.value := Analyzer.VString "/build";
                 Analyzer.confidence := Analyzer.Uncertain |}.
Proof.
  intros R ctx.
  destruct (set_binds_what_a_reference_reads
              (Ast.StringLiteral "BUILD_DIR" false)
              (Ast.VariableRef "CMAKE_BINARY_DIR" Ast.Normal) ctx ctx ctx "BUILD_DIR"
              (Evaluator.evaluated (Analyzer.VString "/build") Analyzer.Uncertain)
              Ast.Normal eq_refl eq_refl) as (ctx' & Hset & Hget & _).
  exists ctx'. split; [exact Hset | exact Hget].
Defined.

Lemma set_with_several_values_binds_their_list_witness :
  let R := ExampleRuntime.example_runtime in
  let ctx := Evaluator.new_file_evaluator Analyzer.OtherUnix in
  Evaluator.evaluate
    (Ast.CommandCall "set"
       [Ast.StringLiteral "SOURCES" false; Ast.StringLiteral "a.cpp" false;
        Ast.StringLiteral "b.cpp" false]) ctx
  = Evaluator.Returns (Evaluator.evaluated (Analyzer.VString "") Analyzer.Certain)
      (Analyzer.set_variable "SOURCES" (Analyzer.VList ["a.cpp"; "b.cpp"])
         Analyzer.Certain ctx).
Proof.
  intros R ctx.
  refine (set_with_several_values_binds_their_list
            (Ast.StringLiteral "SOURCES" false) (Ast.StringLiteral "a.cpp" false)
            (Ast.StringLiteral "b.cpp" false) []
            [ {| Analyzer.value := Analyzer.VString "a.cpp";
                 Analyzer.confidence := Analyzer.Certain |};
              {| Analyzer.value := Analyzer.VString "b.cpp";
                 Analyzer.confidence := Analyzer.Certain |} ] ctx "SOURCES" eq_refl _).
  repeat constructor.
Defined.

(** ** Targets: [add_library], [add_executable] and the property setters *)

Section Targets.
Context {R : Runtime}.
Import Regex Ast Analyzer Evaluator.

Lemma sources_loop_all (args : list ASTNode) (values : list EvaluatedValue)
  (ctx : EvaluationContext) :
  Forall2 (fun e v => evaluate e ctx = Returns (Ok v) ctx) args values ->
  forall acc,
    sources_loop (List.map evaluate args) acc ctx
    = Returns (acc ++ List.map (fun v => to_string (value v)) values)%list ctx.
Proof.
  induction 1 as [|e v args values He _ IH]; intros acc; simpl.
  - now rewrite app_nil_r.
  - unfold bind at 1. rewrite He. rewrite IH. now rewrite <- app_assoc.
Qed.

Lemma find_target_app (name : string) (ts : list Target) (t : Target) :
  target_name t = name ->
  find_target name (ts ++ [t])
  = Some (match find_target name ts with Some k => k | None => length ts end).
Proof.
  intros Ht. induction ts as [|t0 ts IH]; simpl.
  - rewrite Ht, String.eqb_refl. reflexivity.
  - destruct (String.eqb (target_name t0) name); [reflexivity|].
    rewrite IH. simpl. destruct (find_target name ts); reflexivity.
Qed.

(** X12: [add_library(name words...)] and [add_executable(name words...)], with
    arguments that evaluate without touching the context, append one target
    and answer without an error. For a library the first word decides the
    type when it is SHARED, STATIC or INTERFACE, and is left out of the
    sources then; every other first word, MODULE or OBJECT say, is kept as a
    source of a static library. For an executable every word is a source.
    A target of the same name that exists already stays in place, in front
    of the new one, and is the one a later search by name finds. *)
Theorem add_target_commands_append_one_target
  (name_arg : ASTNode) (args : list ASTNode) (name_value : EvaluatedValue)
  (values : list EvaluatedValue) (ctx : EvaluationContext) :
  evaluate name_arg ctx = Returns (Ok name_value) ctx ->
  Forall2 (fun e v => evaluate e ctx = Returns (Ok v) ctx) args values ->
  let name := to_string (value name_value) in
  let words := List.map (fun v => to_string (value v)) values in
  let library :=
    match words with
    | first :: rest =>
        if String.eqb first "SHARED" then new_target name SharedLibrary rest
        else if String.eqb first "STATIC" then new_target name StaticLibrary rest
        else if String.eqb first "INTERFACE" then new_target name InterfaceLibrary rest
        else new_target name StaticLibrary words
    | [] => new_target name StaticLibrary []
    end in
  let executable := new_target name ExecutableTarget words in
  evaluate (CommandCall "add_library" (name_arg :: args)) ctx
  = Returns (evaluated (VString "") Certain) (add_target library ctx)
  /\ evaluate (CommandCall "add_executable" (name_arg :: args)) ctx
     = Returns (evaluated (VString "") Certain) (add_target executable ctx)
  /\ forall t, t = library \/ t = executable ->
       get_targets (add_target t ctx) = (get_targets ctx ++ [t])%list
       /\ find_target name (get_targets (add_target t ctx))
          = Some (match find_target name (get_targets ctx) with
                  | Some k => k
                  | None => length (get_targets ctx)
                  end).
Proof.
  intros Hname Hargs name words library executable.
  split; [|split].
  - change (evaluate (CommandCall "add_library" (name_arg :: args)))
      with (evaluate_add_library_command (evaluate name_arg :: List.map evaluate args)).
    unfold evaluate_add_library_command, evaluate_at.
    cbn [RuleTemplates.is_empty lookup list_lookup].
    unfold bind at 1. rewrite Hname. fold name.
    destruct Hargs as [|e v args values He Hrest].
    + reflexivity.
    + pose proof (sources_loop_all _ _ ctx Hrest []) as Hsrc.
      assert (Hall : sources_loop (List.map evaluate (e :: args)) [] ctx
                     = Returns ([] ++ List.map (fun v => to_string (value v)) (v :: values))%list
                         ctx)
        by (apply sources_loop_all; constructor; assumption).
      cbn [app List.map] in Hsrc, Hall.
      cbn [length Nat.ltb Nat.leb List.map lookup list_lookup].
      unfold bind at 1. unfold bind at 1. rewrite He.
      subst library words. cbn [List.map].
      destruct (String.eqb (to_string (value v)) "SHARED");
        [cbn [ret snd fst drop]; unfold bind at 1;
         rewrite drop_0;
         rewrite Hsrc; reflexivity|].
      destruct (String.eqb (to_string (value v)) "STATIC");
        [cbn [ret snd fst drop]; unfold bind at 1;
         rewrite drop_0;
         rewrite Hsrc; reflexivity|].
      destruct (String.eqb (to_string (value v)) "INTERFACE");
        [cbn [ret snd fst drop]; unfold bind at 1;
         rewrite drop_0;
         rewrite Hsrc; reflexivity|].
      cbn [ret snd fst drop]. unfold bind at 1.
      rewrite Hall. reflexivity.
  - change (evaluate (CommandCall "add_executable" (name_arg :: args)))
      with (evaluate_add_executable_command (evaluate name_arg :: List.map evaluate args)).
    unfold evaluate_add_executable_command, evaluate_at.
    cbn [RuleTemplates.is_empty lookup list_lookup drop].
    unfold bind at 1. rewrite Hname. fold name.
    unfold bind at 1. rewrite drop_0, (sources_loop_all _ _ ctx Hargs []). reflexivity.
  - intros t Ht. split; [reflexivity|].
    unfold add_target, get_targets; simpl. apply find_target_app.
    destruct Ht as [-> | ->]; [|reflexivity].
    subst library. destruct words as [|first rest]; [reflexivity|].
    repeat match goal with |- context [if ?b then _ else _] => destruct b end; reflexivity.
Qed.

End Targets.

Lemma add_target_commands_append_one_target_witness :
  let R := ExampleRuntime.example_runtime in
  let ctx := Evaluator.new_file_evaluator Analyzer.OtherUnix in
  Evaluator.evaluate
    (Ast.CommandCall "add_library"
       [Ast.StringLiteral "core" false; Ast.StringLiteral "MODULE" false;
        Ast.StringLiteral "core.cpp" false]) ctx
  = Evaluator.Returns (Evaluator.evaluated (Analyzer.VString "") Analyzer.Certain)
      (Analyzer.add_target
         (Evaluator.new_target "core" Analyzer.StaticLibrary ["MODULE"; "core.cpp"]) ctx).
Proof.
  intros R ctx.
  refine (proj1 (add_target_commands_append_one_target
                   (Ast.StringLiteral "core" false)
                   [Ast.StringLiteral "MODULE" false; Ast.StringLiteral "core.cpp" false]
                   {| Analyzer.value := Analyzer.VString "core";
                      Analyzer.confidence := Analyzer.Certain |}
                   [ {| Analyzer.value := Analyzer.VString "MODULE";
                        Analyzer.confidence := Analyzer.Certain |};
                     {| Analyzer.value := Analyzer.VString "core.cpp";
                        Analyzer.confidence := Analyzer.Certain |} ] ctx eq_refl _)).
  repeat constructor.
Defined.

Section SettersOnATarget.
Context {R : Runtime}.
Import Regex Ast Analyzer Evaluator.

Lemma with_own_targets (ctx : EvaluationContext) : with_targets (targets_ ctx) ctx = ctx.
Proof. destruct ctx; reflexivity. Qed.

(** the values that a setter keeps: all but the visibility keywords *)
Lemma push_values_loop_all (k : nat) (push : string -> Target -> Target)
  (args : list ASTNode) (values : list EvaluatedValue) (ctx : EvaluationContext) :
  Forall2 (fun e v => forall ts,
             evaluate e (with_targets ts ctx) = Returns (Ok v) (with_targets ts ctx))
          args values ->
  forall ts,
    push_values_loop k push (List.map evaluate args) (with_targets ts ctx)
    = Returns tt
        (with_targets
           (alter (fun t =>
                     fold_left (fun t s => push s t)
                       (List.filter (fun s => negb (is_visibility_keyword s))
                          (List.map (fun v => to_string (value v)) values)) t)
                  k ts) ctx).
Proof.
  induction 1 as [|e v args values He _ IH]; intros ts.
  - simpl. unfold ret. now rewrite list_alter_id.
  - cbn [List.map push_values_loop List.filter].
    unfold bind at 1. unfold context at 1.
    unfold bind at 1. rewrite He.
    unfold bind at 1. unfold context at 1.
    rewrite Nat.eqb_refl. cbn [negb].
    destruct (negb (is_visibility_keyword (to_string (value v)))).
    + unfold bind at 1, update. cbn [with_targets targets_ variables_ cache_variables_ platform_checks_ parent_].
      change (push_values_loop k push (List.map evaluate args)
                (with_targets (alter (push (to_string (value v))) k ts) ctx)
              = Returns tt
                  (with_targets
                     (alter (fun t =>
                        fold_left (fun t s => push s t)
                          (List.filter (fun s => negb (is_visibility_keyword s))
                             (List.map (fun v => to_string (value v)) values))
                          (push (to_string (value v)) t)) k ts) ctx)).
      rewrite IH. rewrite list_alter_alter_eq. reflexivity.
    + unfold bind at 1, ret. apply IH.
Qed.

Lemma find_target_first (name : string) (ts : list Target) (k : nat) :
  find_target name ts = Some k ->
  exists t, ts !! k = Some t /\ target_name t = name
            /\ forall j t0, (j < k)%nat -> ts !! j = Some t0 -> target_name t0 <> name.
Proof.
  revert k. induction ts as [|t0 ts IH]; intros k; simpl; [discriminate|].
  destruct (String.eqb_spec (target_name t0) name) as [E|E].
  - intros [= <-]. exists t0. repeat split; auto. intros j t1 Hj. lia.
  - destruct (find_target name ts) as [k0|]; [|discriminate].
    intros [= <-]. destruct (IH k0 eq_refl) as (t & Hk & Hn & Hfirst).
    exists t. repeat split; auto.
    intros [|j] t1 Hj; simpl; [intros [= <-]; exact E|].
    apply Hfirst. lia.
Qed.

Lemma push_include_directories_all (kept : list string) (t : Target) :
  let t' := fold_left (fun t s => push_include_directory s t) kept t in
  target_name t' = target_name t /\ target_type t' = target_type t
  /\ sources t' = sources t
  /\ include_directories t' = (include_directories t ++ kept)%list
  /\ link_libraries t' = link_libraries t
  /\ compile_definitions t' = compile_definitions t.
Proof.
  revert t. induction kept as [|s kept IH]; intros t; simpl.
  - rewrite app_nil_r. tauto.
  - destruct (IH (push_include_directory s t)) as (H1 & H2 & H3 & H4 & H5 & H6).
    simpl in *. rewrite H1, H2, H3, H4, H5, H6, <- app_assoc. tauto.
Qed.

Lemma push_link_libraries_all (kept : list string) (t : Target) :
  let t' := fold_left (fun t s => push_link_library s t) kept t in
  target_name t' = target_name t /\ target_type t' = target_type t
  /\ sources t' = sources t
  /\ include_directories t' = include_directories t
  /\ link_libraries t' = (link_libraries t ++ kept)%list
  /\ compile_definitions t' = compile_definitions t.
Proof.
  revert t. induction kept as [|s kept IH]; intros t; simpl.
  - rewrite app_nil_r. tauto.
  - destruct (IH (push_link_library s t)) as (H1 & H2 & H3 & H4 & H5 & H6).
    simpl in *. rewrite H1, H2, H3, H4, H5, H6, <- app_assoc. tauto.
Qed.

Lemma push_compile_definitions_all (kept : list string) (t : Target) :
  let t' := fold_left (fun t s => push_compile_definition s t) kept t in
  target_name t' = target_name t /\ target_type t' = target_type t
  /\ sources t' = sources t
  /\ include_directories t' = include_directories t
  /\ link_libraries t' = link_libraries t
  /\ compile_definitions t' = (compile_definitions t ++ kept)%list.
Proof.
  revert t. induction kept as [|s kept IH]; intros t; simpl.
  - rewrite app_nil_r. tauto.
  - destruct (IH (push_compile_definition s t)) as (H1 & H2 & H3 & H4 & H5 & H6).
    simpl in *. rewrite H1, H2, H3, H4, H5, H6, <- app_assoc. tauto.
Qed.

(** X13: A property setter whose first argument names a target of the context
    extends the first target of that name, and no other: the values of the
    other arguments, without the words PUBLIC, PRIVATE and INTERFACE, are
    appended in order to the include directories, the link libraries or the
    compile definitions, as the command says. Name, type and sources of the
    target, every other target, and the rest of the context stay as they
    were, and the command answers without an error. *)
Theorem property_setter_extends_first_target_of_that_name
  (command : string) (target_arg value_arg : ASTNode) (more : list ASTNode)
  (name_value : EvaluatedValue) (values : list EvaluatedValue)
  (ctx : EvaluationContext) (k : nat) :
  In command ["target_include_directories"; "target_link_libraries";
              "target_compile_definitions"] ->
  evaluate target_arg ctx = Returns (Ok name_value) ctx ->
  find_target (to_string (value name_value)) (get_targets ctx) = Some k ->
  Forall2 (fun e v => forall ts,
             evaluate e (with_targets ts ctx) = Returns (Ok v) (with_targets ts ctx))
          (value_arg :: more) values ->
  let kept := List.filter (fun s => negb (is_visibility_keyword s))
                (List.map (fun v => to_string (value v)) values) in
  let added (to : string) := if String.eqb command to then kept else [] in
  exists t t',
    get_targets ctx !! k = Some t
    /\ target_name t = to_string (value name_value)
    /\ (forall j t0, (j < k)%nat -> get_targets ctx !! j = Some t0 ->
          target_name t0 <> to_string (value name_value))
    /\ evaluate (CommandCall command (target_arg :: value_arg :: more)) ctx
       = Returns (evaluated (VString "") Certain)
           (with_targets (<[k := t']> (get_targets ctx)) ctx)
    /\ target_name t' = target_name t /\ target_type t' = target_type t
    /\ sources t' = sources t
    /\ include_directories t'
       = (include_directories t ++ added "target_include_directories")%list
    /\ link_libraries t' = (link_libraries t ++ added "target_link_libraries")%list
    /\ compile_definitions t'
       = (compile_definitions t ++ added "target_compile_definitions")%list.
Proof.
  intros Hcommand Hname Hfind Hvalues kept added.
  destruct (find_target_first _ _ _ Hfind) as (t & Hk & Hn & Hfirst).
  assert (Hrun : forall requires push,
            evaluate_target_property_command requires push
              (List.map evaluate (target_arg :: value_arg :: more)) ctx
            = Returns (evaluated (VString "") Certain)
                (with_targets
                   (<[k := fold_left (fun t s => push s t) kept t]> (get_targets ctx)) ctx)).
  { intros requires push.
    unfold evaluate_target_property_command, evaluate_at.
    cbn [List.map length Nat.ltb Nat.leb lookup list_lookup].
    unfold bind at 1. rewrite Hname.
    unfold bind at 1. unfold bind at 1. unfold context at 1. rewrite Hfind.
    cbn [drop]. rewrite ?drop_0.
    rewrite <- (with_own_targets ctx) at 1.
    change (evaluate value_arg :: List.map evaluate more)
      with (List.map evaluate (value_arg :: more)).
    rewrite (push_values_loop_all k push _ _ ctx Hvalues).
    unfold nothing, ret. do 2 f_equal.
    rewrite list_insert_alter. apply list_alter_ext; [|reflexivity].
    intros x Hx. unfold get_targets in Hk, Hx. rewrite Hk in Hx.
    injection Hx as <-. reflexivity. }
  exists t.
  destruct Hcommand as [<-|[<-|[<-|[]]]].
  - exists (fold_left (fun t s => push_include_directory s t) kept t).
    destruct (push_include_directories_all kept t) as (H1 & H2 & H3 & H4 & H5 & H6).
    subst added. cbn [String.eqb Ascii.eqb Bool.eqb].
    rewrite !app_nil_r. repeat (split; [assumption|]).
    split; [apply Hrun|]. tauto.
  - exists (fold_left (fun t s => push_link_library s t) kept t).
    destruct (push_link_libraries_all kept t) as (H1 & H2 & H3 & H4 & H5 & H6).
    subst added. cbn [String.eqb Ascii.eqb Bool.eqb].
    rewrite !app_nil_r. repeat (split; [assumption|]).
    split; [apply Hrun|]. tauto.
  - exists (fold_left (fun t s => push_compile_definition s t) kept t).
    destruct (push_compile_definitions_all kept t) as (H1 & H2 & H3 & H4 & H5 & H6).
    subst added. cbn [String.eqb Ascii.eqb Bool.eqb].
    rewrite !app_nil_r. repeat (split; [assumption|]).
    split; [apply Hrun|]. tauto.
Qed.

End SettersOnATarget.

Lemma property_setter_extends_first_target_of_that_name_witness :
  let R := ExampleRuntime.example_runtime in
  let ctx :=
    Analyzer.add_target (Evaluator.new_target "app" Analyzer.ExecutableTarget ["main.cpp"])
      (Evaluator.new_file_evaluator Analyzer.OtherUnix) in
  exists ctx',
    Evaluator.evaluate
      (Ast.CommandCall "target_link_libraries"
         [Ast.StringLiteral "app" false; Ast.StringLiteral "PRIVATE" false;
          Ast.StringLiteral "m" false; Ast.StringLiteral "pthread" false]) ctx
    = Evaluator.Returns (Evaluator.evaluated (Analyzer.VString "") Analyzer.Certain) ctx'
    /\ Analyzer.link_libraries <$> Analyzer.get_targets ctx' !! 0%nat
       = Some ["m"; "pthread"].
Proof.
  intros R ctx.
  destruct (property_setter_extends_first_target_of_that_name
              "target_link_libraries" (Ast.StringLiteral "app" false)
              (Ast.StringLiteral "PRIVATE" false)
              [Ast.StringLiteral "m" false; Ast.StringLiteral "pthread" false]
              {| Analyzer.value := Analyzer.VString "app";
                 Analyzer.confidence := Analyzer.Certain |}
              [ {| Analyzer.value := Analyzer.VString "PRIVATE";
                   Analyzer.confidence := Analyzer.Certain |};
                {| Analyzer.value := Analyzer.VString "m";
                   Analyzer.confidence := Analyzer.Certain |};
                {| Analyzer.value := Analyzer.VString "pthread";
                   Analyzer.confidence := Analyzer.Certain |} ]
              ctx 0%nat
              (or_intror (or_introl eq_refl)) eq_refl eq_refl
              ltac:(repeat constructor))
    as (t & t' & Hk & _ & _ & Hrun & _ & _ & _ & _ & Hlink & _).
  eexists. split; [exact Hrun|].
  injection Hk as <-. cbn in Hlink. cbn. rewrite Hlink. reflexivity.
Defined.

(** ** One variable reference inside a string literal *)

Section OneReference.
Context {R : Runtime}.
Import Regex Ast Analyzer Evaluator.

Lemma plus_loop_up_to_brace {X} (name rest : string) (k : nat -> string -> option X) x :
  Str.contains_char "}" name = false ->
  name <> "" ->
  forall consumed,
    k (consumed + String.length name)%nat (String "}" rest) = Some x ->
    plus_loop (NoneOf "}") consumed (name +:+ String "}" rest) k = Some x.
Proof.
  induction name as [|c name IH]; intros Hfree Hne consumed Hk; [congruence|].
  simpl in Hfree. apply orb_false_elim in Hfree as [Hc Hfree].
  cbn [String.append plus_loop class_matches Str.contains_char].
  rewrite Ascii.eqb_sym in Hc. rewrite Hc. cbn [orb negb].
  destruct name as [|c' name'].
  - cbn [String.append plus_loop class_matches Str.contains_char].
    rewrite Ascii.eqb_refl. cbn [orb negb].
    simpl in Hk. rewrite Nat.add_1_r in Hk. exact Hk.
  - rewrite (IH Hfree ltac:(discriminate) (S consumed)); [reflexivity|].
    rewrite <- Hk. f_equal. simpl. lia.
Qed.

Lemma string_take_app_length (a b : string) : Str.take (String.length a) (a +:+ b) = a.
Proof. induction a as [|c a IH]; simpl; [destruct b; reflexivity | now rewrite IH]. Qed.

Lemma string_drop_app_length (a b : string) (n : nat) :
  Str.drop (String.length a + n) (a +:+ b) = Str.drop n b.
Proof. induction a as [|c a IH]; simpl; auto. Qed.

Lemma string_length_app (a b : string) :
  String.length (a +:+ b) = (String.length a + String.length b)%nat.
Proof. induction a as [|c a IH]; simpl; auto. Qed.

Lemma contains_char_drop (c : ascii) (n : nat) (s : string) :
  Str.contains_char c s = false -> Str.contains_char c (Str.drop n s) = false.
Proof.
  revert n. induction s as [|a s IH]; intros [|n] H; simpl in *; auto.
  apply orb_false_elim in H as [_ H]. auto.
Qed.

Lemma contains_char_app (c : ascii) (a b : string) :
  Str.contains_char c (a +:+ b) = Str.contains_char c a || Str.contains_char c b.
Proof. induction a as [|x a IH]; simpl; [reflexivity|]. now rewrite IH, orb_assoc. Qed.

(** the text [${name}] followed by [suffix] *)
Lemma run_on_reference (name suffix : string) (skipped : nat) :
  Str.contains_char "}" name = false ->
  name <> "" ->
  run var_pattern skipped (String "$" (String "{" (name +:+ String "}" suffix))) []
    (fun n _ caps => Some (n, caps))
  = Some ((skipped + (3 + String.length name))%nat, [(1%nat, name)]).
Proof.
  intros Hfree Hne. unfold var_pattern.
  cbn [run class_matches]. rewrite !Ascii.eqb_refl.
  apply plus_loop_up_to_brace; [exact Hfree | exact Hne |].
  rewrite Ascii.eqb_refl. do 2 f_equal; [lia|].
  replace (S (S skipped) + String.length name - S (S skipped))%nat
    with (String.length name) by lia.
  now rewrite string_take_app_length.
Qed.

Lemma search_finds_reference (prefix name suffix : string) :
  Str.contains_char "$" prefix = false ->
  Str.contains_char "}" name = false ->
  name <> "" ->
  forall skipped,
    search_at var_pattern skipped
      (prefix +:+ String "$" (String "{" (name +:+ String "}" suffix)))
    = Some {| m_position := (skipped + String.length prefix)%nat;
              m_length := (3 + String.length name)%nat;
              m_captures := [(1%nat, name)] |}.
Proof.
  intros Hprefix Hfree Hne.
  induction prefix as [|c prefix IH]; intros skipped.
  - cbn [String.append]. unfold search_at; fold search_at.
    rewrite run_on_reference by assumption.
    f_equal. f_equal; simpl; lia.
  - simpl in Hprefix. apply orb_false_elim in Hprefix as [Hc Hprefix].
    rewrite Ascii.eqb_sym in Hc.
    cbn [String.append]. unfold search_at; fold search_at.
    unfold var_pattern at 1. cbn [run class_matches]. rewrite Hc.
    rewrite (IH Hprefix). f_equal. f_equal; simpl; lia.
Qed.

(** X14: A literal [prefix${name}suffix] with one reference, to a variable whose
    text [v] the context knows. The literal evaluates to [prefix v suffix]
    when [v] is not empty and not longer than [${name}suffix]. For an empty
    [v] the search starts anew where the reference stands and finds it again,
    for ever. For a [v] longer than [${name}suffix] the iterator at which the
    search goes on lies behind the end of the literal. *)
Theorem literal_with_one_reference
  (prefix name suffix v : string) (quoted : bool) (ctx : EvaluationContext) :
  Str.contains_char "$" prefix = false ->
  Str.contains_char "$" suffix = false ->
  Str.contains_char "$" name = false ->
  Str.contains_char "}" name = false ->
  name <> "" ->
  expand_variable_reference ctx name = Ok v ->
  evaluate (StringLiteral (prefix +:+ "${" +:+ name +:+ "}" +:+ suffix) quoted) ctx
  = if (String.length v =? 0)%nat then Stops NeverReturns
    else if (3 + String.length name + String.length suffix <? String.length v)%nat
         then Stops UndefinedBehaviour
         else Returns (evaluated (VString (prefix +:+ v +:+ suffix)) Certain) ctx.
Proof.
  intros Hprefix Hsuffix Hname Hfree Hne Hv.
  change (prefix +:+ "${" +:+ name +:+ "}" +:+ suffix)
    with (prefix +:+ String "$" (String "{" (name +:+ String "}" suffix))).
  set (tail := String "$" (String "{" (name +:+ String "}" suffix))).
  assert (Htail : String.length tail = (3 + String.length name + String.length suffix)%nat)
    by (unfold tail; simpl; rewrite string_length_app; simpl; lia).
  assert (Hround : forall result start,
            (start <= String.length prefix)%nat ->
            (String.length prefix <= String.length result)%nat ->
            Str.take (String.length prefix) result = prefix ->
            interpolate_step ctx (prefix +:+ tail) result start
            = if (String.length tail <? String.length v)%nat then Abort UndefinedBehaviour
              else Continue
                     (prefix +:+ v +:+
                        Str.drop (String.length prefix + (3 + String.length name)) result)
                     (String.length prefix + String.length v)).
  { intros result start Hstart Hlen Htake.
    unfold interpolate_step, regex_search.
    replace start with (String.length (Str.take start prefix)) at 1; cycle 1.
    { clear -Hstart. revert start Hstart.
      induction prefix as [|c p IH]; intros [|n] H; simpl in *; auto; try lia.
      f_equal. apply IH. lia. }
    replace (prefix +:+ tail) with (Str.take start prefix +:+ (Str.drop start prefix +:+ tail))
      at 1; cycle 1.
    { clear. revert start. induction prefix as [|c p IH]; intros [|n]; simpl; auto.
      now rewrite IH. }
    replace (String.length (Str.take start prefix)) with
      (String.length (Str.take start prefix) + 0)%nat by lia.
    rewrite string_drop_app_length. cbn [Str.drop].
    unfold tail. rewrite search_finds_reference;
      [|apply contains_char_drop; exact Hprefix| exact Hfree | exact Hne].
    cbn [m_captures m_position m_length sub_match Nat.eqb]. rewrite Hv.
    rewrite drop_length.
    replace (0 + (String.length prefix - start) + start)%nat with (String.length prefix) by lia.
    replace (String.length result <? String.length prefix)%nat with false
      by (symmetry; apply Nat.ltb_ge; lia).
    unfold Str.replace. rewrite Htake.
    fold tail. rewrite string_length_app.
    destruct (String.length tail <? String.length v)%nat eqn:E.
    - replace (String.length prefix + String.length tail <?
               String.length prefix + String.length v)%nat with true; [reflexivity|].
      symmetry. apply Nat.ltb_lt. apply Nat.ltb_lt in E. lia.
    - replace (String.length prefix + String.length tail <?
               String.length prefix + String.length v)%nat with false; [reflexivity|].
      symmetry. apply Nat.ltb_ge. apply Nat.ltb_ge in E. lia. }
  cbn [evaluate]. unfold visit_StringLiteral, interpolate_string.
  cbn [interpolate_loop].
  rewrite Hround; [|lia|rewrite string_length_app; lia|apply string_take_app_length].
  rewrite <- Htail.
  destruct (String.length v =? 0)%nat eqn:Hempty.
  - apply Nat.eqb_eq in Hempty. destruct v; [clear Hempty|discriminate].
    cbn [String.length].
    replace (String.length tail <? 0)%nat with false by reflexivity.
    destruct (String.length prefix + 0 <=? 0)%nat eqn:Hfirst; [reflexivity|].
    rewrite string_length_app.
    replace (String.length prefix + String.length tail)%nat
      with (S (String.length prefix + (2 + String.length name + String.length suffix)))
      by lia.
    cbn [interpolate_loop].
    rewrite Hround; [|lia|rewrite !string_length_app; lia|apply string_take_app_length].
    cbn [String.length].
    replace (String.length tail <? 0)%nat with false by reflexivity.
    rewrite Nat.leb_refl. reflexivity.
  - destruct (String.length tail <? String.length v)%nat eqn:Hlong; [reflexivity|].
    apply Nat.eqb_neq in Hempty. apply Nat.ltb_ge in Hlong.
    replace (String.length prefix + String.length v <=? 0)%nat with false
      by (symmetry; apply Nat.leb_gt; lia).
    rewrite string_length_app.
    replace (String.length prefix + String.length tail)%nat
      with (S (String.length prefix + (2 + String.length name + String.length suffix)))
      by lia.
    cbn [interpolate_loop].
    unfold interpolate_step at 1, regex_search.
    rewrite string_drop_app_length.
    rewrite search_without_dollar; cycle 1.
    { destruct (String.length v) as [|n]; [lia|].
      unfold tail. cbn [Str.drop]. apply contains_char_drop.
      cbn [Str.contains_char]. rewrite contains_char_app, Hname.
      cbn [Str.contains_char]. rewrite Hsuffix. reflexivity. }
    rewrite (string_drop_app_length prefix tail (3 + String.length name)).
    replace (Str.drop (3 + String.length name) tail) with suffix; [reflexivity|].
    unfold tail.
    change (Str.drop (3 + String.length name)
              (String "$" (String "{" (name +:+ String "}" suffix))))
      with (Str.drop (S (String.length name)) (name +:+ String "}" suffix)).
    replace (S (String.length name)) with (String.length name + 1)%nat by lia.
    rewrite string_drop_app_length. reflexivity.
Qed.

End OneReference.

Lemma literal_with_one_reference_witness :
  let R := ExampleRuntime.example_runtime in
  let ctx := Evaluator.new_file_evaluator Analyzer.OtherUnix in
  Evaluator.evaluate (Ast.StringLiteral "${CMAKE_BINARY_DIR}/generated" true) ctx
  = Evaluator.Returns
      (Evaluator.evaluated (Analyzer.VString "/build/generated") Analyzer.Certain) ctx.
Proof.
  intros R ctx.
  apply (literal_with_one_reference "" "CMAKE_BINARY_DIR" "/generated" "/build" true ctx);
    try reflexivity.
  discriminate.
Defined.

(** ** Commands with too few arguments, and commands that are not evaluated *)

Section Guards.
Context {R : Runtime}.
Import Regex Ast Analyzer Evaluator.

(** X15: The commands that need two arguments refuse a call with none or with one,
    and [add_library] and [add_executable] a call with none: the answer is an
    error, the argument is not evaluated and the context stays as it was.
    [project()] without arguments answers without an error and binds
    nothing. *)
Theorem commands_refuse_too_few_arguments (arg : ASTNode) (ctx : EvaluationContext) :
  let refused (command : string) (args : list ASTNode) :=
    exists e, evaluate (CommandCall command args) ctx = Returns (Err e) ctx in
  Forall (fun command => refused command [] /\ refused command [arg])
    ["set"; "cmake_minimum_required"; "option"; "target_include_directories";
     "target_link_libraries"; "target_compile_definitions"]
  /\ refused "add_library" [] /\ refused "add_executable" []
  /\ evaluate (CommandCall "project" []) ctx
     = Returns (evaluated (VString "") Certain) ctx.
Proof.
  intros refused. split; [|split; [|split]];
    repeat constructor; eexists; reflexivity.
Qed.

(** X16: Only nine commands act on the context. Every other command, whatever its
    arguments are, leaves the context as it is and evaluates none of its
    arguments: [if] and [message] answer with confidence Certain, and a
    command that the evaluator does not know, [add_subdirectory] or
    [find_package] say, with confidence Unknown; none of them gives an error. *)
Theorem other_commands_change_nothing
  (command : string) (args : list ASTNode) (ctx : EvaluationContext) :
  ~ In command ["set"; "cmake_minimum_required"; "option"; "project"; "add_library";
                "add_executable"; "target_include_directories"; "target_link_libraries";
                "target_compile_definitions"] ->
  evaluate (CommandCall command args) ctx
  = Returns (evaluated (VString "")
               (if String.eqb command "if" || String.eqb command "message"
                then Certain else Unknown)) ctx.
Proof.
  intros Hother. cbn [evaluate]. unfold visit_CommandCall.
  repeat match goal with
  | |- context [String.eqb command ?w] =>
      destruct (String.eqb_spec command w) as [->|?];
      [try reflexivity; exfalso; apply Hother; simpl; tauto|]
  end.
  reflexivity.
Qed.

End Guards.

Lemma other_commands_change_nothing_witness :
  let R := ExampleRuntime.example_runtime in
  let ctx := Evaluator.new_file_evaluator Analyzer.OtherUnix in
  Evaluator.evaluate
    (Ast.CommandCall "add_subdirectory" [Ast.StringLiteral "${UNIX}" false]) ctx
  = Evaluator.Returns (Evaluator.evaluated (Analyzer.VString "") Analyzer.Unknown) ctx.
Proof.
  intros R ctx.
  apply (other_commands_change_nothing "add_subdirectory"
           [Ast.StringLiteral "${UNIX}" false] ctx).
  simpl. intros H. repeat (destruct H as [H|H]; [discriminate H|]). exact H.
Defined.

(** ** The tokens of the lexer *)

Section LexerTokens.
Context {R : Runtime}.
Import Lexer LexerFacts.

Lemma left_advance_char (l : Lexer) : (left (advance_char l) <= left l)%nat.
Proof. unfold advance_char, left, move. destruct (at_end l); simpl; lia. Qed.

Lemma left_advance_char_lt (l : Lexer) :
  at_end l = false -> (left (advance_char l) < left l)%nat.
Proof.
  unfold advance_char, left, move, at_end. intros H. rewrite H.
  apply Nat.leb_gt in H. simpl. lia.
Qed.

Lemma at_end_left (l : Lexer) : left l = 0%nat -> at_end l = true.
Proof. unfold left, at_end. intros H. apply Nat.leb_le. lia. Qed.

(** where [skip_whitespace] stops there is no blank *)
Lemma skip_whitespace_loop_stops (skip_newlines : bool) (rounds : nat) :
  forall l,
    (left l <= rounds)%nat ->
    at_end (skip_whitespace_loop rounds skip_newlines l) = false ->
    is_blank (current_char (skip_whitespace_loop rounds skip_newlines l)) = false.
Proof.
  induction rounds as [|rounds IH]; intros l Hleft; cbn [skip_whitespace_loop].
  - intros H. rewrite at_end_left in H by lia. discriminate.
  - destruct (at_end l) eqn:Hend; [congruence|].
    pose proof (left_advance_char_lt l Hend) as Hlt.
    pose proof (left_advance_char (advance_char l)) as Hle.
    destruct (Ascii.eqb (current_char l) BACKSLASH && Ascii.eqb (peek_char 1 l) LF);
      [apply IH; lia|].
    destruct (is_blank (current_char l)) eqn:Hblank; [apply IH; lia|].
    destruct (Ascii.eqb (current_char l) LF && skip_newlines); [apply IH; lia|].
    intros _. exact Hblank.
Qed.

Lemma lex_string_not_trivia l : not_trivia (lex_string l).
Proof.
  unfold lex_string. destruct (string_loop _ _ _ _) as [value l'].
  destruct (at_end l'); simpl; auto; split; discriminate.
Qed.

Lemma lex_variable_not_trivia l : not_trivia (lex_variable l).
Proof.
  unfold lex_variable. cbv zeta. destruct (nested_loop _ _ _ _ _ _) as [name l'].
  destruct (at_end l'); simpl; auto; split; discriminate.
Qed.

Lemma lex_generator_expr_not_trivia l : not_trivia (lex_generator_expr l).
Proof.
  unfold lex_generator_expr. cbv zeta. destruct (nested_loop _ _ _ _ _ _) as [name l'].
  destruct (at_end l'); simpl; auto; split; discriminate.
Qed.

Lemma lex_number_not_trivia l : not_trivia (lex_number l).
Proof.
  unfold lex_number. cbv zeta.
  match goal with |- context [if stod_out_of_range ?s then _ else _] =>
    destruct (stod_out_of_range s) end; simpl; auto; split; discriminate.
Qed.

Lemma lex_unquoted_argument_not_trivia l : not_trivia (lex_unquoted_argument l).
Proof.
  unfold lex_unquoted_argument. destruct (unquoted_loop _ _ _) as [value l'].
  destruct (String.eqb value ""); simpl; auto; split; discriminate.
Qed.

Lemma lex_bracket_comment_not_trivia l : not_trivia (lex_bracket_comment l).
Proof.
  unfold lex_bracket_comment. cbv zeta. destruct (skip_equals _) as [n l1].
  destruct (negb _); simpl; auto.
  destruct (closing_loop _ _ _ _) as [passed l2].
  destruct (at_end l2); simpl; auto; split; discriminate.
Qed.

Lemma lex_bracket_argument_not_trivia l : not_trivia (lex_bracket_argument l).
Proof.
  unfold lex_bracket_argument. cbv zeta. destruct (skip_equals _) as [n l1].
  destruct (negb _); simpl; auto.
  destruct (closing_loop _ _ _ _) as [passed l2].
  destruct (at_end l2); simpl; auto; split; discriminate.
Qed.

Lemma next_token_not_trivia (rounds : nat) : forall l, not_trivia (next_token rounds l).
Proof.
  induction rounds as [|rounds IH]; intros l; cbn [next_token]; cbv zeta;
    (destruct (at_end (skip_whitespace false l)) eqn:Hend;
     [simpl; split; discriminate|]);
    pose proof (skip_whitespace_loop_stops false (left l) l (Nat.le_refl _) Hend) as Hblank;
    fold (skip_whitespace false l) in Hblank; rewrite Hblank;
    repeat match goal with
    | |- not_trivia (if ?b then _ else _) => destruct b
    end;
    try (simpl; split; discriminate);
    auto using lex_string_not_trivia, lex_variable_not_trivia,
      lex_generator_expr_not_trivia, lex_number_not_trivia,
      lex_unquoted_argument_not_trivia, lex_bracket_comment_not_trivia,
      lex_bracket_argument_not_trivia;
    try exact I.
Qed.

Lemma tokens_loop_not_trivia (rounds : nat) :
  forall l, Forall (fun tok => type tok <> Whitespace /\ type tok <> Comment)
              (fst (tokens_loop rounds l)).
Proof.
  induction rounds as [|rounds IH]; intros l; cbn [tokens_loop]; [constructor|].
  pose proof (next_token_not_trivia (left l) l) as Hnext.
  destruct (next_token (left l) l) as [[tok|e] l'].
  - destruct (TokenType_eqb (type tok) Eof).
    + repeat constructor; apply Hnext.
    + specialize (IH l'). destruct (tokens_loop rounds l') as [toks errs].
      constructor; [exact Hnext | exact IH].
  - specialize (IH l'). destruct (tokens_loop rounds l') as [toks errs].
    constructor; [split; discriminate | exact IH].
Qed.

(** X17: The lexer hands out no Whitespace token and no Comment token, whatever
    the source is: blanks are skipped before a token is read and a line
    comment is passed over. The tests that the parser makes for these two
    types never succeed. *)
Theorem lexer_yields_no_whitespace_or_comment (source : string) (rounds : nat) (l : Lexer) :
  match next_token rounds l with
  | (Ok tok, _) => type tok <> Whitespace /\ type tok <> Comment
  | (Err _, _) => True
  end
  /\ Forall (fun tok => type tok <> Whitespace /\ type tok <> Comment)
       (fst (tokenize source)).
Proof.
  split; [apply next_token_not_trivia | apply tokens_loop_not_trivia].
Qed.

(** At a vertical tab or a form feed that stands where a token begins the
    lexer does not move: [is_unquoted_elem] lets the character in,
    [lex_unquoted_argument] stops in front of it, as [std::isspace] holds of
    it, and fails with nothing read. The next call finds the lexer where it
    was and answers the same, and so on: the tokens of such a source have no
    Eof. *)
Example lexer_stays_at_a_vertical_tab :
  let source := "a" +:+ String (ascii_of_nat 11) "b" in
  let l := {| content := source; position_ := 1 |} in
  next_token (left l) l
  = (Err {| pe_category := InvalidSyntax; pe_message := "Expected argument" |}, l)
  /\ existsb (fun tok => TokenType_eqb (type tok) Eof) (fst (tokenize source)) = false
  /\ Parser.parser_of source = None.
Proof. vm_compute. auto. Qed.

End LexerTokens.
(** ** The parser: trivia, recovery, and the arguments of a command *)

Section ParserSteps.
Context {R : Runtime}.
Import Ast Lexer Parser ParserFacts.


(** X18: [skip_trivia] stops at the first token that is no blank, no comment and
    no newline, or at the end of the input. It passes over nothing else, never
    moves backwards, and leaves the tokens and the panic flag as they are. On
    its way it asks the lexer for the tokens up to the one it stops at, as far
    as they are not in the buffer yet: the errors that the lexer answers
    there are recorded, in their order, if the panic flag is down, and are
    lost if it is up. *)
Theorem skip_trivia_stops_at_a_token (p : Parser) :
  let p' := skip_trivia p in
  is_trivia (type (current p')) = false
  /\ (current_ p <= current_ p')%nat
  /\ (forall i, (current_ p <= i < current_ p')%nat ->
        exists tok, token_buffer_ p !! i = Some tok /\ is_trivia (type tok) = true)
  /\ token_buffer_ p' = token_buffer_ p
  /\ panic_mode_ p' = panic_mode_ p
  /\ fetched_ p' = Nat.max (fetched_ p) (current_ p' + 1)
  /\ lexer_errors_ p' = drop (invalid_among (drawn (current_ p') p)) (lexer_errors_ p)
  /\ errors_ p'
     = (errors_ p ++ (if panic_mode_ p then [] else drawn_errors (current_ p') p))%list.
Proof.
  cbv zeta. unfold skip_trivia.
  destruct (advance_while_stops is_trivia eq_refl (remaining p) p (Nat.le_refl _))
    as (k & -> & Hk & Hstop & Hpassed).
  rewrite current_fetch_current, fetch_current_effect.
  cbn [current_ token_buffer_ panic_mode_ fetched_ lexer_errors_ errors_ set_current].
  repeat split; auto.
Qed.







(** A string without its closing quote as the last argument of a [set]: the
    error of the lexer is recorded by whichever call fetches the token while
    the panic flag is down, is lost if the flag is up then, and it is what
    [parse_file] answers in the end; the error of the parser at the missing
    parenthesis is not among the errors. *)
Example lexer_errors_reach_the_parser :
  let unterminated :=
    {| pe_category := UnterminatedString; pe_message := "Unterminated string" |} in
  match parser_of ("set(X " +:+ String QUOTE "b") with
  | Some p =>
      parse_file 4 "CMakeLists.txt" p = Some (Err [unterminated])
      /\ errors_ (skip_trivia (set_current 3 p)) = [unterminated]
      /\ errors_ (skip_trivia (set_panic true (set_current 3 p))) = []
      /\ errors_ (synchronize (set_panic true (set_current 3 p))) = [unterminated]
      /\ consume RightParen "Expected ')' after arguments" (set_current 3 p)
         = (Err {| pe_category := InvalidSyntax;
                   pe_message := "Expected ')' after arguments" |},
            fetch_current (set_panic true (fetch_current (set_current 3 p))))
      /\ errors_ (snd (consume RightParen "Expected ')' after arguments" (set_current 3 p)))
         = [unterminated]
  | None => False
  end.
Proof. vm_compute. repeat split. Qed.

End ParserSteps.

Section ArgumentsOfACommand.
Context {R : Runtime}.
Import Ast Analyzer Evaluator Lexer Parser.

Lemma arguments_loop_command_free (rounds : nat) :
  forall args p args' p',
    forallb command_free args = true ->
    arguments_loop rounds args p = (Ok args', p') ->
    forallb command_free args' = true.
Proof.
  induction rounds as [|rounds IH]; cbn [arguments_loop]; intros args p args' p' Hargs H;
    cbv zeta in H; set (q := fetch_current p) in H.
  - injection H as <- _. exact Hargs.
  - destruct (check RightParen q || check Eof q); [injection H as <- _; exact Hargs|].
    destruct (check RightParen _ || check Eof _); [injection H as <- _; exact Hargs|].
    destruct (parse_argument _) as [[arg|e] p1] eqn:Harg; [|discriminate].
    eapply IH; [|exact H].
    apply forallb_snoc; [exact Hargs|].
    eapply parse_argument_command_free, Harg.
Qed.

(** X21: No argument that [parse_arguments] returns holds a command, so that the
    evaluation of an argument of a parsed command never changes the context:
    where it returns, it returns in the context it started in. *)
Theorem parsed_arguments_leave_the_context (p p' : Parser) (args : list ASTNode) :
  parse_arguments p = (Ok args, p') ->
  Forall (fun arg =>
            command_free arg = true
            /\ forall (ctx ctx' : EvaluationContext) (r : EvalResult),
                 evaluate arg ctx = Returns r ctx' -> ctx' = ctx) args.
Proof.
  intros H. unfold parse_arguments in H.
  apply arguments_loop_command_free in H; [|reflexivity].
  apply Forall_forall. intros arg Hin.
  rewrite forallb_forall in H. apply list_elem_of_In in Hin. specialize (H arg Hin).
  split; [exact H|]. intros ctx ctx' r. apply command_free_returns, H.
Qed.

End ArgumentsOfACommand.

Lemma parsed_arguments_leave_the_context_witness :
  let R := ExampleRuntime.example_runtime in
  let tokens := fst (Lexer.tokenize "${TARGET} [[a.cpp]])") in
  let args := [Ast.VariableRef "TARGET" Ast.Normal;
               Ast.StringLiteral "a.cpp" true] in
  fst (Parser.parse_arguments (Parser.new_parser tokens)) = Ok args
  /\ Forall (fun arg =>
               Evaluator.command_free arg = true
               /\ forall (ctx ctx' : Analyzer.EvaluationContext) (r : Evaluator.EvalResult),
                    Evaluator.evaluate arg ctx = Evaluator.Returns r ctx' -> ctx' = ctx)
       args.
Proof.
  intros R tokens args. split.
  - vm_compute. reflexivity.
  - apply (parsed_arguments_leave_the_context (Parser.new_parser tokens)
             (snd (Parser.parse_arguments (Parser.new_parser tokens)))).
    vm_compute. reflexivity.
Defined.

Section UnquotedWords.
Context {R : Runtime}.
Import Ast Lexer Parser ParserFacts.

Lemma append_empty_r (s : string) : s +:+ "" = s.
Proof. induction s as [|c s IH]; simpl; [reflexivity | now rewrite IH]. Qed.



End UnquotedWords.


(** ** The package-manager sub-parser: versions and shorthands *)

Section CPMVersions.
Context {R : Runtime}.
Import Regex Ast CPMParser.

(** [a+] in front of a character that [a] does not match, or of the end:
    the longest run is tried first *)
Lemma plus_loop_longest {X} (a : char_class) (v rest : string)
  (k : nat -> string -> option X) (x : X) :
  v <> "" ->
  Forall (fun c => class_matches a c = true) (Str.to_list v) ->
  match rest with
  | EmptyString => True
  | String c _ => class_matches a c = false
  end ->
  forall consumed,
    k (consumed + String.length v)%nat rest = Some x ->
    plus_loop a consumed (v +:+ rest) k = Some x.
Proof.
  intros Hne Hall Hrest.
  induction v as [|c v IH]; intros consumed Hk; [congruence|].
  apply Forall_cons in Hall as [Hc Hall].
  cbn [String.append plus_loop]. rewrite Hc.
  destruct v as [|c' v'].
  - cbn [String.append]. cbn [String.length] in Hk. rewrite Nat.add_1_r in Hk.
    destruct rest as [|r rest']; cbn [plus_loop]; [exact Hk|].
    rewrite Hrest. exact Hk.
  - rewrite (IH ltac:(discriminate) Hall (S consumed)); [reflexivity|].
    rewrite <- Hk. f_equal. cbn [String.length]. lia.
Qed.

Lemma any_char_matches (v : string) :
  Str.contains_char (ascii_of_nat 10) v = false ->
  Str.contains_char (ascii_of_nat 13) v = false ->
  Forall (fun c => class_matches AnyChar c = true) (Str.to_list v).
Proof.
  induction v as [|c v IH]; cbn [Str.contains_char Str.to_list]; intros H10 H13;
    constructor.
  - apply orb_false_elim in H10 as [H10 _]. apply orb_false_elim in H13 as [H13 _].
    cbn [class_matches]. rewrite H10, H13. reflexivity.
  - apply orb_false_elim in H10 as [_ H10]. apply orb_false_elim in H13 as [_ H13]. auto.
Qed.

Lemma take_all (v : string) : Str.take (String.length v) v = v.
Proof. induction v as [|c v IH]; simpl; [reflexivity | now rewrite IH]. Qed.

(** X23: The three forms of a version text, for a [v] that is not empty and has
    no line break: [@v] is the exact version [v], [>=v] the minimum version
    [v], and a text that begins with neither [@] nor [>=] is taken whole, not
    exact, and kept as the git tag too when it holds a slash or a hyphen or
    has forty characters. *)
Theorem version_string_forms (v : string) :
  v <> "" ->
  Str.contains_char (ascii_of_nat 10) v = false ->
  Str.contains_char (ascii_of_nat 13) v = false ->
  parse_version_string ("@" +:+ v) = Ok {| version := v; exact := true; git_tag := "" |}
  /\ parse_version_string (">=" +:+ v)
     = Ok {| version := v; exact := false; git_tag := "" |}
  /\ forall s,
       Str.starts_with "@" s = false -> Str.starts_with ">=" s = false ->
       parse_version_string s
       = Ok {| version := s; exact := false;
               git_tag := if Str.contains_char "/" s || Str.contains_char "-" s
                             || (String.length s =? 40)%nat
                          then s else "" |}.
Proof.
  intros Hne H10 H13.
  pose proof (any_char_matches v H10 H13) as Hany.
  assert (Hexact : regex_match VERSION_EXACT_REGEX ("@" +:+ v) = Some [(1%nat, v)]).
  { unfold regex_match, VERSION_EXACT_REGEX. cbn [String.append run Nat.eqb class_matches].
    rewrite Ascii.eqb_refl.
    rewrite <- (append_empty_r v) at 1.
    apply plus_loop_longest; auto.
    cbn [run].
    replace (1 + String.length v - 1)%nat with (String.length v) by lia.
    now rewrite take_all. }
  assert (Hmin : regex_match VERSION_MIN_REGEX (">=" +:+ v) = Some [(1%nat, v)]).
  { unfold regex_match, VERSION_MIN_REGEX. cbn [String.append run Nat.eqb class_matches].
    rewrite !Ascii.eqb_refl.
    rewrite <- (append_empty_r v) at 1.
    apply plus_loop_longest; auto.
    cbn [run].
    replace (2 + String.length v - 2)%nat with (String.length v) by lia.
    now rewrite take_all. }
  split; [|split].
  - unfold parse_version_string. rewrite Hexact. reflexivity.
  - unfold parse_version_string.
    replace (regex_match VERSION_EXACT_REGEX (">=" +:+ v)) with (@None captures)
      by reflexivity.
    rewrite Hmin. reflexivity.
  - intros s Hat Hge. unfold parse_version_string.
    assert (regex_match VERSION_EXACT_REGEX s = None) as ->.
    { unfold regex_match, VERSION_EXACT_REGEX. cbn [run Nat.eqb class_matches].
      destruct s as [|c s]; [reflexivity|].
      cbn [Str.starts_with] in Hat. rewrite andb_true_r in Hat.
      rewrite Hat. reflexivity. }
    assert (regex_match VERSION_MIN_REGEX s = None) as ->.
    { unfold regex_match, VERSION_MIN_REGEX. cbn [run Nat.eqb class_matches].
      destruct s as [|c s]; [reflexivity|].
      cbn [Str.starts_with] in Hge.
      destruct (Ascii.eqb ">" c); [|reflexivity].
      destruct s as [|c' s]; [reflexivity|].
      cbn [Str.starts_with andb] in Hge. rewrite andb_true_r in Hge.
      rewrite Hge. reflexivity. }
    reflexivity.
Qed.

End CPMVersions.

Lemma version_string_forms_witness :
  let R := ExampleRuntime.example_runtime in
  CPMParser.parse_version_string "@1.2.3"
  = Ok {| Ast.version := "1.2.3"; Ast.exact := true; Ast.git_tag := "" |}
  /\ CPMParser.parse_version_string "release/1.x"
     = Ok {| Ast.version := "release/1.x"; Ast.exact := false;
             Ast.git_tag := "release/1.x" |}.
Proof.
  intros R.
  destruct (version_string_forms "1.2.3" ltac:(discriminate) eq_refl eq_refl)
    as (Hexact & _ & Hplain).
  split; [exact Hexact|].
  exact (Hplain "release/1.x" eq_refl eq_refl).
Defined.

Section CPMShorthand.
Context {R : Runtime}.
Import Regex Ast CPMParser.

Lemma none_of_matches (cs v : string) :
  Forall (fun c => Str.contains_char c cs = false) (Str.to_list v) ->
  Forall (fun c => class_matches (NoneOf cs) c = true) (Str.to_list v).
Proof.
  induction 1 as [|c l Hc _ IH]; constructor; [|exact IH].
  cbn [class_matches]. now rewrite Hc.
Qed.

Lemma find_char_after (c : ascii) (a b : string) :
  Forall (fun x => Ascii.eqb x c = false) (Str.to_list a) ->
  Str.find_char c (a +:+ String c b) = Some (String.length a).
Proof.
  induction a as [|x a IH]; cbn [Str.to_list String.append Str.find_char String.length];
    intros H.
  - now rewrite Ascii.eqb_refl.
  - apply Forall_cons in H as [Hx H]. rewrite Hx, (IH H). reflexivity.
Qed.

(** the pattern behind the optional [gh:], on [owner/repo] and what follows *)
Lemma shorthand_match (owner repo : string) (version_part : option (ascii * string)) :
  owner <> "" -> repo <> "" ->
  Forall (fun c => Str.contains_char c "/@#" = false) (Str.to_list owner) ->
  Forall (fun c => Str.contains_char c "/@#" = false) (Str.to_list repo) ->
  match version_part with
  | Some (sep, v) =>
      Str.contains_char sep "@#" = true /\ v <> ""
      /\ Str.contains_char (ascii_of_nat 10) v = false
      /\ Str.contains_char (ascii_of_nat 13) v = false
  | None => True
  end ->
  regex_match GITHUB_SHORTHAND_REGEX
    ("gh:" +:+ owner +:+ "/" +:+ repo +:+
     match version_part with Some (sep, v) => String sep v | None => "" end)
  = Some (match version_part with Some (_, v) => [(3%nat, v)] | None => [] end
          ++ [(2%nat, repo); (1%nat, owner)])%list.
Proof.
  intros Howner Hrepo Hown Hrep Hversion.
  set (tail := match version_part with Some (sep, v) => String sep v | None => "" end).
  assert (Htail : match tail with
                  | EmptyString => True
                  | String c _ => class_matches (NoneOf "/@#") c = false
                  end).
  { unfold tail. destruct version_part as [[sep v]|]; [|exact I].
    destruct Hversion as (Hsep & _).
    cbn [class_matches Str.contains_char] in *.
    rewrite orb_false_r in Hsep.
    apply orb_true_iff in Hsep as [Hsep|Hsep].
    - apply Ascii.eqb_eq in Hsep as <-. reflexivity.
    - apply Ascii.eqb_eq in Hsep as <-. reflexivity. }
  unfold regex_match, GITHUB_SHORTHAND_REGEX.
  cbn [String.append run word Nat.eqb class_matches].
  rewrite !Ascii.eqb_refl.
  match goal with
  | |- match ?first with Some x => Some x | None => _ end = _ =>
      assert (Hfirst : first = Some (match version_part with
                                     | Some (_, v) => [(3%nat, v)]
                                     | None => []
                                     end ++ [(2%nat, repo); (1%nat, owner)])%list);
      [|rewrite Hfirst; reflexivity]
  end.
  apply plus_loop_longest; [exact Howner | apply none_of_matches, Hown | reflexivity |].
  cbn [run class_matches]. rewrite Ascii.eqb_refl.
  apply plus_loop_longest; [exact Hrepo | apply none_of_matches, Hrep | exact Htail |].
  replace (3 + String.length owner - 3)%nat with (String.length owner) by lia.
  rewrite string_take_app_length.
  replace (S (3 + String.length owner) + String.length repo - S (3 + String.length owner))%nat
    with (String.length repo) by lia.
  rewrite string_take_app_length.
  unfold tail. destruct version_part as [[sep v]|].
  - destruct Hversion as (Hsep & Hv & H10 & H13).
    cbn [run class_matches]. rewrite Hsep.
    match goal with
    | |- match ?first with Some x => Some x | None => _ end = _ =>
        assert (Hfirst : first = Some ([(3%nat, v)] ++ [(2%nat, repo); (1%nat, owner)])%list);
        [|rewrite Hfirst; reflexivity]
    end.
    rewrite <- (append_empty_r v) at 1.
    apply plus_loop_longest; [exact Hv | apply any_char_matches; assumption | exact I |].
    match goal with
    | |- context [Str.take (?a + String.length v - ?a) v] =>
        replace (a + String.length v - a)%nat with (String.length v) by lia
    end.
    rewrite take_all. reflexivity.
  - reflexivity.
Qed.

(** X24: [CPMAddPackage("gh:owner/repo@v")], and the same with [#] for [@]: the
    package is called [repo], its source is the GitHub repository
    [owner/repo], and its version is what [parse_version_string] makes of
    [v], the text behind the separator. Without a version part the package
    has no version. *)
Theorem github_shorthand_package
  (owner repo : string) (version_part : option (ascii * string)) (quoted : bool) :
  owner <> "" -> repo <> "" ->
  Forall (fun c => Str.contains_char c "/@#" = false) (Str.to_list owner) ->
  Forall (fun c => Str.contains_char c "/@#" = false) (Str.to_list repo) ->
  match version_part with
  | Some (sep, v) =>
      Str.contains_char sep "@#" = true /\ v <> ""
      /\ Str.contains_char (ascii_of_nat 10) v = false
      /\ Str.contains_char (ascii_of_nat 13) v = false
  | None => True
  end ->
  let shorthand :=
    "gh:" +:+ owner +:+ "/" +:+ repo +:+
    match version_part with Some (sep, v) => String sep v | None => "" end in
  let package := set_source GitHub (owner +:+ "/" +:+ repo) (new_add_package repo) in
  parse_cpm_command "CPMAddPackage" [StringLiteral shorthand quoted]
  = match version_part with
    | Some (_, v) =>
        match parse_version_string v with
        | Ok parsed => Ok (CPMAddPackage (set_version parsed package))
        | Err e => Err e
        end
    | None => Ok (CPMAddPackage package)
    end.
Proof.
  intros Howner Hrepo Hown Hrep Hversion shorthand package.
  pose proof (shorthand_match owner repo version_part Howner Hrepo Hown Hrep Hversion)
    as Hmatch.
  fold shorthand in Hmatch.
  unfold parse_cpm_command. cbn [String.eqb Ascii.eqb Bool.eqb].
  unfold parse_cpm_add_package. cbn [get_string_value].
  unfold is_github_shorthand. rewrite Hmatch.
  unfold parse_cpm_add_package_shorthand, parse_github_shorthand. rewrite Hmatch.
  assert (Hcaps : sub_match 1 (match version_part with
                               | Some (_, v) => [(3%nat, v)] | None => [] end
                               ++ [(2%nat, repo); (1%nat, owner)])%list = owner
                  /\ sub_match 2 (match version_part with
                                  | Some (_, v) => [(3%nat, v)] | None => [] end
                                  ++ [(2%nat, repo); (1%nat, owner)])%list = repo
                  /\ sub_match 3 (match version_part with
                                  | Some (_, v) => [(3%nat, v)] | None => [] end
                                  ++ [(2%nat, repo); (1%nat, owner)])%list
                     = match version_part with Some (_, v) => v | None => "" end).
  { destruct version_part as [[sep v]|]; repeat split; reflexivity. }
  destruct Hcaps as (-> & -> & ->).
  assert (Hslash : Str.find_char "/" (owner +:+ "/" +:+ repo) = Some (String.length owner)).
  { apply (find_char_after "/" owner repo).
    eapply Forall_impl; [exact Hown|]. intros c Hc.
    cbn [Str.contains_char] in Hc. apply orb_false_elim in Hc as [Hc _].
    rewrite Ascii.eqb_sym. exact Hc. }
  rewrite Hslash.
  replace (Str.drop (String.length owner + 1) (owner +:+ "/" +:+ repo)) with repo
    by (rewrite string_drop_app_length; reflexivity).
  fold package.
  destruct version_part as [[sep v]|]; [|reflexivity].
  destruct Hversion as (_ & Hv & _).
  destruct (String.eqb_spec v ""); [congruence|]. cbn [negb].
  destruct (parse_version_string v); reflexivity.
Qed.

End CPMShorthand.

Lemma github_shorthand_package_witness :
  let R := ExampleRuntime.example_runtime in
  CPMParser.parse_cpm_command "CPMAddPackage" [Ast.StringLiteral "gh:fmtlib/fmt#10.2.1" true]
  = Ok (Ast.CPMAddPackage
          {| Ast.add_name := "fmt"; Ast.add_source_type := Some Ast.GitHub;
             Ast.add_source := "fmtlib/fmt";
             Ast.add_version := Some {| Ast.version := "10.2.1"; Ast.exact := false;
                                        Ast.git_tag := "" |};
             Ast.add_options := ∅; Ast.add_find_package_fallback := true |}).
Proof.
  intros R.
  apply (github_shorthand_package "fmtlib" "fmt" (Some ("#"%char, "10.2.1")) true);
    try discriminate; try (repeat constructor).
  repeat split; try reflexivity. discriminate.
Defined.

(** ** What every evaluation keeps *)

Section Invariants.
Context {R : Runtime}.
Import Regex Ast Analyzer Evaluator EvaluatorFacts.

Lemma extends_refl (ctx : EvaluationContext) : extends ctx ctx.
Proof.
  repeat split; auto. exists []. split; [constructor|].
  simpl. now rewrite app_nil_r.
Qed.

Lemma extends_trans (a b c : EvaluationContext) : extends a b -> extends b c -> extends a c.
Proof.
  intros (Hp & Hc & Hv & Hcv & added & Hb & Ht) (Hp' & Hc' & Hv' & Hcv' & added' & Hb' & Ht').
  split; [congruence|]. split; [congruence|]. split; [auto|]. split; [auto|].
  exists (added ++ added')%list. split; [apply Forall_app; auto|].
  rewrite Ht', Ht, fmap_app, <- app_assoc. reflexivity.
Qed.

Lemma extends_set_variable name v c ctx : extends ctx (set_variable name v c ctx).
Proof.
  split; [reflexivity|]. split; [reflexivity|]. split; [|split; [auto|]].
  - intros other H. simpl. destruct (String.eqb_spec other name) as [->|Hne].
    + rewrite lookup_insert_eq. eauto.
    + rewrite lookup_insert_ne by congruence. exact H.
  - exists []. split; [constructor|]. simpl. now rewrite app_nil_r.
Qed.

Lemma extends_set_cache_variable name v c ctx :
  extends ctx (set_cache_variable name v c ctx).
Proof.
  split; [reflexivity|]. split; [reflexivity|]. split; [auto|]. split.
  - intros other H. simpl. destruct (String.eqb_spec other name) as [->|Hne].
    + rewrite lookup_insert_eq. eauto.
    + rewrite lookup_insert_ne by congruence. exact H.
  - exists []. split; [constructor|]. simpl. now rewrite app_nil_r.
Qed.

Lemma extends_add_target t ctx : buildable t = true -> extends ctx (add_target t ctx).
Proof.
  intros Ht. repeat split; auto.
  exists [t]. split; [repeat constructor; exact Ht|].
  simpl. now rewrite fmap_app.
Qed.

Lemma extends_push (push : string -> Target -> Target) s k ctx :
  (forall t, made_with (push s t) = made_with t) ->
  extends ctx (with_targets (alter (push s) k (targets_ ctx)) ctx).
Proof.
  intros Hpush. repeat split; auto.
  exists []. split; [constructor|]. simpl. rewrite app_nil_r.
  rewrite (list_fmap_alter made_with (push s) (fun x => x)).
  - apply list_alter_id. reflexivity.
  - apply Forall_forall. intros t _. apply Hpush.
Qed.

Lemma respects_ret {A} (a : A) : respects (ret a).
Proof. intros ctx. apply extends_refl. Qed.

Lemma respects_stop {A} why : respects (@stop R A why).
Proof. intros ctx. exact I. Qed.

Lemma respects_context : respects context.
Proof. intros ctx. apply extends_refl. Qed.

Lemma respects_bind {A B} (m : M A) (f : A -> M B) :
  respects m -> (forall a, respects (f a)) -> respects (bind m f).
Proof.
  intros Hm Hf ctx. unfold bind. specialize (Hm ctx).
  destruct (m ctx) as [a ctx1|why]; [|exact I].
  specialize (Hf a ctx1). destruct (f a ctx1) as [b ctx2|why]; [|exact I].
  eapply extends_trans; eassumption.
Qed.

Lemma respects_bind_post {A B} (P : A -> Prop) (m : M A) (f : A -> M B) :
  (forall ctx,
     match m ctx with
     | Returns a later => extends ctx later /\ P a
     | Stops _ => True
     end) ->
  (forall a, P a -> respects (f a)) -> respects (bind m f).
Proof.
  intros Hm Hf ctx. unfold bind. specialize (Hm ctx).
  destruct (m ctx) as [a ctx1|why]; [|exact I].
  destruct Hm as [Hext Ha].
  specialize (Hf a Ha ctx1). destruct (f a ctx1) as [b ctx2|why]; [|exact I].
  eapply extends_trans; eassumption.
Qed.

Lemma respects_update f : (forall ctx, extends ctx (f ctx)) -> respects (update f).
Proof. intros Hf ctx. apply Hf. Qed.

Lemma respects_evaluate_at (args : list Thunk) (i : nat) :
  Forall respects args -> respects (evaluate_at args i).
Proof.
  intros Hargs. unfold evaluate_at.
  destruct (args !! i) as [t|] eqn:E; [|apply respects_stop].
  eapply Forall_lookup_1; eassumption.
Qed.

Lemma respects_string_literal s : respects (visit_StringLiteral s).
Proof.
  intros ctx. unfold visit_StringLiteral.
  destruct (interpolate_string ctx s) as [[r|e]|why]; simpl; auto using extends_refl.
Qed.

Ltac respects_step :=
  match goal with
  | |- respects (bind _ _) => apply respects_bind; [|intros ?]
  | |- respects (ret _) => apply respects_ret
  | |- respects (nothing _) => apply respects_ret
  | |- respects (stop _) => apply respects_stop
  | |- respects context => apply respects_context
  | |- respects (evaluate_at _ _) => apply respects_evaluate_at; assumption
  | |- respects (update (set_variable _ _ _)) =>
      apply respects_update; intros ?; apply extends_set_variable
  | |- respects (update (set_cache_variable _ _ _)) =>
      apply respects_update; intros ?; apply extends_set_cache_variable
  | |- respects (if ?b then _ else _) => destruct b
  | |- respects (match ?x with _ => _ end) => destruct x
  end.

Lemma respects_list_values_loop (items : list Thunk) :
  Forall respects items -> forall acc c, respects (list_values_loop items acc c).
Proof.
  induction 1 as [|item rest Hitem _ IH]; intros acc c; cbn [list_values_loop].
  - apply respects_ret.
  - apply respects_bind; [exact Hitem|]. intros [v|e]; [apply IH | apply respects_ret].
Qed.

Lemma respects_sources_loop (items : list Thunk) :
  Forall respects items -> forall acc, respects (sources_loop items acc).
Proof.
  induction 1 as [|item rest Hitem _ IH]; intros acc; cbn [sources_loop].
  - apply respects_ret.
  - apply respects_bind; [exact Hitem|]. intros [v|e]; apply IH.
Qed.

Lemma respects_find_version_keyword (items : list Thunk) :
  Forall respects items -> forall i, respects (find_version_keyword items i).
Proof.
  induction 1 as [|item rest Hitem _ IH]; intros i; cbn [find_version_keyword].
  - apply respects_ret.
  - apply respects_bind; [exact Hitem|]. intros [v|e]; [|apply IH].
    destruct (String.eqb _ _); [apply respects_ret | apply IH].
Qed.

Lemma respects_push_values_loop (k : nat) (push : string -> Target -> Target)
  (items : list Thunk) :
  (forall s t, made_with (push s t) = made_with t) ->
  Forall respects items -> respects (push_values_loop k push items).
Proof.
  intros Hpush. induction 1 as [|item rest Hitem _ IH]; cbn [push_values_loop].
  - apply respects_ret.
  - apply respects_bind; [apply respects_context|]. intros before.
    apply respects_bind; [exact Hitem|]. intros item_result.
    apply respects_bind; [apply respects_context|]. intros after.
    destruct (negb _); [apply respects_stop|].
    apply respects_bind; [|intros _; exact IH].
    destruct item_result as [v|e]; [|apply respects_ret].
    destruct (negb _); [|apply respects_ret].
    apply respects_update. intros ctx. apply extends_push. apply Hpush.
Qed.

Lemma respects_evaluate_all (stmts : list Thunk) :
  Forall respects stmts -> respects (evaluate_all stmts).
Proof.
  induction 1 as [|s rest Hs _ IH]; cbn [evaluate_all]; [apply respects_ret|].
  apply respects_bind; auto.
Qed.

Lemma respects_evaluate_condition (c : Thunk) :
  respects c -> respects (evaluate_condition c).
Proof.
  intros Hc. apply respects_bind; [exact Hc|]. intros [v|e]; apply respects_ret.
Qed.

Lemma respects_elseif_body (branches : list Branch) :
  Forall (fun b => respects (snd b)) branches -> respects (evaluate_elseif_body branches).
Proof.
  induction 1 as [|[[c|] s] rest Hs _ IH]; cbn [evaluate_elseif_body];
    try apply respects_ret.
  apply respects_bind; auto.
Qed.

Lemma respects_elseif_loop (branches : list Branch) :
  Forall (fun b => respects (snd b)
                   /\ match fst b with Some c => respects c | None => True end)
         branches ->
  respects (elseif_loop branches).
Proof.
  intros H.
  assert (Hbody : forall l : list Branch,
             Forall (fun b => respects (snd b)
                              /\ match fst b with Some c => respects c | None => True end) l ->
             Forall (fun b => respects (snd b)) l).
  { intros l Hl. eapply Forall_impl; [exact Hl|]. intros b [Hb _]. exact Hb. }
  induction H as [|[[c|] s] rest [Hs Hc] Hrest IH]; cbn [elseif_loop];
    [apply respects_ret| |exact IH].
  apply respects_bind; [apply respects_evaluate_condition, Hc|].
  intros [[|]|e]; try exact IH.
  apply respects_bind; [apply respects_elseif_body, Hbody, Hrest|].
  intros _. apply respects_ret.
Qed.

Lemma respects_command (name : string) (args : list Thunk) :
  Forall respects args -> respects (visit_CommandCall name args).
Proof.
  intros Hargs.
  assert (Hdrop : forall n, Forall respects (drop n args)) by (intros n; apply Forall_drop, Hargs).
  assert (Htake : forall n, Forall respects (take n args)) by (intros n; apply Forall_take, Hargs).
  assert (Hsetter : forall requires push,
             (forall s t, made_with (push s t) = made_with t) ->
             respects (evaluate_target_property_command requires push args)).
  { intros requires push Hpush. unfold evaluate_target_property_command.
    repeat respects_step; try (apply respects_push_values_loop; auto). }
  unfold visit_CommandCall.
  repeat match goal with
  | |- respects (if String.eqb name ?w then _ else _) => destruct (String.eqb name w)
  end.
  - unfold evaluate_set_command. repeat respects_step.
    apply respects_list_values_loop, Hdrop.
  - apply respects_ret.
  - unfold evaluate_cmake_minimum_required. repeat respects_step.
    apply respects_find_version_keyword, Htake.
  - unfold evaluate_option_command. repeat respects_step.
  - unfold evaluate_project_command. repeat respects_step.
  - apply respects_ret.
  - unfold evaluate_add_library_command.
    destruct (RuleTemplates.is_empty args); [apply respects_ret|].
    apply respects_bind; [apply respects_evaluate_at, Hargs|].
    intros [name_value|e]; [|apply respects_ret].
    apply (respects_bind_post
             (fun kind => In (fst kind) [SharedLibrary; StaticLibrary; InterfaceLibrary])).
    + intros ctx. destruct (1 <? length args)%nat; [|split; [apply extends_refl|simpl; tauto]].
      unfold bind. pose proof (respects_evaluate_at args 1 Hargs ctx) as Htype.
      destruct (evaluate_at args 1 ctx) as [[v|e] later|why]; [| |exact I].
      * repeat match goal with
        | |- context [if ?b then _ else _] => destruct b
        end; (split; [exact Htype | simpl; tauto]).
      * split; [exact Htype | simpl; tauto].
    + intros kind Hkind.
      apply respects_bind; [apply respects_sources_loop, Hdrop|]. intros srcs.
      apply respects_bind; [|intros _; apply respects_ret].
      apply respects_update. intros ctx. apply extends_add_target.
      unfold buildable, new_target; simpl.
      destruct Hkind as [<-|[<-|[<-|[]]]]; reflexivity.
  - unfold evaluate_add_executable_command. repeat respects_step;
      try (apply respects_sources_loop, Hdrop);
      apply respects_update; intros ctx; apply extends_add_target; reflexivity.
  - apply Hsetter. intros s t. reflexivity.
  - apply Hsetter. intros s t. reflexivity.
  - apply Hsetter. intros s t. reflexivity.
  - apply respects_ret.
Qed.

Lemma Forall_respects_map (l : list ASTNode) :
  Forall (fun n => respects (evaluate n)) l -> Forall respects (List.map evaluate l).
Proof. induction 1; simpl; constructor; auto. Qed.

Lemma respects_evaluate_strong (node : ASTNode) :
  respects (evaluate node)
  /\ match as_elseif node with
     | Some c => respects (evaluate c)
     | None => True
     end.
Proof.
  induction node; cbn [evaluate as_elseif];
    try (split; [apply respects_ret | exact I]);
    try (apply list_all_Forall in X);
    try (apply list_all_Forall in X0);
    try (apply list_all_Forall in X1).
  - split; [apply respects_string_literal | exact I].
  - split; [|exact I]. unfold visit_Variable. repeat respects_step.
  - split; [|exact I]. apply respects_command, Forall_respects_map.
    eapply Forall_impl; [exact X|]. intros n Hn. apply Hn.
  - split; [|exact I]. unfold visit_IfStatement.
    apply respects_bind; [apply respects_evaluate_condition, IHnode|].
    intros cond_result.
    apply respects_bind; [|intros _; apply respects_ret].
    destruct cond_result as [[|]|e]; [| |apply respects_ret].
    + apply respects_evaluate_all, Forall_respects_map.
      eapply Forall_impl; [exact X|]. intros n Hn. apply Hn.
    + apply respects_bind.
      * apply respects_elseif_loop.
        clear - X0. induction X0 as [|n rest Hn _ IH]; simpl; constructor; [|exact IH].
        destruct Hn as [Ha Hb]. split; [exact Ha|].
        destruct n; simpl in *; auto.
      * intros b. destruct (negb b && _); [|apply respects_ret].
        apply respects_evaluate_all, Forall_respects_map.
        eapply Forall_impl; [exact X1|]. intros n Hn. apply Hn.
  - split; [apply respects_ret|]. apply IHnode.
  - split; [|exact I]. unfold visit_ListExpression. apply respects_bind.
    + apply respects_list_values_loop, Forall_respects_map.
      eapply Forall_impl; [exact X|]. intros n Hn. apply Hn.
    + intros r. apply respects_ret.
  - split; [|exact I]. apply IHnode.
  - split; [|exact I]. unfold visit_statements. apply respects_bind.
    + apply respects_evaluate_all, Forall_respects_map.
      eapply Forall_impl; [exact X|]. intros n Hn. apply Hn.
    + intros _. apply respects_ret.
  - split; [|exact I]. unfold visit_statements. apply respects_bind.
    + apply respects_evaluate_all, Forall_respects_map.
      eapply Forall_impl; [exact X|]. intros n Hn. apply Hn.
    + intros _. apply respects_ret.
Qed.

(** X25: Whatever is evaluated, and in whatever context: where the evaluation
    returns, no variable and no cache variable that was bound has been
    unbound, the targets that were there stand where they stood, with their
    names, types and sources, only targets of a library or executable type
    have been added behind them, and the platform checks and the parent scope
    have not been touched. *)
Theorem evaluation_only_adds (node : ASTNode) (ctx : EvaluationContext) :
  match evaluate node ctx with
  | Returns _ later =>
      parent_ later = parent_ ctx
      /\ platform_checks_ later = platform_checks_ ctx
      /\ (forall name, is_Some (variables_ ctx !! name) ->
                       is_Some (variables_ later !! name))
      /\ (forall name, is_Some (cache_variables_ ctx !! name) ->
                       is_Some (cache_variables_ later !! name))
      /\ exists added,
           Forall (fun t => buildable t = true) added
           /\ made_with <$> targets_ later
              = ((made_with <$> targets_ ctx) ++ (made_with <$> added))%list
  | Stops _ => True
  end.
Proof. apply (proj1 (respects_evaluate_strong node) ctx). Qed.

End Invariants.

(** ** The generator *)

Section BuckFile.
Context {R : Runtime}.
Import Ast Analyzer Evaluator EvaluatorFacts TargetMapper RuleTemplates Generation.

Lemma needed_symbols_loop_returns (targets : list Target) :
  forall acc, exists symbols, needed_symbols_loop targets acc = Ok symbols.
Proof.
  induction targets as [|t targets IH]; intros acc; cbn [needed_symbols_loop]; eauto.
  unfold map_cmake_target. cbn [rule_type]. apply IH.
Qed.

Lemma get_template_buildable (t : Target) :
  get_template (determine_rule_type t)
  = if buildable t
    then Some (match target_type t with
               | ExecutableTarget => CxxBinaryTemplate_generate
               | _ => CxxLibraryTemplate_generate
               end)
    else None.
Proof. unfold determine_rule_type, buildable. destruct (target_type t); reflexivity. Qed.

Lemma rules_loop_buildable (targets : list Target) :
  forall writer,
    if forallb buildable targets
    then exists writer', rules_loop targets writer = Ok writer'
    else rules_loop targets writer
         = Err {| ge_category := MissingTemplate;
                  ge_message := "No template found for rule type" |}.
Proof.
  induction targets as [|t targets IH]; intros writer; cbn [forallb rules_loop]; eauto.
  unfold map_cmake_target. cbn [rule_type]. rewrite get_template_buildable.
  destruct (buildable t); cbn [andb]; [apply IH | reflexivity].
Qed.

Lemma buck_file_content (targets : list Target) :
  exists content,
    forall (write_file : string -> string -> Result unit GenerationError)
           (output_path : string),
      generate_buck_file write_file output_path targets
      = if forallb buildable targets
        then write_file output_path content
        else Err {| ge_category := MissingTemplate;
                    ge_message := "No template found for rule type" |}.
Proof.
  unfold generate_buck_file.
  destruct (needed_symbols_loop_returns targets []) as [symbols ->].
  cbv zeta.
  match goal with
  | |- context [rules_loop targets ?w] => pose proof (rules_loop_buildable targets w) as H
  end.
  destruct (forallb buildable targets).
  - destruct H as [writer' ->]. exists (generate writer'). reflexivity.
  - rewrite H. exists "". reflexivity.
Qed.

(** X26: A BUCK file is written when every target is a library or an executable:
    then the answer of [generate_buck_file] is the answer of [write_file] for
    a text that the targets determine. With a single target of another type,
    custom or unknown, nothing is written and the answer is the error
    MissingTemplate, whatever the other targets are. *)
Theorem buck_file_needs_a_template_for_every_target (targets : list Target) :
  exists content,
    forall (write_file : string -> string -> Result unit GenerationError)
           (output_path : string),
      generate_buck_file write_file output_path targets
      = if forallb buildable targets
        then write_file output_path content
        else Err {| ge_category := MissingTemplate;
                    ge_message := "No template found for rule type" |}.
Proof. apply buck_file_content. Qed.

Lemma made_as_buildable (a b : list Target) :
  made_with <$> a = made_with <$> b ->
  Forall (fun t => buildable t = true) b ->
  forallb buildable a = true.
Proof.
  revert b. induction a as [|x a IH]; intros [|y b] Hmap Hb; try discriminate; [reflexivity|].
  apply Forall_cons in Hb as [Hy Hb].
  cbn [fmap list_fmap] in Hmap. unfold made_with at 1 3 in Hmap.
  injection Hmap as _ Hty _ Hrest.
  cbn [forallb]. rewrite (IH b Hrest Hb), andb_true_r.
  unfold buildable in *. now rewrite Hty.
Qed.

Lemma forallb_of_members {A} (f : A -> bool) (l group : list A) :
  (forall x, In x group -> In x l) -> forallb f l = true -> forallb f group = true.
Proof.
  intros Hincl Hl. apply forallb_forall. intros x Hx.
  rewrite forallb_forall in Hl. auto.
Qed.

(** X27: The targets of an analysis, made from any file by a fresh evaluator, are
    libraries and executables only. So the generator finds a template for
    each of them: for every group of them, [generate_buck_file] answers what
    [write_file] answers, and never with MissingTemplate. *)
Theorem analysed_targets_find_their_templates
  (host : Host) (file : ASTNode) (analysis : ProjectAnalysis) (ctx : EvaluationContext) :
  analyze file (new_file_evaluator host) = Returns (Ok analysis) ctx ->
  forallb buildable (targets analysis) = true
  /\ forall group,
       (forall t, In t group -> In t (targets analysis)) ->
       exists content,
         forall (write_file : string -> string -> Result unit GenerationError)
                (output_path : string),
           generate_buck_file write_file output_path group
           = write_file output_path content.
Proof.
  intros Hanalyze.
  assert (Hbuildable : forallb buildable (targets analysis) = true).
  { unfold analyze, evaluate_file in Hanalyze. unfold bind at 1 2 in Hanalyze.
    pose proof (proj1 (respects_evaluate_strong file) (new_file_evaluator host)) as Hkeeps.
    destruct (evaluate file (new_file_evaluator host)) as [[v|e] later|why];
      [| discriminate | discriminate].
    unfold ret, bind, context in Hanalyze. injection Hanalyze as <- <-.
    cbn [targets]. unfold get_targets.
    destruct Hkeeps as (_ & _ & _ & _ & added & Hadded & Hmade).
    assert (Hnone : targets_ (new_file_evaluator host) = [])
      by (destruct host; reflexivity).
    rewrite Hnone in Hmade.
    eapply made_as_buildable; [exact Hmade | exact Hadded]. }
  split; [exact Hbuildable|].
  intros group Hgroup.
  destruct (buck_file_content group) as [content Hcontent].
  exists content. intros write_file output_path.
  rewrite Hcontent, (forallb_of_members buildable (targets analysis) group Hgroup Hbuildable).
  reflexivity.
Qed.

End BuckFile.

Lemma analysed_targets_find_their_templates_witness :
  let R := ExampleRuntime.example_runtime in
  let file :=
    Ast.File "CMakeLists.txt"
      [Ast.CommandCall "add_library"
         [Ast.StringLiteral "core" false; Ast.StringLiteral "core.cpp" false];
       Ast.CommandCall "add_executable"
         [Ast.StringLiteral "app" false; Ast.StringLiteral "main.cpp" false]] in
  let made :=
    Analyzer.add_target (Evaluator.new_target "app" Analyzer.ExecutableTarget ["main.cpp"])
      (Analyzer.add_target (Evaluator.new_target "core" Analyzer.StaticLibrary ["core.cpp"])
         (Evaluator.new_file_evaluator Analyzer.OtherUnix)) in
  match Evaluator.analyze file (Evaluator.new_file_evaluator Analyzer.OtherUnix) with
  | Evaluator.Returns (Ok analysis) ctx =>
      ctx = made
      /\ forallb EvaluatorFacts.buildable (Analyzer.targets analysis) = true
  | _ => False
  end.
Proof.
  intros R file made.
  assert (Hfile : Evaluator.evaluate file (Evaluator.new_file_evaluator Analyzer.OtherUnix)
                  = Evaluator.Returns
                      (Evaluator.evaluated (Analyzer.VString "") Analyzer.Certain) made)
    by reflexivity.
  pose proof (analysed_targets_find_their_templates Analyzer.OtherUnix file) as Hthm.
  unfold Evaluator.analyze, Evaluator.evaluate_file in Hthm |- *.
  unfold Evaluator.bind at 1 2 in Hthm. unfold Evaluator.bind at 1 2.
  rewrite Hfile in Hthm |- *.
  split; [reflexivity|].
  exact (proj1 (Hthm _ _ eq_refl)).
Defined.

Section Mapping.
Import Analyzer TargetMapper RuleTemplates Generation.

Lemma valid_name_has_no_colon (s : string) :
  Forall (fun c => target_name_char c = true) (Str.to_list s) ->
  Str.contains_char ":" s = false.
Proof.
  induction s as [|c s IH]; cbn [Str.to_list Str.contains_char]; intros H; [reflexivity|].
  apply Forall_cons in H as [Hc H]. rewrite (IH H), orb_false_r.
  destruct (Ascii.eqb_spec c ":") as [->|]; [discriminate Hc | reflexivity].
Qed.

Lemma colons_to_underscores_has_no_colon (s : string) :
  Str.contains_char ":" (colons_to_underscores s) = false.
Proof.
  unfold colons_to_underscores.
  induction s as [|c s IH]; cbn [Str.map Str.contains_char]; [reflexivity|].
  rewrite IH, orb_false_r.
  destruct (Ascii.eqb_spec c ":") as [->|Hne]; [reflexivity|].
  now apply Ascii.eqb_neq.
Qed.

(** X28: The labels that [resolve_dependencies] makes, one for each dependency and
    in the same order. A name without [::] gives a colon and a name of
    [A-Za-z0-9_-] that does not begin with a digit. A name with [::] gives
    two slashes and the name with every colon turned into an underscore: such
    a label holds no colon, and so names no target inside a package. *)
Theorem dependency_labels (deps : list string) :
  Forall2 (fun dep label =>
             if Str.contains "::" dep
             then label = "//" +:+ colons_to_underscores dep
                  /\ Str.contains_char ":" label = false
             else exists name,
                    label = ":" +:+ name
                    /\ name = normalize_target_name dep
                    /\ Forall (fun c => target_name_char c = true) (Str.to_list name)
                    /\ starts_with_digit name = false
                    /\ Str.contains_char ":" name = false)
          deps (resolve_dependencies deps).
Proof.
  induction deps as [|dep deps IH]; cbn [resolve_dependencies]; constructor; [|exact IH].
  destruct (Str.contains "::" dep).
  - split; [reflexivity|]. cbn [String.append Str.contains_char Ascii.eqb Bool.eqb orb].
    apply colons_to_underscores_has_no_colon.
  - exists (normalize_target_name dep).
    pose proof (normalize_output_valid dep) as Hvalid.
    repeat split; auto using normalize_output_no_digit, valid_name_has_no_colon.
Qed.

Lemma transform_sources_filter (sources : list string) :
  transform_sources sources
  = List.filter (fun source => negb (Str.contains "${" source)
                               && negb (Str.contains "$<" source)) sources.
Proof.
  induction sources as [|source sources IH]; cbn [transform_sources List.filter];
    [reflexivity|].
  rewrite IH. reflexivity.
Qed.

Lemma filter_sublist {A} (f : A -> bool) (l : list A) : sublist (List.filter f l) l.
Proof.
  induction l as [|x l IH]; cbn [List.filter]; [constructor|].
  destruct (f x); [now apply sublist_skip | now apply sublist_cons].
Qed.

Lemma in_entry {A B} (present : bool) (k key : A) (v text : B) :
  In (key, text) (if present then [(k, v)] else []) <-> present = true /\ key = k /\ text = v.
Proof.
  destruct present; cbn [In]; split.
  - intros [H|[]]. injection H as <- <-. auto.
  - intros (_ & -> & ->). now left.
  - intros [].
  - intros (H & _). discriminate.
Qed.

Lemma not_is_empty {A} (l : list A) : negb (is_empty l) = true <-> l <> [].
Proof. destruct l; cbn; split; congruence. Qed.

(** X29: What [map_cmake_target] makes of a target; it never fails. The name is
    the normalized name of the target, made of [A-Za-z0-9_-] and not
    beginning with a digit. The rule is a binary rule for an executable, a
    library rule for a static, shared or interface library, a file group for
    a custom target and unknown otherwise, so never a test or a prebuilt
    library. The sources are exactly the sources of the target that hold
    neither [${] nor [$<], in their order: each of these is kept and no other.
    The headers are copied. There is one dependency for each link library, in
    their order: two slashes and the name with its colons turned into
    underscores where the name holds [::], a colon and the normalized name
    where it does not. The properties are, in the order of their keys,
    compiler_flags for compile options, exported_headers for include
    directories, linker_flags for the link libraries of an executable, and
    preprocessor_flags for compile definitions, each present just when its
    list is not empty, with the bracketed list of the quoted items as its
    text. *)
Theorem mapped_target_shape (t : Target) :
  exists m,
    map_cmake_target t = Ok m
    /\ name m = normalize_target_name (target_name t)
    /\ Forall (fun c => target_name_char c = true) (Str.to_list (name m))
    /\ starts_with_digit (name m) = false
    /\ rule_type m
       = match target_type t with
         | ExecutableTarget => CxxBinary
         | StaticLibrary | SharedLibrary | InterfaceLibrary => CxxLibrary
         | CustomTarget => FileGroup
         | UnknownTargetType => Unknown
         end
    /\ srcs m
       = List.filter (fun source => negb (Str.contains "${" source)
                                    && negb (Str.contains "$<" source)) (sources t)
    /\ (forall source,
          In source (srcs m)
          <-> In source (sources t)
              /\ Str.contains "${" source = false /\ Str.contains "$<" source = false)
    /\ sublist (srcs m) (sources t)
    /\ headers m = target_headers t
    /\ Forall2 (fun dep label =>
                  label = if Str.contains "::" dep
                          then "//" +:+ colons_to_underscores dep
                          else ":" +:+ normalize_target_name dep)
         (link_libraries t) (deps m)
    /\ (forall key text,
          In (key, text) (properties m)
          <-> (key = "compiler_flags" /\ compile_options t <> []
               /\ text = bracketed (compile_options t))
              \/ (key = "exported_headers" /\ include_directories t <> []
                  /\ text = bracketed (include_directories t))
              \/ (key = "linker_flags" /\ target_type t = ExecutableTarget
                  /\ link_libraries t <> [] /\ text = bracketed (link_libraries t))
              \/ (key = "preprocessor_flags" /\ compile_definitions t <> []
                  /\ text = bracketed (compile_definitions t)))
    /\ sublist (fst <$> properties m)
         ["compiler_flags"; "exported_headers"; "linker_flags"; "preprocessor_flags"].
Proof.
  eexists. split; [reflexivity|]. cbn [name rule_type srcs headers deps properties].
  split; [reflexivity|].
  split; [apply normalize_output_valid|].
  split; [apply normalize_output_no_digit|].
  split; [unfold determine_rule_type; destruct (target_type t); reflexivity|].
  split; [apply transform_sources_filter|].
  split.
  { intros source. rewrite transform_sources_filter, filter_In, andb_true_iff,
      !negb_true_iff. reflexivity. }
  split; [rewrite transform_sources_filter; apply filter_sublist|].
  split; [reflexivity|].
  split.
  { induction (link_libraries t) as [|d ds IH]; cbn [resolve_dependencies]; constructor;
      [reflexivity | exact IH]. }
  split.
  - intros key text. rewrite !in_app_iff, !in_entry, andb_true_iff, !not_is_empty.
    assert (Hrule : match determine_rule_type t with CxxBinary => true | _ => false end = true
                    <-> target_type t = ExecutableTarget).
    { unfold determine_rule_type. destruct (target_type t); split; congruence. }
    rewrite Hrule. tauto.
  - unfold determine_rule_type.
    destruct (target_type t), (is_empty (compile_options t)),
      (is_empty (include_directories t)), (is_empty (link_libraries t)),
      (is_empty (compile_definitions t));
      cbn [negb andb app fmap list_fmap fst];
      repeat first [apply sublist_nil | apply sublist_skip | apply sublist_cons].
Qed.

End Mapping.

Section SourcesFromReferences.
Context {R : Runtime}.
Import Ast Analyzer Evaluator TargetMapper RuleTemplates Generation.

Lemma contains_at_start (needle rest : string) : Str.contains needle (needle +:+ rest) = true.
Proof.
  assert (H : Str.starts_with needle (needle +:+ rest) = true).
  { induction needle as [|c needle IH]; cbn [String.append Str.starts_with];
      [destruct rest; reflexivity|].
    now rewrite Ascii.eqb_refl, IH. }
  destruct needle; cbn [String.append Str.contains] in *; [destruct rest; reflexivity|].
  now rewrite H.
Qed.

(** X30: A source given as a reference to a variable makes one source, whatever
    the variable holds: for a list it is the text of the list, the elements
    joined by semicolons and not one source for each; for a variable that is
    not bound it is the text of the reference itself, which the mapper then
    leaves out, so that the rule has no sources. *)
Theorem a_reference_makes_one_source
  (name_arg : ASTNode) (name_value : EvaluatedValue) (name : string)
  (var_type : VariableType) (ctx : EvaluationContext) :
  evaluate name_arg ctx = Returns (Ok name_value) ctx ->
  let source :=
    match get_variable ctx name with
    | Some v => to_string (value v)
    | None => "${" +:+ name +:+ "}"
    end in
  let target := new_target (to_string (value name_value)) ExecutableTarget [source] in
  evaluate (CommandCall "add_executable" [name_arg; VariableRef name var_type]) ctx
  = Returns (evaluated (VString "") Certain) (add_target target ctx)
  /\ (forall items c,
        get_variable ctx name = Some {| value := VList items; confidence := c |} ->
        source = join_semicolons items)
  /\ (get_variable ctx name = None ->
      exists mapped, map_cmake_target target = Ok mapped /\ srcs mapped = []).
Proof.
  intros Hname source target. split; [|split].
  - change (evaluate (CommandCall "add_executable" [name_arg; VariableRef name var_type]))
      with (evaluate_add_executable_command [evaluate name_arg; visit_Variable name]).
    unfold evaluate_add_executable_command, evaluate_at.
    cbn [RuleTemplates.is_empty lookup list_lookup drop sources_loop].
    unfold bind at 1. rewrite Hname.
    unfold bind at 1 2, visit_Variable. unfold bind at 1, context.
    subst target source.
    destruct (get_variable ctx name) as [v|]; reflexivity.
  - intros items c Hget. subst source. rewrite Hget. reflexivity.
  - intros Hget. eexists. split; [reflexivity|].
    cbn [srcs]. subst target source. rewrite Hget.
    cbn [new_target sources transform_sources].
    change ("${" +:+ name +:+ "}") with ("${" +:+ (name +:+ "}")).
    rewrite contains_at_start. reflexivity.
Qed.

End SourcesFromReferences.

Lemma a_reference_makes_one_source_witness :
  let R := ExampleRuntime.example_runtime in
  let ctx :=
    Analyzer.set_variable "SOURCES" (Analyzer.VList ["main.cpp"; "util.cpp"]) Analyzer.Certain
      (Evaluator.new_file_evaluator Analyzer.OtherUnix) in
  Evaluator.evaluate
    (Ast.CommandCall "add_executable"
       [Ast.StringLiteral "app" false; Ast.VariableRef "SOURCES" Ast.Normal]) ctx
  = Evaluator.Returns (Evaluator.evaluated (Analyzer.VString "") Analyzer.Certain)
      (Analyzer.add_target
         (Evaluator.new_target "app" Analyzer.ExecutableTarget ["main.cpp;util.cpp"]) ctx).
Proof.
  intros R ctx.
  exact (proj1 (a_reference_makes_one_source
                  (Ast.StringLiteral "app" false)
                  {| Analyzer.value := Analyzer.VString "app";
                     Analyzer.confidence := Analyzer.Certain |}
                  "SOURCES" Ast.Normal ctx eq_refl)).
Defined.
